(** * Oracle EPM assistant: tool-use loop, job watcher, dual-base GET,
      redaction and token cache

    A shallow embedding of the parts of the repository that carry its
    logic, and the properties of them that the specification states.

    - [src/PBCS_MCP/epm_mcp_readonly_dualbase.py]  (module [Dualbase])
    - [src/PBCS_MCP/epm_mcp_readonly.py]           (module [Readonly])
    - [src/PBCS_MCP/pbcs_mcp_readonly.py]          (module [Observer])
    - [src/PBCS_MCP/pbcs_copilot_mcp_real.py]      (module [Copilot])
    - [src/EPM_Orchestrator/epm_orchestrator_gui.py] and
      [src/PBCS_MCP/orchestrator_claude_mcp_epm.py] (module [Orchestrator])

    Python values are embedded as the type [value]; a function that can
    raise returns a [res]; the network, the clock, [time.sleep], the
    completion service and the tool channel are oracles, and every call
    to one of them is recorded in a trace, so that "is never called" and
    "exactly one request" are statements about the trace.  A [while True]
    loop takes a bound on its iterations, and a result is proved for
    every bound that lets the loop reach it.

    The file has three parts: the embedding of the code, the vocabulary
    of the properties (with the module [Interleaving], which runs
    [get_oauth_token] on two threads), and the properties. *)

From Stdlib Require Import String Ascii List ZArith QArith Bool Lia Arith.
From Stdlib Require Import DecimalString.
Import ListNotations.

Open Scope string_scope.
Open Scope list_scope.
Open Scope Z_scope.

(* ================================================================== *)
(** ** Strings, as the Python string methods the code uses

    Strings are [string]s of 8-bit characters.  The methods follow
    Python on the ASCII range; characters above it are left alone. *)
(* ================================================================== *)

Module Str.

Definition is_upper (c : ascii) : bool :=
  let n := nat_of_ascii c in (65 <=? n)%nat && (n <=? 90)%nat.

Definition is_lower (c : ascii) : bool :=
  let n := nat_of_ascii c in (97 <=? n)%nat && (n <=? 122)%nat.

Definition lower_char (c : ascii) : ascii :=
  if is_upper c then ascii_of_nat (nat_of_ascii c + 32) else c.

Definition upper_char (c : ascii) : ascii :=
  if is_lower c then ascii_of_nat (nat_of_ascii c - 32) else c.

(** [s.lower()] *)
Fixpoint lower (s : string) : string :=
  match s with
  | EmptyString => EmptyString
  | String c r => String (lower_char c) (lower r)
  end.

(** [s.upper()] *)
Fixpoint upper (s : string) : string :=
  match s with
  | EmptyString => EmptyString
  | String c r => String (upper_char c) (upper r)
  end.

(** [c.isspace()]: tab, line feed, vertical tab, form feed, carriage
    return, the four separators 0x1c-0x1f, and the space. *)
Definition is_space (c : ascii) : bool :=
  let n := nat_of_ascii c in
  ((9 <=? n)%nat && (n <=? 13)%nat) || ((28 <=? n)%nat && (n <=? 32)%nat).

Fixpoint lstrip_by (p : ascii -> bool) (s : string) : string :=
  match s with
  | EmptyString => EmptyString
  | String c r => if p c then lstrip_by p r else s
  end.

(** Drops the characters satisfying [p] from the right end. *)
Fixpoint rstrip_by (p : ascii -> bool) (s : string) : string :=
  match s with
  | EmptyString => EmptyString
  | String c r =>
      match rstrip_by p r with
      | EmptyString => if p c then EmptyString else String c EmptyString
      | r' => String c r'
      end
  end.

(** [s.strip()] *)
Definition strip (s : string) : string :=
  rstrip_by is_space (lstrip_by is_space s).

(** [s.rstrip("/")] *)
Definition rstrip_slash (s : string) : string :=
  rstrip_by (Ascii.eqb "/"%char) s.

(** [p in s] for strings. *)
Fixpoint contains (p s : string) : bool :=
  String.prefix p s ||
  match s with
  | EmptyString => false
  | String _ r => contains p r
  end.

(** [s.endswith(p)] *)
Definition endswith (p s : string) : bool :=
  (String.length p <=? String.length s)%nat &&
  String.eqb
    (String.substring (String.length s - String.length p) (String.length p) s) p.

(** [s[: -len(p)]] for a non-empty [p]. *)
Definition drop_last (n : nat) (s : string) : string :=
  String.substring 0 (String.length s - n) s.

(** [sep.join(l)] *)
Definition join (sep : string) (l : list string) : string :=
  String.concat sep l.

(** [str(n)] for an integer. *)
Definition of_Z (n : Z) : string :=
  NilZero.string_of_int (Z.to_int n).

(** A string is true in a condition when it is not empty. *)
Definition nonempty (s : string) : bool :=
  match s with EmptyString => false | _ => true end.

End Str.

(* ================================================================== *)
(** ** Python values

    The JSON-like values the code passes around: [None], booleans,
    integers, strings, lists, and dicts with string keys.  A dict is the
    list of its items in insertion order; Python keeps its keys
    distinct.  JSON numbers are taken to be integers. *)
(* ================================================================== *)

#[local] Set Warnings "-register-all".
Inductive value : Type :=
| VNone
| VBool (b : bool)
| VInt (n : Z)
| VStr (s : string)
| VList (xs : list value)
| VDict (kv : list (string * value)).

Section value_induction.
Variable P : value -> Prop.
Hypothesis HNone : P VNone.
Hypothesis HBool : forall b, P (VBool b).
Hypothesis HInt : forall n, P (VInt n).
Hypothesis HStr : forall s, P (VStr s).
Hypothesis HList : forall xs, Forall P xs -> P (VList xs).
Hypothesis HDict : forall kv, Forall (fun p => P (snd p)) kv -> P (VDict kv).

Fixpoint value_nested_ind (v : value) : P v :=
  match v with
  | VNone => HNone
  | VBool b => HBool b
  | VInt n => HInt n
  | VStr s => HStr s
  | VList xs =>
      HList xs
        ((fix all (l : list value) : Forall P l :=
            match l with
            | [] => Forall_nil P
            | x :: r => Forall_cons x (value_nested_ind x) (all r)
            end) xs)
  | VDict kv =>
      HDict kv
        ((fix all (l : list (string * value)) : Forall (fun p => P (snd p)) l :=
            match l with
            | [] => Forall_nil _
            | p :: r => Forall_cons p (value_nested_ind (snd p)) (all r)
            end) kv)
  end.
End value_induction.

(** Truth value of a Python object in a condition. *)
Definition truthy (v : value) : bool :=
  match v with
  | VNone => false
  | VBool b => b
  | VInt n => negb (n =? 0)
  | VStr s => Str.nonempty s
  | VList xs => match xs with [] => false | _ => true end
  | VDict kv => match kv with [] => false | _ => true end
  end.

(** [a or b] *)
Definition py_or (a b : value) : value := if truthy a then a else b.

(** Lookup of a key among the items of a dict. *)
Fixpoint lookup (k : string) (kv : list (string * value)) : option value :=
  match kv with
  | [] => None
  | (k', v) :: r => if String.eqb k k' then Some v else lookup k r
  end.

(** [d[k] = v]: replaces the value of an existing key in place, or adds
    the item at the end. *)
Fixpoint dict_set (k : string) (v : value) (kv : list (string * value))
  : list (string * value) :=
  match kv with
  | [] => [(k, v)]
  | (k', v') :: r =>
      if String.eqb k k' then (k', v) :: r else (k', v') :: dict_set k v r
  end.

(** [d.get(k)] on a value known to be a dict built by the code. *)
Definition get (d : value) (k : string) : value :=
  match d with
  | VDict kv => match lookup k kv with Some v => v | None => VNone end
  | _ => VNone
  end.

(** [v == n] for an integer literal [n] (a boolean compares as 0 or 1). *)
Definition eq_int (v : value) (n : Z) : bool :=
  match v with
  | VInt m => m =? n
  | VBool b => (if b then 1 else 0) =? n
  | _ => false
  end.

(* ================================================================== *)
(** ** Redaction ([redact], the same function in every server file) *)
(* ================================================================== *)

Definition REDACT_KEYS : list string :=
  ["password"; "authorization"; "access_token"; "client_secret"; "secret"].

Definition REDACTED : value := VStr "***REDACTED***".

(** [k.lower() in REDACT_KEYS] *)
Definition sensitive (k : string) : bool :=
  existsb (String.eqb (Str.lower k)) REDACT_KEYS.

Fixpoint redact (obj : value) : value :=
  match obj with
  | VDict kv =>
      VDict (map (fun item : string * value =>
                    let (k, v) := item in
                    if sensitive k then (k, REDACTED) else (k, redact v)) kv)
  | VList xs => VList (map redact xs)
  | _ => obj
  end.

(** Positions inside a value: a path of dict keys and list indices. *)
Inductive step : Type :=
| Key (k : string)
| Idx (i : nat).

Fixpoint at_path (p : list step) (x : value) : option value :=
  match p with
  | [] => Some x
  | Key k :: p' =>
      match x with
      | VDict kv =>
          match lookup k kv with
          | Some v => at_path p' v
          | None => None
          end
      | _ => None
      end
  | Idx i :: p' =>
      match x with
      | VList xs =>
          match nth_error xs i with
          | Some v => at_path p' v
          | None => None
          end
      | _ => None
      end
  end.

(** A path is open when it passes through no sensitive key. *)
Fixpoint open_path (p : list step) : bool :=
  match p with
  | [] => true
  | Key k :: p' => negb (sensitive k) && open_path p'
  | Idx _ :: p' => open_path p'
  end.

Definition is_scalar (v : value) : bool :=
  match v with
  | VList _ | VDict _ => false
  | _ => true
  end.

(** The outline of a value: the keys of a dict, the length of a list. *)
Definition outline (v : value) : option (list string + nat) :=
  match v with
  | VDict kv => Some (inl (map fst kv))
  | VList xs => Some (inr (length xs))
  | _ => None
  end.

(* ================================================================== *)
(** ** Exceptions, effects and the outside world *)
(* ================================================================== *)

(** The exceptions that the modelled code can raise and does not catch. *)
Inductive exn : Type :=
| AttributeError
| TypeError
| ValueError
| RuntimeError (msg : string)
| ApiError (msg : string).   (* raised by the completion service *)

Inductive res (A : Type) : Type :=
| Ret (a : A)
| Raise (e : exn).
Arguments Ret {A} a.
Arguments Raise {A} e.

(** What is handed to [requests]: the keyword arguments of the call.
    [rq_bearer] is the token of the [Authorization: Bearer] header, and
    [rq_data] the document that [json.dumps] serialises (or the form of
    the token request). *)
Record request : Type := {
  rq_method : string;
  rq_url : option string;
  rq_headers : list (string * string);
  rq_bearer : option value;
  rq_params : option (list (string * value));
  rq_data : option value;
  rq_auth : option (option string * option string);
  rq_timeout : Z;
  rq_verify : bool
}.

(** A [requests.Response]: [resp_json] is what [r.json()] returns, [None]
    when it raises; [r.content] is empty exactly when [resp_text] is. *)
Record response : Type := {
  resp_status_code : Z;
  resp_text : string;
  resp_json : option value;
  resp_reason : string
}.

Inductive reply : Type :=
| Failed (msg : string)      (* [requests.RequestException], [str(e) = msg] *)
| Response (r : response).

Inductive event : Type :=
| EvRequest (rq : request)
| EvTime
| EvSleep (secs : Z).

Definition trace : Type := list event.

(** The world outside the process.  The network and the clock answer as
    a function of everything that happened before, so a server may
    answer the same request differently each time. *)
Record world : Type := {
  net : trace -> request -> reply;
  clock : trace -> Q;
  getenv : string -> option string
}.

(** Computations over a state [S] that may raise. *)
Definition M (S A : Type) : Type := S -> res A * S.

Definition ret {S A : Type} (a : A) : M S A := fun s => (Ret a, s).

Definition raise {S A : Type} (e : exn) : M S A := fun s => (Raise e, s).

Definition bind {S A B : Type} (m : M S A) (f : A -> M S B) : M S B :=
  fun s =>
    match m s with
    | (Ret a, s') => f a s'
    | (Raise e, s') => (Raise e, s')
    end.

Definition lift {S A : Type} (r : res A) : M S A := fun s => (r, s).

Declare Scope py_scope.
Delimit Scope py_scope with py.
Notation "x <- m ;; k" := (bind m (fun x => k))
  (at level 61, m at next level, right associativity) : py_scope.
Notation "m ;;; k" := (bind m (fun _ => k))
  (at level 61, right associativity) : py_scope.
Open Scope py_scope.

(** [requests.request(...)], [time.time()] and [time.sleep(n)] on a
    trace. *)
Definition send (W : world) (rq : request) : M trace reply :=
  fun tr => (Ret (net W tr rq), tr ++ [EvRequest rq]).

Definition time_time (W : world) : M trace Q :=
  fun tr => (Ret (clock W tr), tr ++ [EvTime]).

Definition time_sleep (secs : Z) : M trace unit :=
  fun tr => (Ret tt, tr ++ [EvSleep secs]).

(** [v.get(k)]: only a dict has the method. *)
Definition dget (v : value) (k : string) : res value :=
  match v with
  | VDict kv => Ret (match lookup k kv with Some x => x | None => VNone end)
  | _ => Raise AttributeError
  end.

(** [d[k] = v] on a dict built by the code. *)
Definition set_item (d : value) (k : string) (v : value) : value :=
  match d with
  | VDict kv => VDict (dict_set k v kv)
  | _ => d
  end.

(** [os.getenv(name) or ""] *)
Definition getenv_or_empty (W : world) (name : string) : string :=
  match getenv W name with Some s => s | None => EmptyString end.

(** [a or b] for an optional string argument and a string. *)
Definition or_str (a : option string) (b : string) : string :=
  match a with
  | Some s => if Str.nonempty s then s else b
  | None => b
  end.

(** [r.json() if r.content else {}], with [{"raw_text": r.text}] when
    the body is not JSON. *)
Definition payload_of (r : response) : value :=
  if Str.nonempty (resp_text r) then
    match resp_json r with
    | Some j => j
    | None => VDict [("raw_text", VStr (resp_text r))]
    end
  else VDict [].

(** [payload.get("message") or payload.get("details") or r.reason] *)
Definition error_message (payload : value) (r : response) : res value :=
  match dget payload "message" with
  | Raise e => Raise e
  | Ret m =>
      if truthy m then Ret m
      else match dget payload "details" with
           | Raise e => Raise e
           | Ret d => Ret (py_or d (VStr (resp_reason r)))
           end
  end.

(** [int(x)] for a clock reading: truncation towards zero. *)
Definition Qtrunc (q : Q) : Z := Z.quot (Qnum q) (Zpos (Qden q)).

(** [status in ("SUCCEEDED", "FAILED", "ERROR", "CANCELED", "CANCELLED")]
    after [s = (status or "").upper()]; a status that is true and not a
    string has no [upper]. *)
Definition terminal (status : value) : res bool :=
  match py_or status (VStr EmptyString) with
  | VStr s =>
      Ret (existsb (String.eqb (Str.upper s))
             ["SUCCEEDED"; "FAILED"; "ERROR"; "CANCELED"; "CANCELLED"])
  | _ => Raise AttributeError
  end.

(** [_env_bool(name, default)] *)
Definition _env_bool (W : world) (name : string) (default : bool) : bool :=
  match getenv W name with
  | None => default
  | Some v =>
      existsb (String.eqb (Str.lower (Str.strip v)))
        ["1"; "true"; "yes"; "y"; "on"]
  end.

(** [_derive_base_url] / [_normalize_base_url]: drops a trailing
    [/epmcloud]. *)
Definition strip_epmcloud (service_url : string) : string :=
  let url := Str.rstrip_slash (Str.strip service_url) in
  let url := if Str.endswith "/epmcloud" (Str.lower url)
             then Str.drop_last (String.length "/epmcloud") url else url in
  Str.rstrip_slash url.

(** [[k for k, v in {...}.items() if not v]] *)
Definition missing_of (entries : list (string * string)) : list string :=
  map fst (filter (fun kv => negb (Str.nonempty (snd kv))) entries).

Definition missing_error (missing : list string) : exn :=
  RuntimeError ("Missing required env vars: " ++ Str.join ", " missing).

(* ================================================================== *)
(** ** [epm_mcp_readonly_dualbase.py] *)
(* ================================================================== *)

Module Dualbase.

Record Config : Type := {
  service_url : string;
  base_url : string;
  username : string;
  password : string;
  verify_ssl : bool
}.

Definition _derive_base_url (service_url : string) : string :=
  strip_epmcloud service_url.

Definition load_config (W : world) : res Config :=
  let service_url := Str.rstrip_slash (Str.strip (getenv_or_empty W "EPM_SERVICE_URL")) in
  let username := getenv_or_empty W "EPM_USERNAME" in
  let password := getenv_or_empty W "EPM_PASSWORD" in
  let verify_ssl := _env_bool W "EPM_VERIFY_SSL" true in
  let missing := missing_of [("EPM_SERVICE_URL", service_url);
                             ("EPM_USERNAME", username);
                             ("EPM_PASSWORD", password)] in
  match missing with
  | _ :: _ => Raise (missing_error missing)
  | [] =>
      Ret {| service_url := service_url;
             base_url := _derive_base_url service_url;
             username := username;
             password := password;
             verify_ssl := verify_ssl |}
  end.

Definition get_request (url : string) (cfg : Config)
  (params : option (list (string * value))) (timeout_s : Z) : request :=
  {| rq_method := "GET";
     rq_url := Some url;
     rq_headers := [("Accept", "application/json")];
     rq_bearer := None;
     rq_params := params;
     rq_data := None;
     rq_auth := Some (Some (username cfg), Some (password cfg));
     rq_timeout := timeout_s;
     rq_verify := verify_ssl cfg |}.

Definition _http_get (W : world) (url : string) (cfg : Config)
  (params : option (list (string * value))) (timeout_s : Z) : M trace value :=
  r <- send W (get_request url cfg params timeout_s) ;;
  match r with
  | Failed msg =>
      ret (VDict [("ok", VBool false); ("error", VStr "NETWORK_ERROR");
                  ("message", VStr msg); ("url", VStr url)])
  | Response r =>
      let payload := payload_of r in
      if 300 <=? resp_status_code r then
        message <- lift (error_message payload r) ;;
        ret (VDict [("ok", VBool false); ("error", VStr "HTTP_ERROR");
                    ("status_code", VInt (resp_status_code r));
                    ("message", message);
                    ("response", redact payload);
                    ("url", VStr url)])
      else
        ret (VDict [("ok", VBool true);
                    ("status_code", VInt (resp_status_code r));
                    ("response", redact payload);
                    ("url", VStr url)])
  end.

Definition epm_get_dualbase (W : world) (cfg : Config) (interop_path : string)
  (params : option (list (string * value))) : M trace value :=
  let url1 := (base_url cfg ++ interop_path)%string in
  r1 <- _http_get W url1 cfg params 60 ;;
  if truthy (get r1 "ok") then
    ret (set_item r1 "base_used" (VStr "base_url"))
  else if eq_int (get r1 "status_code") 404 then
    let url2 := (base_url cfg ++ "/epmcloud" ++ interop_path)%string in
    r2 <- _http_get W url2 cfg params 60 ;;
    if truthy (get r2 "ok") then
      ret (set_item r2 "base_used" (VStr "epmcloud_context"))
    else
      ret (VDict [("ok", VBool false); ("attempts", VList [r1; r2])])
  else
    ret r1.

Definition INVALID_OPERATION : value :=
  VDict [("ok", VBool false); ("error", VStr "INVALID_OPERATION");
         ("message", VStr "operation must be a simple token like 'download'.")].

(** The test [not op or "/" in op or ".." in op]. *)
Definition bad_operation (op : string) : bool :=
  negb (Str.nonempty op) || Str.contains "/" op || Str.contains ".." op.

Definition epm_get_status (W : world) (operation job_id : string)
  : M trace value :=
  cfg <- lift (load_config W) ;;
  let op := Str.lower (Str.strip operation) in
  if bad_operation op then ret INVALID_OPERATION
  else epm_get_dualbase W cfg
         ("/interop/rest/v2/status/" ++ op ++ "/" ++ job_id)%string None.

(** The three listing tools. *)
Definition epm_list_files (W : world) : M trace value :=
  cfg <- lift (load_config W) ;;
  epm_get_dualbase W cfg "/interop/rest/v2/files/list" None.

Definition epm_list_backups (W : world) : M trace value :=
  cfg <- lift (load_config W) ;;
  epm_get_dualbase W cfg "/interop/rest/v2/backups/list" None.

Definition epm_get_daily_maintenance_time (W : world) : M trace value :=
  cfg <- lift (load_config W) ;;
  epm_get_dualbase W cfg
    "/interop/rest/v2/maintenance/getdailymaintenancestarttime" None.

End Dualbase.

(* ================================================================== *)
(** ** [epm_mcp_readonly.py] *)
(* ================================================================== *)

Module Readonly.

Record Config : Type := {
  service_url : string;
  username : string;
  password : string;
  verify_ssl : bool
}.

Definition load_config (W : world) : res Config :=
  let service_url := Str.rstrip_slash (Str.strip (getenv_or_empty W "EPM_SERVICE_URL")) in
  let username := getenv_or_empty W "EPM_USERNAME" in
  let password := getenv_or_empty W "EPM_PASSWORD" in
  let verify_ssl := _env_bool W "EPM_VERIFY_SSL" true in
  let missing := missing_of [("EPM_SERVICE_URL", service_url);
                             ("EPM_USERNAME", username);
                             ("EPM_PASSWORD", password)] in
  match missing with
  | _ :: _ => Raise (missing_error missing)
  | [] =>
      if negb (Str.endswith "/epmcloud" (Str.lower service_url)) then
        Raise (RuntimeError
          "EPM_SERVICE_URL must end with '/epmcloud' (example: https://<host>/epmcloud)")
      else
        Ret {| service_url := service_url;
               username := username;
               password := password;
               verify_ssl := verify_ssl |}
  end.

Definition get_request (url : string) (cfg : Config)
  (params : option (list (string * value))) (timeout_s : Z) : request :=
  {| rq_method := "GET";
     rq_url := Some url;
     rq_headers := [("Accept", "application/json")];
     rq_bearer := None;
     rq_params := params;
     rq_data := None;
     rq_auth := Some (Some (username cfg), Some (password cfg));
     rq_timeout := timeout_s;
     rq_verify := verify_ssl cfg |}.

Definition epm_get (W : world) (cfg : Config) (path : string)
  (params : option (list (string * value))) (timeout_s : Z) : M trace value :=
  let url := (service_url cfg ++ path)%string in
  r <- send W (get_request url cfg params timeout_s) ;;
  match r with
  | Failed msg =>
      ret (VDict [("ok", VBool false); ("error", VStr "NETWORK_ERROR");
                  ("message", VStr msg); ("url", VStr url)])
  | Response r =>
      let payload := payload_of r in
      if 300 <=? resp_status_code r then
        message <- lift (error_message payload r) ;;
        ret (VDict [("ok", VBool false); ("error", VStr "HTTP_ERROR");
                    ("status_code", VInt (resp_status_code r));
                    ("message", message);
                    ("response", redact payload);
                    ("url", VStr url)])
      else
        ret (VDict [("ok", VBool true);
                    ("status_code", VInt (resp_status_code r));
                    ("response", redact payload);
                    ("url", VStr url)])
  end.

Definition INVALID_OPERATION : value :=
  VDict [("ok", VBool false); ("error", VStr "INVALID_OPERATION");
         ("message", VStr "operation must be a simple token like 'download'.")].

Definition bad_operation (op : string) : bool :=
  negb (Str.nonempty op) || Str.contains "/" op || Str.contains ".." op.

Definition epm_get_status (W : world) (operation job_id : string)
  : M trace value :=
  cfg <- lift (load_config W) ;;
  let op := Str.lower (Str.strip operation) in
  if bad_operation op then ret INVALID_OPERATION
  else epm_get W cfg ("/interop/rest/v2/status/" ++ op ++ "/" ++ job_id)%string
         None 60.

(** The three listing tools. *)
Definition epm_list_files (W : world) : M trace value :=
  cfg <- lift (load_config W) ;;
  epm_get W cfg "/interop/rest/v2/files/list" None 60.

Definition epm_list_backups (W : world) : M trace value :=
  cfg <- lift (load_config W) ;;
  epm_get W cfg "/interop/rest/v2/backups/list" None 60.

Definition epm_get_daily_maintenance_time (W : world) : M trace value :=
  cfg <- lift (load_config W) ;;
  epm_get W cfg "/interop/rest/v2/maintenance/getdailymaintenancestarttime"
    None 60.

End Readonly.

(* ================================================================== *)
(** ** Helpers shared by the two Planning servers *)
(* ================================================================== *)

Definition rbind {A B : Type} (r : res A) (f : A -> res B) : res B :=
  match r with
  | Ret a => f a
  | Raise e => Raise e
  end.

Fixpoint map_res {A B : Type} (f : A -> res B) (l : list A) : res (list B) :=
  match l with
  | [] => Ret []
  | x :: r =>
      rbind (f x) (fun y => rbind (map_res f r) (fun ys => Ret (y :: ys)))
  end.

(** [for it in v]: a list gives its elements, a string its characters, a
    dict its keys; nothing else can be iterated. *)
Definition iterate (v : value) : res (list value) :=
  match v with
  | VList xs => Ret xs
  | VStr s =>
      Ret (map (fun c => VStr (String c EmptyString)) (list_ascii_of_string s))
  | VDict kv => Ret (map (fun p => VStr (fst p)) kv)
  | _ => Raise TypeError
  end.

(** [a.get(k1) or a.get(k2) or ...]: the first true value under the
    keys, in order; the value under the last key when none is true. *)
Fixpoint first_of (d : value) (keys : list string) : res value :=
  match keys with
  | [] => Ret VNone
  | [k] => dget d k
  | k :: r => rbind (dget d k) (fun v => if truthy v then Ret v else first_of d r)
  end.

(** How the polling loop of a watch ends: by a [return] inside the loop,
    or by [break] with the polls and the last status. *)
Inductive loop_end : Type :=
| Returned (result : value)
| Broke (polls : list value) (last_status : value).

(** One entry of [polls]. *)
Definition poll_record (t : Q) (st : value) : value :=
  VDict [("ts", VInt (Qtrunc t));
         ("status", get st "status");
         ("percentComplete", get st "percentComplete")].

(** [(time.time() - start) >= timeout_seconds] *)
Definition timed_out (now start : Q) (timeout_seconds : Z) : bool :=
  Qle_bool (inject_Z timeout_seconds) (now - start).

(* ================================================================== *)
(** ** [pbcs_mcp_readonly.py] *)
(* ================================================================== *)

Module Observer.

Record Config : Type := {
  base_url : string;
  application : string;
  api_version : string;
  username : string;
  password : string;
  verify_ssl : bool
}.

Definition _normalize_base_url (url : string) : string := strip_epmcloud url.

Definition load_config (W : world) : res Config :=
  let base_url := _normalize_base_url (getenv_or_empty W "PBCS_BASE_URL") in
  let application := getenv_or_empty W "PBCS_APPLICATION" in
  let api_version := or_str (getenv W "PBCS_API_VERSION") "v3" in
  let username := getenv_or_empty W "PBCS_USERNAME" in
  let password := getenv_or_empty W "PBCS_PASSWORD" in
  let verify_ssl := _env_bool W "PBCS_VERIFY_SSL" true in
  let missing := missing_of [("PBCS_BASE_URL", base_url);
                             ("PBCS_APPLICATION", application);
                             ("PBCS_USERNAME", username);
                             ("PBCS_PASSWORD", password)] in
  match missing with
  | _ :: _ => Raise (missing_error missing)
  | [] =>
      Ret {| base_url := base_url;
             application := application;
             api_version := api_version;
             username := username;
             password := password;
             verify_ssl := verify_ssl |}
  end.

Definition get_request (url : string) (cfg : Config)
  (params : option (list (string * value))) (timeout_s : Z) : request :=
  {| rq_method := "GET";
     rq_url := Some url;
     rq_headers := [("Accept", "application/json")];
     rq_bearer := None;
     rq_params := params;
     rq_data := None;
     rq_auth := Some (Some (username cfg), Some (password cfg));
     rq_timeout := timeout_s;
     rq_verify := verify_ssl cfg |}.

Definition pbcs_get (W : world) (cfg : Config) (path : string)
  (params : option (list (string * value))) (timeout_s : Z) : M trace value :=
  let url := (base_url cfg ++ path)%string in
  r <- send W (get_request url cfg params timeout_s) ;;
  match r with
  | Failed msg =>
      ret (VDict [("ok", VBool false); ("error", VStr "NETWORK_ERROR");
                  ("message", VStr msg); ("url", VStr url)])
  | Response r =>
      let payload := payload_of r in
      if 300 <=? resp_status_code r then
        message <- lift (error_message payload r) ;;
        ret (VDict [("ok", VBool false); ("error", VStr "HTTP_ERROR");
                    ("status_code", VInt (resp_status_code r));
                    ("message", message);
                    ("response", redact payload);
                    ("url", VStr url)])
      else
        ret (VDict [("ok", VBool true);
                    ("status_code", VInt (resp_status_code r));
                    ("response", redact payload);
                    ("url", VStr url)])
  end.

Definition status_path (v app job_id : string) : string :=
  "/HyperionPlanning/rest/" ++ v ++ "/applications/" ++ app ++ "/jobs/" ++ job_id.

Definition planning_get_job_status (W : world) (job_id : string)
  (application api_version : option string) : M trace value :=
  cfg <- lift (load_config W) ;;
  let app := or_str application (Observer.application cfg) in
  let v := or_str api_version (Observer.api_version cfg) in
  res <- pbcs_get W cfg (status_path v app job_id) None 60 ;;
  if negb (truthy (get res "ok")) then ret res
  else
    let p := get res "response" in
    status <- lift (first_of p ["status"; "descriptiveStatus"; "state"]) ;;
    percentComplete <- lift (dget p "percentComplete") ;;
    startTime <- lift (dget p "startTime") ;;
    endTime <- lift (dget p "endTime") ;;
    ret (VDict [("ok", VBool true);
                ("jobId", VStr job_id);
                ("status", status);
                ("percentComplete", percentComplete);
                ("startTime", startTime);
                ("endTime", endTime);
                ("raw", p)]).

(** One entry of the compacted details. *)
Definition compact_item (it : value) : res value :=
  rbind (dget it "severity") (fun severity =>
  rbind (dget it "type") (fun type =>
  rbind (dget it "row") (fun row =>
  rbind (dget it "message") (fun message =>
  Ret (VDict [("severity", severity); ("type", type);
              ("row", row); ("message", message)]))))).

Definition details_params (offset limit : Z) : list (string * value) :=
  [("offset", VInt offset); ("limit", VInt limit)].

Definition planning_get_job_details (W : world) (job_id : string)
  (offset limit : Z) (application api_version : option string)
  : M trace value :=
  cfg <- lift (load_config W) ;;
  let app := or_str application (Observer.application cfg) in
  let v := or_str api_version (Observer.api_version cfg) in
  res <- pbcs_get W cfg (status_path v app job_id ++ "/details")%string
           (Some (details_params offset limit)) 60 ;;
  if negb (truthy (get res "ok")) then ret res
  else
    found <- lift (dget (get res "response") "items") ;;
    items <- lift (iterate (py_or found (VList []))) ;;
    compact <- lift (map_res compact_item items) ;;
    ret (VDict [("ok", VBool true);
                ("jobId", VStr job_id);
                ("offset", VInt offset);
                ("limit", VInt limit);
                ("count", VInt (Z.of_nat (length compact)));
                ("items", VList compact)]).

Definition POLL_FAILED (job_id : string) (st : value) : value :=
  VDict [("ok", VBool false); ("error", VStr "POLL_FAILED");
         ("jobId", VStr job_id); ("status_call", st)].

Definition TIMEOUT (job_id : string) (timeout_seconds : Z)
  (last_status : value) (polls : list value) : value :=
  VDict [("ok", VBool false); ("error", VStr "TIMEOUT");
         ("message", VStr ("Job did not reach terminal state within "
                           ++ Str.of_Z timeout_seconds ++ "s"));
         ("jobId", VStr job_id);
         ("lastStatus", last_status);
         ("polls", VList polls)].

(** The [while True] loop of [planning_watch_job]; [fuel] bounds the
    number of iterations, and [None] means that it ran out. *)
Fixpoint watch_loop (W : world) (fuel : nat) (job_id : string)
  (poll_interval_seconds timeout_seconds : Z)
  (application api_version : option string)
  (start : Q) (polls : list value) : M trace (option loop_end) :=
  match fuel with
  | O => ret None
  | S fuel' =>
      st <- planning_get_job_status W job_id application api_version ;;
      if negb (truthy (get st "ok")) then
        ret (Some (Returned (POLL_FAILED job_id st)))
      else
        t <- time_time W ;;
        let polls := polls ++ [poll_record t st] in
        done <- lift (terminal (get st "status")) ;;
        if (done : bool) then ret (Some (Broke polls st))
        else
          now <- time_time W ;;
          if timed_out now start timeout_seconds then
            ret (Some (Returned (TIMEOUT job_id timeout_seconds st polls)))
          else
            time_sleep (Z.max 1 poll_interval_seconds) ;;;
            watch_loop W fuel' job_id poll_interval_seconds timeout_seconds
              application api_version start polls
  end.

Definition watch_report (job_id : string) (polls : list value)
  (last_status details : value) : value :=
  VDict [("ok", VBool true);
         ("job", VDict [("jobId", VStr job_id);
                        ("finalStatus", get (py_or last_status (VDict [])) "status");
                        ("pollCount", VInt (Z.of_nat (length polls)));
                        ("polls", VList polls)]);
         ("details", details)].

Definition planning_watch_job (W : world) (fuel : nat) (job_id : string)
  (poll_interval_seconds timeout_seconds : Z) (include_details : bool)
  (details_offset details_limit : Z)
  (application api_version : option string) : M trace (option value) :=
  start <- time_time W ;;
  e <- watch_loop W fuel job_id poll_interval_seconds timeout_seconds
         application api_version start [] ;;
  match e with
  | None => ret None
  | Some (Returned result) => ret (Some result)
  | Some (Broke polls last_status) =>
      details <- (if include_details
                  then planning_get_job_details W job_id details_offset
                         details_limit application api_version
                  else ret VNone) ;;
      ret (Some (watch_report job_id polls last_status details))
  end.

Definition planning_discover_versions (W : world) : M trace value :=
  cfg <- lift (load_config W) ;;
  pbcs_get W cfg "/HyperionPlanning/rest/" None 60.

(** One entry of the job definitions. *)
Definition job_definition (it : value) : res value :=
  rbind (dget it "jobType") (fun jobType =>
  rbind (dget it "jobName") (fun jobName =>
  rbind (dget it "description") (fun description =>
  Ret (VDict [("jobType", jobType); ("jobName", jobName);
              ("description", description)])))).

Definition planning_list_job_definitions (W : world)
  (application api_version : option string) : M trace value :=
  cfg <- lift (load_config W) ;;
  let app := or_str application (Observer.application cfg) in
  let v := or_str api_version (Observer.api_version cfg) in
  res <- pbcs_get W cfg
           ("/HyperionPlanning/rest/" ++ v ++ "/applications/" ++ app
            ++ "/jobdefinitions")%string None 60 ;;
  if negb (truthy (get res "ok")) then ret res
  else
    found <- lift (dget (get res "response") "items") ;;
    items <- lift (iterate (py_or found (VList []))) ;;
    defs <- lift (map_res job_definition items) ;;
    ret (VDict [("ok", VBool true);
                ("count", VInt (Z.of_nat (length defs)));
                ("jobDefinitions", VList defs)]).

End Observer.

(* ================================================================== *)
(** ** [str()], [repr()] and [int()] of a value, as f-strings and
       [int(expires_in)] need them *)
(* ================================================================== *)

Module Py.

Definition dquote : ascii := ascii_of_nat 34.
Definition squote : ascii := ascii_of_nat 39.
Definition backslash : ascii := ascii_of_nat 92.

Definition has_char (c : ascii) (s : string) : bool :=
  existsb (Ascii.eqb c) (list_ascii_of_string s).

Definition hex_digit (n : nat) : ascii :=
  nth n (list_ascii_of_string "0123456789abcdef") "0"%char.

Definition repr_char (quote c : ascii) : string :=
  let n := nat_of_ascii c in
  if Ascii.eqb c quote || Ascii.eqb c backslash then
    String backslash (String c EmptyString)
  else if (n =? 9)%nat then String backslash "t"
  else if (n =? 10)%nat then String backslash "n"
  else if (n =? 13)%nat then String backslash "r"
  else if (n <? 32)%nat || (n =? 127)%nat then
    String backslash
      (String "x" (String (hex_digit (n / 16)) (String (hex_digit (n mod 16)) EmptyString)))
  else String c EmptyString.

(** [repr(s)]: single quotes, unless the string has a single quote and
    no double quote. *)
Definition repr_str (s : string) : string :=
  let quote := if has_char squote s && negb (has_char dquote s)
               then dquote else squote in
  String quote
    (String.concat EmptyString (map (repr_char quote) (list_ascii_of_string s))
     ++ String quote EmptyString)%string.

Fixpoint repr (v : value) : string :=
  match v with
  | VNone => "None"
  | VBool b => if b then "True" else "False"
  | VInt n => Str.of_Z n
  | VStr s => repr_str s
  | VList xs => ("[" ++ Str.join ", " (map repr xs) ++ "]")%string
  | VDict kv =>
      ("{" ++ Str.join ", "
                (map (fun item : string * value =>
                        let (k, x) := item in repr_str k ++ ": " ++ repr x) kv)
           ++ "}")%string
  end.

(** [str(v)], which is what [f"{v}"] inserts. *)
Definition str (v : value) : string :=
  match v with
  | VStr s => s
  | _ => repr v
  end.

Definition is_digit (c : ascii) : bool :=
  let n := nat_of_ascii c in (48 <=? n)%nat && (n <=? 57)%nat.

(** The digits of a decimal literal; single underscores may separate
    digits. *)
Fixpoint digits (acc : Z) (after_digit : bool) (s : string) : option Z :=
  match s with
  | EmptyString => if after_digit then Some acc else None
  | String c r =>
      if is_digit c then
        digits (acc * 10 + Z.of_nat (nat_of_ascii c - 48)) true r
      else if Ascii.eqb c "_"%char && after_digit then digits acc false r
      else None
  end.

Definition int_of_str (s : string) : option Z :=
  match Str.strip s with
  | String "-" r => option_map Z.opp (digits 0 false r)
  | String "+" r => digits 0 false r
  | r => digits 0 false r
  end.

(** [int(v)] *)
Definition int (v : value) : res Z :=
  match v with
  | VInt n => Ret n
  | VBool b => Ret (if b then 1 else 0)
  | VStr s => match int_of_str s with Some n => Ret n | None => Raise ValueError end
  | _ => Raise TypeError
  end.

End Py.

(** [s.split(",")] *)
Fixpoint split_comma (s : string) : list string :=
  match s with
  | EmptyString => [EmptyString]
  | String c r =>
      if Ascii.eqb c ","%char then EmptyString :: split_comma r
      else match split_comma r with
           | [] => [String c EmptyString]
           | w :: ws => String c w :: ws
           end
  end.

Definition Qlt_bool (x y : Q) : bool := negb (Qle_bool y x).

(** An optional string is true in a condition when it is a non-empty
    string. *)
Definition present (a : option string) : bool :=
  match a with
  | Some s => Str.nonempty s
  | None => false
  end.

Definition opt_str (a : option string) : value :=
  match a with
  | Some s => VStr s
  | None => VNone
  end.

(* ================================================================== *)
(** ** [pbcs_copilot_mcp_real.py] *)
(* ================================================================== *)

Module Copilot.

Record Config : Type := {
  base_url : string;
  application : string;
  api_version : string;
  verify_ssl : bool;
  auth_mode : string;
  username : option string;
  password : option string;
  idcs_token_url : option string;
  oauth_client_id : option string;
  oauth_client_secret : option string;
  oauth_scope : option string;
  client_api_key : option string;
  allowlist_jobs : option string
}.

Definition load_config (W : world) : res Config :=
  let base_url := Str.rstrip_slash (getenv_or_empty W "PBCS_BASE_URL") in
  let application := getenv_or_empty W "PBCS_APPLICATION" in
  let api_version := or_str (getenv W "PBCS_API_VERSION") "v3" in
  let verify_ssl := _env_bool W "PBCS_VERIFY_SSL" true in
  let auth_mode := Str.lower (Str.strip (or_str (getenv W "PBCS_AUTH_MODE") "basic")) in
  let username := getenv W "PBCS_USERNAME" in
  let password := getenv W "PBCS_PASSWORD" in
  let idcs_token_url := getenv W "PBCS_IDCS_TOKEN_URL" in
  let oauth_client_id := getenv W "PBCS_OAUTH_CLIENT_ID" in
  let oauth_client_secret := getenv W "PBCS_OAUTH_CLIENT_SECRET" in
  let oauth_scope := getenv W "PBCS_OAUTH_SCOPE" in
  let client_api_key := getenv W "MCP_CLIENT_API_KEY" in
  let allowlist_jobs := getenv W "PBCS_ALLOWLIST_JOBS" in
  let need (ok : bool) (name : string) : list string :=
    if ok then [] else [name] in
  let missing := need (Str.nonempty base_url) "PBCS_BASE_URL"
                 ++ need (Str.nonempty application) "PBCS_APPLICATION" in
  if negb (String.eqb auth_mode "basic" || String.eqb auth_mode "oauth2") then
    Raise (RuntimeError "PBCS_AUTH_MODE must be 'basic' or 'oauth2'")
  else
    let missing :=
      if String.eqb auth_mode "basic" then
        missing ++ need (present username) "PBCS_USERNAME"
                ++ need (present password) "PBCS_PASSWORD"
      else
        missing ++ need (present idcs_token_url) "PBCS_IDCS_TOKEN_URL"
                ++ need (present oauth_client_id) "PBCS_OAUTH_CLIENT_ID"
                ++ need (present oauth_client_secret) "PBCS_OAUTH_CLIENT_SECRET" in
    match missing with
    | _ :: _ => Raise (missing_error missing)
    | [] =>
        Ret {| base_url := base_url;
               application := application;
               api_version := api_version;
               verify_ssl := verify_ssl;
               auth_mode := auth_mode;
               username := username;
               password := password;
               idcs_token_url := idcs_token_url;
               oauth_client_id := oauth_client_id;
               oauth_client_secret := oauth_client_secret;
               oauth_scope := oauth_scope;
               client_api_key := client_api_key;
               allowlist_jobs := allowlist_jobs |}
    end.

(** [enforce_client_key]: [None] lets the call through. *)
Definition enforce_client_key (cfg : Config) (key : option string)
  : option value :=
  if present (client_api_key cfg)
     && negb (match key, client_api_key cfg with
              | Some a, Some b => String.eqb a b
              | None, None => true
              | _, _ => false
              end)
  then Some (VDict [("ok", VBool false); ("error", VStr "UNAUTHORIZED_CLIENT");
                    ("message", VStr "Invalid MCP client API key.")])
  else None.

Definition allowlist_check (cfg : Config) (job_type job_name : string)
  : option value :=
  if negb (present (allowlist_jobs cfg)) then None
  else
    let allowed :=
      map Str.strip
        (filter (fun x => Str.nonempty (Str.strip x))
           (split_comma (or_str (allowlist_jobs cfg) EmptyString))) in
    let key := (job_type ++ ":" ++ job_name)%string in
    if negb (existsb (String.eqb key) allowed) then
      Some (VDict [("ok", VBool false); ("error", VStr "JOB_NOT_ALLOWED");
                   ("message", VStr ("Job not allowlisted: " ++ key))])
    else None.

(** *** The token cache *)

Record TokenCache : Type := {
  token : value;
  expires_at : Q
}.

(** [TokenCache()]: [token = None], [expires_at = 0.0]. *)
Definition empty_cache : TokenCache := {| token := VNone; expires_at := 0 |}.

(** The state of the process: the trace and the global [_TOKEN_CACHE]. *)
Record state : Type := {
  log : trace;
  cache : TokenCache
}.

Definition on_log {A : Type} (m : M trace A) : M state A :=
  fun s =>
    let (r, tr) := m (log s) in (r, {| log := tr; cache := cache s |}).

Definition read_cache : M state TokenCache := fun s => (Ret (cache s), s).

Definition write_cache (c : TokenCache) : M state unit :=
  fun s => (Ret tt, {| log := log s; cache := c |}).

(** [TokenCache.get].  Clock readings and the expiry are rationals and
    [now < expires_at - 30] is tested exactly; the interpreter subtracts
    and compares binary64 floats, so at a boundary that rounding moves
    the two can differ. *)
Definition TokenCache_get (W : world) : M state value :=
  c <- read_cache ;;
  if truthy (token c) then
    now <- on_log (time_time W) ;;
    if Qlt_bool now (expires_at c - 30) then ret (token c) else ret VNone
  else ret VNone.

(** [TokenCache.set]: two assignments, the second after reading the
    clock.  The sum [time.time() + max(0, expires_in)] is taken exactly;
    the interpreter converts the integer to a binary64 float and rounds
    the sum, and the conversion raises [OverflowError] for an integer
    beyond the range of a float (about [2^1024]), after the first
    assignment: lifetimes of that size are outside this model. *)
Definition TokenCache_set (W : world) (tok : value) (expires_in : Z)
  : M state unit :=
  c <- read_cache ;;
  write_cache {| token := tok; expires_at := expires_at c |} ;;;
  now <- on_log (time_time W) ;;
  write_cache {| token := tok;
                 expires_at := now + inject_Z (Z.max 0 expires_in) |}.

Definition token_request (cfg : Config) : request :=
  {| rq_method := "POST";
     rq_url := idcs_token_url cfg;
     rq_headers := [];
     rq_bearer := None;
     rq_params := None;
     rq_data :=
       Some (VDict ([("grant_type", VStr "client_credentials")]
                    ++ (if present (oauth_scope cfg)
                        then [("scope", opt_str (oauth_scope cfg))] else [])));
     rq_auth := Some (oauth_client_id cfg, oauth_client_secret cfg);
     rq_timeout := 30;
     rq_verify := verify_ssl cfg |}.

(** [payload.get("expires_in", 3600)] *)
Definition dget_default (v : value) (k : string) (d : value) : res value :=
  match v with
  | VDict kv => Ret (match lookup k kv with Some x => x | None => d end)
  | _ => Raise AttributeError
  end.

Definition get_oauth_token (W : world) (cfg : Config) : M state (bool * value) :=
  cached <- TokenCache_get W ;;
  if truthy cached then
    ret (true, VDict [("access_token", cached); ("cached", VBool true)])
  else
    r <- on_log (send W (token_request cfg)) ;;
    match r with
    | Failed msg =>
        ret (false, VDict [("error", VStr "OAUTH_NETWORK_ERROR");
                           ("message", VStr msg)])
    | Response resp =>
        let payload :=
          match resp_json resp with
          | Some j => j
          | None => VDict [("raw_text", VStr (resp_text resp))]
          end in
        if 300 <=? resp_status_code resp then
          ret (false, VDict [("error", VStr "OAUTH_HTTP_ERROR");
                             ("status_code", VInt (resp_status_code resp));
                             ("response", payload)])
        else
          tok <- lift (dget payload "access_token") ;;
          expires_in <- lift (dget_default payload "expires_in" (VInt 3600)) ;;
          if negb (truthy tok) then
            ret (false, VDict [("error", VStr "OAUTH_BAD_RESPONSE");
                               ("response", payload)])
          else
            n <- lift (Py.int expires_in) ;;
            TokenCache_set W tok n ;;;
            ret (true, VDict [("access_token", tok); ("cached", VBool false)])
    end.

(** *** REST calls *)

(** [{"ok": False, **d}] *)
Definition not_ok_with (d : value) : value :=
  match d with
  | VDict kv =>
      VDict (fold_left (fun acc item => dict_set (fst item) (snd item) acc)
               kv [("ok", VBool false)])
  | _ => VDict [("ok", VBool false)]
  end.

Definition rest_request (cfg : Config) (method url : string)
  (bearer : option value) (params : option (list (string * value)))
  (json_body : option value) (timeout_s : Z) : request :=
  {| rq_method := Str.upper method;
     rq_url := Some url;
     rq_headers := [("Accept", "application/json");
                    ("Content-Type", "application/json")];
     rq_bearer := bearer;
     rq_params := params;
     rq_data := json_body;
     rq_auth := if String.eqb (auth_mode cfg) "basic"
                then Some (username cfg, password cfg) else None;
     rq_timeout := timeout_s;
     rq_verify := verify_ssl cfg |}.

Definition pbcs_request (W : world) (cfg : Config) (method path : string)
  (params : option (list (string * value))) (json_body : option value)
  (timeout_s : Z) : M state value :=
  let url := (base_url cfg ++ path)%string in
  let call (bearer : option value) : M state value :=
    r <- on_log (send W (rest_request cfg method url bearer params json_body timeout_s)) ;;
    match r with
    | Failed msg =>
        ret (VDict [("ok", VBool false); ("error", VStr "NETWORK_ERROR");
                    ("message", VStr msg)])
    | Response r =>
        let payload := payload_of r in
        if 300 <=? resp_status_code r then
          message <- lift (error_message payload r) ;;
          ret (VDict [("ok", VBool false); ("error", VStr "HTTP_ERROR");
                      ("status_code", VInt (resp_status_code r));
                      ("message", message);
                      ("response", redact payload)])
        else
          ret (VDict [("ok", VBool true);
                      ("status_code", VInt (resp_status_code r));
                      ("response", redact payload)])
    end in
  if String.eqb (auth_mode cfg) "basic" then call None
  else
    okt <- get_oauth_token W cfg ;;
    let (ok, tok) := (okt : bool * value) in
    if negb ok then ret (not_ok_with (redact tok))
    else call (Some (get tok "access_token")).

Definition jobs_path (v app : string) : string :=
  "/HyperionPlanning/rest/" ++ v ++ "/applications/" ++ app ++ "/jobs".

Definition JOB_ID_KEYS : list string := ["jobId"; "jobID"; "id"; "jobIdentifier"].
Definition STATUS_KEYS : list string := ["status"; "descriptiveStatus"; "state"].

Definition planning_execute_job (W : world) (job_type job_name : string)
  (parameters : value) (application api_version client_api_key : option string)
  : M state value :=
  cfg <- lift (load_config W) ;;
  match enforce_client_key cfg client_api_key with
  | Some deny => ret deny
  | None =>
  match allowlist_check cfg job_type job_name with
  | Some guard => ret guard
  | None =>
      let app := or_str application (Copilot.application cfg) in
      let v := or_str api_version (Copilot.api_version cfg) in
      let body := [("jobType", VStr job_type); ("jobName", VStr job_name)]
                  ++ (if truthy parameters then [("parameters", parameters)] else []) in
      res <- pbcs_request W cfg "POST" (jobs_path v app) None (Some (VDict body)) 60 ;;
      if negb (truthy (get res "ok")) then ret res
      else
        let p := get res "response" in
        job_id <- lift (first_of p JOB_ID_KEYS) ;;
        status <- lift (first_of p STATUS_KEYS) ;;
        ret (VDict [("ok", VBool true); ("jobId", job_id);
                    ("status", status); ("raw", p)])
  end
  end.

Definition planning_get_job_status (W : world) (job_id : value)
  (application api_version client_api_key : option string) : M state value :=
  cfg <- lift (load_config W) ;;
  match enforce_client_key cfg client_api_key with
  | Some deny => ret deny
  | None =>
      let app := or_str application (Copilot.application cfg) in
      let v := or_str api_version (Copilot.api_version cfg) in
      res <- pbcs_request W cfg "GET"
               (jobs_path v app ++ "/" ++ Py.str job_id)%string None None 60 ;;
      if negb (truthy (get res "ok")) then ret res
      else
        let p := get res "response" in
        status <- lift (first_of p STATUS_KEYS) ;;
        percentComplete <- lift (first_of p ["percentComplete"; "progress"]) ;;
        startTime <- lift (first_of p ["startTime"; "startedAt"]) ;;
        endTime <- lift (first_of p ["endTime"; "endedAt"]) ;;
        ret (VDict [("ok", VBool true);
                    ("jobId", job_id);
                    ("status", status);
                    ("percentComplete", percentComplete);
                    ("startTime", startTime);
                    ("endTime", endTime);
                    ("raw", p)])
  end.

Definition compact_item (it : value) : res value :=
  rbind (dget it "severity") (fun severity =>
  rbind (dget it "type") (fun type =>
  rbind (dget it "row") (fun row =>
  rbind (first_of it ["message"; "details"; "text"]) (fun message =>
  Ret (VDict [("severity", severity); ("type", type);
              ("row", row); ("message", message)]))))).

Definition details_params (offset limit : Z) : list (string * value) :=
  [("offset", VInt offset); ("limit", VInt limit)].

Definition planning_get_job_details (W : world) (job_id : value)
  (offset limit : Z) (application api_version client_api_key : option string)
  : M state value :=
  cfg <- lift (load_config W) ;;
  match enforce_client_key cfg client_api_key with
  | Some deny => ret deny
  | None =>
      let app := or_str application (Copilot.application cfg) in
      let v := or_str api_version (Copilot.api_version cfg) in
      res <- pbcs_request W cfg "GET"
               (jobs_path v app ++ "/" ++ Py.str job_id ++ "/details")%string
               (Some (details_params offset limit)) None 60 ;;
      if negb (truthy (get res "ok")) then ret res
      else
        let p := get res "response" in
        found <- lift (first_of p ["items"; "details"; "messages"]) ;;
        items <- lift (iterate (py_or found (VList []))) ;;
        compact <- lift (map_res compact_item items) ;;
        ret (VDict [("ok", VBool true);
                    ("jobId", job_id);
                    ("offset", VInt offset);
                    ("limit", VInt limit);
                    ("count", VInt (Z.of_nat (length compact)));
                    ("items", VList compact)])
  end.

Definition NO_JOB_ID (exec_res : value) : value :=
  VDict [("ok", VBool false); ("error", VStr "NO_JOB_ID");
         ("message", VStr "Execute did not return jobId"); ("raw", exec_res)].

Definition POLL_FAILED (job_id st : value) : value :=
  VDict [("ok", VBool false); ("error", VStr "POLL_FAILED");
         ("jobId", job_id); ("status_call", st)].

Definition TIMEOUT (job_id : value) (timeout_seconds : Z)
  (last_status : value) (polls : list value) : value :=
  VDict [("ok", VBool false); ("error", VStr "TIMEOUT");
         ("message", VStr ("Job did not complete within "
                           ++ Str.of_Z timeout_seconds ++ "s"));
         ("jobId", job_id);
         ("lastStatus", last_status);
         ("polls", VList polls)].

(** The [while True] loop of [planning_run_job_and_wait]; [fuel] bounds
    the number of iterations, and [None] means that it ran out. *)
Fixpoint wait_loop (W : world) (fuel : nat) (job_id : value)
  (poll_interval_seconds timeout_seconds : Z)
  (application api_version client_api_key : option string)
  (start : Q) (polls : list value) : M state (option loop_end) :=
  match fuel with
  | O => ret None
  | S fuel' =>
      st <- planning_get_job_status W job_id application api_version client_api_key ;;
      if negb (truthy (get st "ok")) then
        ret (Some (Returned (POLL_FAILED job_id st)))
      else
        t <- on_log (time_time W) ;;
        let polls := polls ++ [poll_record t st] in
        done <- lift (terminal (get st "status")) ;;
        if (done : bool) then ret (Some (Broke polls st))
        else
          now <- on_log (time_time W) ;;
          if timed_out now start timeout_seconds then
            ret (Some (Returned (TIMEOUT job_id timeout_seconds st polls)))
          else
            on_log (time_sleep (Z.max 1 poll_interval_seconds)) ;;;
            wait_loop W fuel' job_id poll_interval_seconds timeout_seconds
              application api_version client_api_key start polls
  end.

(** [(x.get("severity") or "").upper()] of a compacted item. *)
Definition severity_upper (x : value) : res string :=
  match py_or (get x "severity") (VStr EmptyString) with
  | VStr s => Ret (Str.upper s)
  | _ => Raise AttributeError
  end.

(** [[x for x in items if keep(severity of x)]] *)
Fixpoint select (keep : string -> bool) (items : list value) : res (list value) :=
  match items with
  | [] => Ret []
  | x :: r =>
      rbind (severity_upper x) (fun s =>
      rbind (select keep r) (fun xs =>
      Ret (if keep s then x :: xs else xs)))
  end.

Definition run_report (job_id : value) (job_type job_name : string)
  (polls : list value) (exec_res last_status details : value)
  (items errors warns : list value) : value :=
  VDict [("ok", VBool true);
         ("job", VDict [("jobId", job_id);
                        ("jobType", VStr job_type);
                        ("jobName", VStr job_name);
                        ("finalStatus", get (py_or last_status (VDict [])) "status");
                        ("pollCount", VInt (Z.of_nat (length polls)));
                        ("polls", VList polls)]);
         ("summary", VDict [("errors", VList (firstn 25 errors));
                            ("warnings", VList (firstn 25 warns));
                            ("detailsSample", VList (firstn 25 items))]);
         ("raw", VDict [("execute", exec_res);
                        ("finalStatus", last_status);
                        ("details", details)])].

(** [details.get("items") if details.get("ok") else []] *)
Definition items_of (details : value) : list value :=
  if truthy (get details "ok") then
    match get details "items" with
    | VList xs => xs
    | _ => []
    end
  else [].

Definition planning_run_job_and_wait (W : world) (fuel : nat)
  (job_type job_name : string) (parameters : value)
  (poll_interval_seconds timeout_seconds : Z)
  (application api_version : option string)
  (details_offset details_limit : Z) (client_api_key : option string)
  : M state (option value) :=
  exec_res <- planning_execute_job W job_type job_name parameters
                application api_version client_api_key ;;
  if negb (truthy (get exec_res "ok")) then ret (Some exec_res)
  else
    let job_id := get exec_res "jobId" in
    if negb (truthy job_id) then ret (Some (NO_JOB_ID exec_res))
    else
      start <- on_log (time_time W) ;;
      e <- wait_loop W fuel job_id poll_interval_seconds timeout_seconds
             application api_version client_api_key start [] ;;
      match e with
      | None => ret None
      | Some (Returned result) => ret (Some result)
      | Some (Broke polls last_status) =>
          details <- planning_get_job_details W job_id details_offset
                       details_limit application api_version client_api_key ;;
          let items := items_of details in
          errors <- lift (select (String.eqb "ERROR") items) ;;
          warns <- lift (select (fun s => String.eqb s "WARN" || String.eqb s "WARNING") items) ;;
          ret (Some (run_report job_id job_type job_name polls exec_res
                       last_status details items errors warns))
      end.

Definition planning_discover_versions (W : world)
  (client_api_key : option string) : M state value :=
  cfg <- lift (load_config W) ;;
  match enforce_client_key cfg client_api_key with
  | Some deny => ret deny
  | None => pbcs_request W cfg "GET" "/HyperionPlanning/rest/" None None 60
  end.

(** One entry of the job definitions. *)
Definition job_definition (it : value) : res value :=
  rbind (first_of it ["jobType"; "type"]) (fun jobType =>
  rbind (first_of it ["jobName"; "name"]) (fun jobName =>
  rbind (dget it "description") (fun description =>
  Ret (VDict [("jobType", jobType); ("jobName", jobName);
              ("description", description)])))).

Definition planning_list_job_definitions (W : world)
  (application api_version client_api_key : option string) : M state value :=
  cfg <- lift (load_config W) ;;
  match enforce_client_key cfg client_api_key with
  | Some deny => ret deny
  | None =>
      let app := or_str application (Copilot.application cfg) in
      let v := or_str api_version (Copilot.api_version cfg) in
      res <- pbcs_request W cfg "GET"
               ("/HyperionPlanning/rest/" ++ v ++ "/applications/" ++ app
                ++ "/jobdefinitions")%string None None 60 ;;
      if negb (truthy (get res "ok")) then ret res
      else
        let payload := get res "response" in
        found <- lift (first_of payload ["items"; "jobDefinitions"]) ;;
        items <- lift (iterate (py_or found (VList []))) ;;
        compact <- lift (map_res job_definition items) ;;
        ret (VDict [("ok", VBool true);
                    ("count", VInt (Z.of_nat (length compact)));
                    ("jobDefinitions", VList compact)])
  end.

End Copilot.

(* ================================================================== *)
(** ** The tool-use loop: [epm_orchestrator_gui.py] and
       [orchestrator_claude_mcp_epm.py] *)
(* ================================================================== *)

Module Orchestrator.

(** A content block of a model response, as the SDK hands it over.  A
    block that is neither text nor a tool request carries what
    [model_dump()] returns ([None] when it raises) and the two strings
    of the fallback. *)
Inductive block : Type :=
| TextBlock (text : string)
| ToolUseBlock (id name : string) (input : value)
| OtherBlock (model_dump : option (list (string * value))) (type_str raw : string).

(** An exception object caught by [except Exception as e]. *)
Record exception : Type := {
  exc_str : string;    (* [str(e)] *)
  exc_repr : string    (* [repr(e)] *)
}.

(** The content of a tool result, as far as [_mcp_result_to_text] looks
    at it: an item of a list is of type ["text"], with [str] of its
    text, or something else. *)
Inductive content_item : Type :=
| TextItem (text : string)
| OtherItem.

Inductive tool_content : Type :=
| NoContent
| StrContent (s : string)
| ListContent (items : list content_item)
| OtherContent.

Record tool_result : Type := {
  content : tool_content;
  result_json : string;            (* [json.dumps({"result": str(res)})] *)
  content_json : option string;    (* [json.dumps(content)], [None] when it raises *)
  content_str : string             (* [str(content)] *)
}.

Inductive tool_reply : Type :=
| ToolRaises (e : exception)
| ToolReturns (r : tool_result).

Inductive completion_reply : Type :=
| CreateRaises (msg : string)
| Created (resp_content : list block).

Inductive call : Type :=
| EvCreate (messages : list value) (tools : option (list value))
| EvCallTool (name : string) (input : value).

(** The completion service and the tool channel, answering as a function
    of the calls made so far. *)
Record agent : Type := {
  completion : list call -> list value -> option (list value) -> completion_reply;
  tool : list call -> string -> value -> tool_reply
}.

(** The calls made so far and the [messages] list, which the loop
    extends in place. *)
Record session : Type := {
  calls : list call;
  messages : list value
}.

Definition value_is_text (v : value) : bool :=
  match v with
  | VStr s => String.eqb s "text"
  | _ => false
  end.

Definition all_strings (vs : list value) : option (list string) :=
  fold_right (fun v acc =>
                match v, acc with
                | VStr s, Some l => Some (s :: l)
                | _, _ => None
                end) (Some []) vs.

(** [_extract_text] on a list of block dicts. *)
Definition _extract_text (content : list value) : res string :=
  let parts := map (fun b => get b "text")
                 (filter (fun b => value_is_text (get b "type")) content) in
  match all_strings (filter truthy parts) with
  | Some ps => Ret (Str.strip (Str.join (String (ascii_of_nat 10) EmptyString) ps))
  | None => Raise TypeError
  end.

Definition block_to_dict (b : block) : value :=
  match b with
  | TextBlock text => VDict [("type", VStr "text"); ("text", VStr text)]
  | ToolUseBlock id name input =>
      VDict [("type", VStr "tool_use"); ("id", VStr id);
             ("name", VStr name); ("input", input)]
  | OtherBlock (Some d) _ _ => VDict d
  | OtherBlock None type_str raw =>
      VDict [("type", VStr type_str); ("raw", VStr raw)]
  end.

Definition _blocks_to_dicts (blocks : list block) : list value :=
  map block_to_dict blocks.

Definition _mcp_result_to_text (r : tool_result) : string :=
  match content r with
  | NoContent => result_json r
  | StrContent s => s
  | ListContent items =>
      let texts := flat_map (fun b => match b with
                                      | TextItem t => [t]
                                      | OtherItem => []
                                      end) items in
      let joined := Str.strip (Str.join (String (ascii_of_nat 10) EmptyString)
                                 (filter Str.nonempty texts)) in
      if Str.nonempty joined then joined
      else match content_json r with
           | Some j => j
           | None => content_str r
           end
  | OtherContent => content_str r
  end.

(** A tool request of a response: [tu.id], [tu.name], [tu.input]. *)
Record tool_use : Type := {
  tu_id : string;
  tu_name : string;
  tu_input : value
}.

(** [[b for b in resp.content if getattr(b, "type", None) == "tool_use"]] *)
Definition tool_uses_of (resp_content : list block) : list tool_use :=
  flat_map (fun b => match b with
                     | ToolUseBlock id name input =>
                         [{| tu_id := id; tu_name := name; tu_input := input |}]
                     | _ => []
                     end) resp_content.

Definition ok_result (tu : tool_use) (r : tool_result) : value :=
  VDict [("type", VStr "tool_result");
         ("tool_use_id", VStr (tu_id tu));
         ("content", VStr (_mcp_result_to_text r))].

Definition error_result (describe : exception -> string) (tu : tool_use)
  (e : exception) : value :=
  VDict [("type", VStr "tool_result");
         ("tool_use_id", VStr (tu_id tu));
         ("content", VStr ("Tool error: " ++ describe e));
         ("is_error", VBool true)].

(** [self.client.messages.create(..., messages=messages, tools=tools if
    tools else None)] *)
Definition create (A : agent) (tools : option (list value))
  : M session (list block) :=
  fun s =>
    let s' := {| calls := calls s ++ [EvCreate (messages s) tools];
                 messages := messages s |} in
    match completion A (calls s) (messages s) tools with
    | CreateRaises msg => (Raise (ApiError msg), s')
    | Created c => (Ret c, s')
    end.

Definition call_tool (A : agent) (name : string) (input : value)
  : M session tool_reply :=
  fun s =>
    (Ret (tool A (calls s) name input),
     {| calls := calls s ++ [EvCallTool name input]; messages := messages s |}).

(** [messages.append(m)] *)
Definition append_message (m : value) : M session unit :=
  fun s => (Ret tt, {| calls := calls s; messages := messages s ++ [m] |}).

Definition assistant_turn (blocks : list value) : value :=
  VDict [("role", VStr "assistant"); ("content", VList blocks)].

Definition user_turn (tool_results : list value) : value :=
  VDict [("role", VStr "user"); ("content", VList tool_results)].

(** The [for tu in tool_uses] loop with its [try]/[except Exception];
    [describe] is [repr] in the GUI and [str] on the command line. *)
Fixpoint dispatch (A : agent) (describe : exception -> string)
  (tool_uses : list tool_use) : M session (list value) :=
  match tool_uses with
  | [] => ret []
  | tu :: rest =>
      r <- call_tool A (tu_name tu) (tu_input tu) ;;
      let tool_result :=
        match r with
        | ToolReturns tool_res => ok_result tu tool_res
        | ToolRaises e => error_result describe tu e
        end in
      results <- dispatch A describe rest ;;
      ret (tool_result :: results)
  end.

(** A tool as the tool channel lists it; an attribute that is absent
    reads as [None]. *)
Record mcp_tool : Type := {
  t_name : string;
  t_description : value;
  t_inputSchema : value;
  t_input_schema : value
}.

(** The schema handed to the completion service for one tool, as
    [MCPThreadBridge.list_tools] and [main] build it. *)
Definition tool_schema (t : mcp_tool) : value :=
  let input_schema :=
    py_or (t_inputSchema t)
      (py_or (t_input_schema t)
         (VDict [("type", VStr "object"); ("properties", VDict [])])) in
  VDict [("name", VStr (t_name t));
         ("description", py_or (t_description t) (VStr EmptyString));
         ("input_schema", input_schema)].

(** [[schema(t) for t in tools]] *)
Definition tool_schemas (tools : list mcp_tool) : list value :=
  map tool_schema tools.

Module Gui.

(** [tools if tools else None] *)
Definition tools_arg (tools : list value) : option (list value) :=
  match tools with
  | [] => None
  | _ => Some tools
  end.

(** The [while True] loop of [ClaudeToolRunner.run]; [fuel] bounds the
    number of model turns, and [None] means that it ran out. *)
Fixpoint run_loop (A : agent) (fuel : nat) (tools : list value)
  (resp_content : list block) : M session (option string) :=
  match fuel with
  | O => ret None
  | S fuel' =>
      let assistant_blocks := _blocks_to_dicts resp_content in
      append_message (assistant_turn assistant_blocks) ;;;
      match tool_uses_of resp_content with
      | [] =>
          text <- lift (_extract_text assistant_blocks) ;;
          ret (Some (if Str.nonempty text then text else "(no text returned)"))
      | tool_uses =>
          tool_results <- dispatch A exc_repr tool_uses ;;
          append_message (user_turn tool_results) ;;;
          resp <- create A (tools_arg tools) ;;
          run_loop A fuel' tools resp
      end
  end.

Definition run (A : agent) (fuel : nat) (tools : list value)
  : M session (option string) :=
  resp <- create A (tools_arg tools) ;;
  run_loop A fuel tools resp.

End Gui.

Module Cli.

Definition extract_text : list value -> res string := _extract_text.
Definition blocks_to_dicts : list block -> list value := _blocks_to_dicts.
Definition mcp_result_to_text : tool_result -> string := _mcp_result_to_text.

(** The tool-use loop of [main] for one question; the result is the text
    printed after ["Claude> "] when the loop breaks. *)
Fixpoint tool_use_loop (A : agent) (fuel : nat) (anth_tools : list value)
  (resp_content : list block) : M session (option string) :=
  match fuel with
  | O => ret None
  | S fuel' =>
      let assistant_blocks := blocks_to_dicts resp_content in
      append_message (assistant_turn assistant_blocks) ;;;
      match tool_uses_of resp_content with
      | [] =>
          text <- lift (extract_text assistant_blocks) ;;
          ret (Some text)
      | tool_uses =>
          tool_results <- dispatch A exc_str tool_uses ;;
          append_message (user_turn tool_results) ;;;
          resp <- create A (Some anth_tools) ;;
          tool_use_loop A fuel' anth_tools resp
      end
  end.

(** One question of [main]: the user turn, the first model call, and
    the loop. *)
Definition ask (A : agent) (fuel : nat) (anth_tools : list value)
  (user_q : string) : M session (option string) :=
  append_message (VDict [("role", VStr "user"); ("content", VStr user_q)]) ;;;
  resp <- create A (Some anth_tools) ;;
  tool_use_loop A fuel anth_tools resp.

End Cli.

End Orchestrator.

(* ================================================================== *)
(** ** Vocabulary of the properties *)
(* ================================================================== *)

Definition is_marker (v : value) : bool :=
  match v with
  | VStr s => String.eqb s "***REDACTED***"
  | _ => false
  end.

(** Every dict item, at any depth, whose key is sensitive holds the
    marker. *)
Fixpoint masked (v : value) : bool :=
  match v with
  | VDict kv =>
      forallb (fun item : string * value =>
                 let (k, x) := item in
                 if sensitive k then is_marker x else masked x) kv
  | VList xs => forallb masked xs
  | _ => true
  end.

(** A sample document with secrets at two depths. *)
Definition redact_sample : value :=
  VDict [("user", VStr "amy");
         ("Password", VStr "hunter2");
         ("nested", VList [VDict [("CLIENT_SECRET", VInt 7); ("n", VInt 1)]])].

(** The requests recorded in a trace, in order. *)
Definition requests_of (tr : trace) : list request :=
  flat_map (fun ev => match ev with EvRequest rq => [rq] | _ => [] end) tr.

(** The number of [time.sleep] calls recorded in a trace. *)
Definition sleeps_of (tr : trace) : list Z :=
  flat_map (fun ev => match ev with EvSleep n => [n] | _ => [] end) tr.

(** *** Sample worlds and inputs for the executable checks *)

Definition sample_response (code : Z) (body : value) : response :=
  {| resp_status_code := code; resp_text := "{...}";
     resp_json := Some body; resp_reason := "reason" |}.

Definition no_env : string -> option string := fun _ => None.

Definition epm_env (name : string) : option string :=
  if String.eqb name "EPM_SERVICE_URL" then Some "https://epm.example.com/epmcloud"
  else if String.eqb name "EPM_USERNAME" then Some "amy"
  else if String.eqb name "EPM_PASSWORD" then Some "hunter2"
  else None.

(** A service that lives under [/epmcloud]: the first request is
    answered 404, every later one 200. *)
Definition world_epmcloud : world :=
  {| net := fun tr _ =>
              match tr with
              | [] => Response (sample_response 404 (VDict [("message", VStr "Not Found")]))
              | _ => Response (sample_response 200 (VDict [("items", VList [])]))
              end;
     clock := fun _ => 0%Q;
     getenv := epm_env |}.

(** A process started without any environment variable. *)
Definition world_unconfigured : world :=
  {| net := fun _ _ => Failed "unreachable";
     clock := fun _ => 0%Q;
     getenv := no_env |}.

Definition sample_dualbase_cfg : Dualbase.Config :=
  {| Dualbase.service_url := "https://epm.example.com/epmcloud";
     Dualbase.base_url := "https://epm.example.com";
     Dualbase.username := "amy";
     Dualbase.password := "hunter2";
     Dualbase.verify_ssl := true |}.

Definition sample_readonly_cfg : Readonly.Config :=
  {| Readonly.service_url := "https://epm.example.com/epmcloud";
     Readonly.username := "amy";
     Readonly.password := "hunter2";
     Readonly.verify_ssl := true |}.

(** A reply with a status of 300 or more whose body is JSON but not an
    object: the wrappers call [payload.get] on it. *)
Definition malformed_error_reply (r : reply) : Prop :=
  exists rp,
    r = Response rp
    /\ 300 <= resp_status_code rp
    /\ forall kv, payload_of rp <> VDict kv.

(** A service that answers every request with the status [code] and the
    JSON body [[]]. *)
Definition world_list_body (code : Z) : world :=
  {| net := fun _ _ =>
              Response {| resp_status_code := code; resp_text := "[]";
                          resp_json := Some (VList []); resp_reason := "error" |};
     clock := fun _ => 0%Q;
     getenv := epm_env |}.

(** The path of the status tool. *)
Definition status_tool_path (op job_id : string) : string :=
  "/interop/rest/v2/status/" ++ op ++ "/" ++ job_id.

(** "Is empty or contains "/" or ".."": the words of the claim about
    the operation. *)
Definition rejected_operation (op : string) : Prop :=
  op = EmptyString \/ Str.contains "/" op = true \/ Str.contains ".." op = true.

(** The terminal statuses, in upper case. *)
Definition TERMINAL : list string :=
  ["SUCCEEDED"; "FAILED"; "ERROR"; "CANCELED"; "CANCELLED"].

(** A status that is "case-insensitively one of" the terminal ones. *)
Definition terminal_status (status : value) : Prop :=
  exists s, status = VStr s /\ In (Str.upper s) TERMINAL.

Definition pbcs_env (name : string) : option string :=
  if String.eqb name "PBCS_BASE_URL" then Some "https://pbcs.example.com"
  else if String.eqb name "PBCS_APPLICATION" then Some "Vision"
  else if String.eqb name "PBCS_USERNAME" then Some "amy"
  else if String.eqb name "PBCS_PASSWORD" then Some "hunter2"
  else None.

(** A job that has already succeeded; the details endpoint answers 200
    with [details_body]. *)
Definition world_job_done (details_body : value) : world :=
  {| net := fun _ rq =>
              match rq_params rq with
              | None => Response (sample_response 200
                                    (VDict [("status", VStr "Succeeded");
                                            ("percentComplete", VInt 100)]))
              | Some _ => Response (sample_response 200 details_body)
              end;
     clock := fun tr => inject_Z (Z.of_nat (length tr));
     getenv := pbcs_env |}.

(** *** Vocabulary for the token cache and the job runner *)

(** What the token issuer's reply is asked for: the parsed body. *)
Definition token_payload (resp : response) : value :=
  match resp_json resp with
  | Some j => j
  | None => VDict [("raw_text", VStr (resp_text resp))]
  end.

(** The trace at the moment of the issuance request: the cache reads the
    clock only when it holds a token. *)
Definition log_at_request (s : Copilot.state) : trace :=
  if truthy (Copilot.token (Copilot.cache s))
  then Copilot.log s ++ [EvTime] else Copilot.log s.


Definition oauth_env (name : string) : option string :=
  if String.eqb name "PBCS_BASE_URL" then Some "https://pbcs.example.com"
  else if String.eqb name "PBCS_APPLICATION" then Some "Vision"
  else if String.eqb name "PBCS_AUTH_MODE" then Some "oauth2"
  else if String.eqb name "PBCS_IDCS_TOKEN_URL" then Some "https://idcs.example.com/oauth2/v1/token"
  else if String.eqb name "PBCS_OAUTH_CLIENT_ID" then Some "client"
  else if String.eqb name "PBCS_OAUTH_CLIENT_SECRET" then Some "s3cret"
  else None.

Definition sample_oauth_cfg : Copilot.Config :=
  {| Copilot.base_url := "https://pbcs.example.com";
     Copilot.application := "Vision";
     Copilot.api_version := "v3";
     Copilot.verify_ssl := true;
     Copilot.auth_mode := "oauth2";
     Copilot.username := None;
     Copilot.password := None;
     Copilot.idcs_token_url := Some "https://idcs.example.com/oauth2/v1/token";
     Copilot.oauth_client_id := Some "client";
     Copilot.oauth_client_secret := Some "s3cret";
     Copilot.oauth_scope := None;
     Copilot.client_api_key := None;
     Copilot.allowlist_jobs := None |}.

(** An issuer that answers every request with [body] and status [code];
    the clock shows 1000 seconds. *)
Definition world_issuer (code : Z) (body : value) : world :=
  {| net := fun _ _ => Response (sample_response code body);
     clock := fun _ => 1000%Q;
     getenv := oauth_env |}.

Definition fresh_state : Copilot.state :=
  {| Copilot.log := []; Copilot.cache := Copilot.empty_cache |}.

Definition cached_state (tok : string) (expires_at : Q) : Copilot.state :=
  {| Copilot.log := [];
     Copilot.cache := {| Copilot.token := VStr tok; Copilot.expires_at := expires_at |} |}.

Definition basic_env (name : string) : option string :=
  if String.eqb name "PBCS_BASE_URL" then Some "https://pbcs.example.com"
  else if String.eqb name "PBCS_APPLICATION" then Some "Vision"
  else if String.eqb name "PBCS_USERNAME" then Some "amy"
  else if String.eqb name "PBCS_PASSWORD" then Some "hunter2"
  else None.

(** A Planning service that accepts every job and answers the
    submission with [submit_body]; status polls report RUNNING. *)
Definition world_planning (submit_body : value) : world :=
  {| net := fun _ rq =>
              if String.eqb (rq_method rq) "POST"
              then Response (sample_response 200 submit_body)
              else Response (sample_response 200 (VDict [("status", VStr "RUNNING")]));
     clock := fun tr => inject_Z (Z.of_nat (length tr));
     getenv := basic_env |}.





(** *** Vocabulary for the tool-use loop *)

(** The tool calls that a batch of requests gives rise to, in order. *)
Definition tool_calls (tool_uses : list Orchestrator.tool_use) : list Orchestrator.call :=
  map (fun tu => Orchestrator.EvCallTool (Orchestrator.tu_name tu)
                   (Orchestrator.tu_input tu)) tool_uses.

(** A block is a tool result answering the request [tu]. *)
Definition answers (tu : Orchestrator.tool_use) (r : value) : Prop :=
  get r "type" = VStr "tool_result"
  /\ get r "tool_use_id" = VStr (Orchestrator.tu_id tu).





(** A tool channel on which [epm_list_backups] fails and every other
    tool answers "ok"; the model asks for two tools, then answers. *)
Definition sample_agent : Orchestrator.agent :=
  {| Orchestrator.completion := fun calls _ _ =>
       match calls with
       | [] => Orchestrator.Created
                 [Orchestrator.TextBlock "Let me check.";
                  Orchestrator.ToolUseBlock "tu_1" "epm_list_backups" (VDict []);
                  Orchestrator.ToolUseBlock "tu_2" "epm_list_files" (VDict [])]
       | _ => Orchestrator.Created [Orchestrator.TextBlock "Done."]
       end;
     Orchestrator.tool := fun _ name _ =>
       if String.eqb name "epm_list_backups"
       then Orchestrator.ToolRaises
              {| Orchestrator.exc_str := "timed out";
                 Orchestrator.exc_repr := "TimeoutError('timed out')" |}
       else Orchestrator.ToolReturns
              {| Orchestrator.content := Orchestrator.StrContent "ok";
                 Orchestrator.result_json := "{}";
                 Orchestrator.content_json := None;
                 Orchestrator.content_str := "ok" |} |}.


(** The result that the loop builds for the request [tu], when [before]
    are the calls made so far. *)
Definition result_of (A : Orchestrator.agent)
  (describe : Orchestrator.exception -> string)
  (before : list Orchestrator.call) (tu : Orchestrator.tool_use) : value :=
  match Orchestrator.tool A before (Orchestrator.tu_name tu) (Orchestrator.tu_input tu) with
  | Orchestrator.ToolReturns r => Orchestrator.ok_result tu r
  | Orchestrator.ToolRaises e => Orchestrator.error_result describe tu e
  end.

(* ================================================================== *)
(** ** Two threads in [get_oauth_token]

    [pbcs_copilot_mcp_real.py] takes no lock around [_TOKEN_CACHE].  To
    say what concurrent callers can observe, [get_oauth_token] is cut
    at the points where another thread can run: after the cache lookup,
    after the request is sent, and between the two assignments of
    [TokenCache.set].  A thread running alone through these steps
    computes exactly [Copilot.get_oauth_token] (lemma
    [thread_alone_refines]). *)
(* ================================================================== *)

Module Interleaving.
Import Copilot.

(** Where a thread stands inside [get_oauth_token]. *)
Inductive pc : Type :=
| AtStart
| Missed                               (* [cached] was [None] *)
| InFlight (r : reply)                 (* request sent; [r] is the answer on its way *)
| TokenWritten (tok : value) (n : Z)   (* in [set], after [self.token = token] *)
| Finished (result : res (bool * value)).

Definition step (W : world) (cfg : Config) (p : pc) (s : state) : pc * state :=
  match p with
  | AtStart =>
      match TokenCache_get W s with
      | (Ret cached, s') =>
          if truthy cached then
            (Finished (Ret (true, VDict [("access_token", cached);
                                         ("cached", VBool true)])), s')
          else (Missed, s')
      | (Raise e, s') => (Finished (Raise e), s')
      end
  | Missed =>
      match on_log (send W (token_request cfg)) s with
      | (Ret r, s') => (InFlight r, s')
      | (Raise e, s') => (Finished (Raise e), s')
      end
  | InFlight (Failed msg) =>
      (Finished (Ret (false, VDict [("error", VStr "OAUTH_NETWORK_ERROR");
                                    ("message", VStr msg)])), s)
  | InFlight (Response resp) =>
      let payload := token_payload resp in
      if 300 <=? resp_status_code resp then
        (Finished (Ret (false, VDict [("error", VStr "OAUTH_HTTP_ERROR");
                                      ("status_code", VInt (resp_status_code resp));
                                      ("response", payload)])), s)
      else
        match dget payload "access_token" with
        | Raise e => (Finished (Raise e), s)
        | Ret tok =>
            match dget_default payload "expires_in" (VInt 3600) with
            | Raise e => (Finished (Raise e), s)
            | Ret expires_in =>
                if negb (truthy tok) then
                  (Finished (Ret (false, VDict [("error", VStr "OAUTH_BAD_RESPONSE");
                                                ("response", payload)])), s)
                else
                  match Py.int expires_in with
                  | Raise e => (Finished (Raise e), s)
                  | Ret n =>
                      (TokenWritten tok n,
                       {| log := log s;
                          cache := {| token := tok;
                                      expires_at := expires_at (cache s) |} |})
                  end
            end
        end
  | TokenWritten tok n =>
      (Finished (Ret (true, VDict [("access_token", tok); ("cached", VBool false)])),
       {| log := log s ++ [EvTime];
          cache := {| token := token (cache s);
                      expires_at := clock W (log s) + inject_Z (Z.max 0 n) |} |})
  | Finished r => (Finished r, s)
  end.

(** A thread running alone for [n] steps. *)
Fixpoint alone (W : world) (cfg : Config) (n : nat) (p : pc) (s : state)
  : pc * state :=
  match n with
  | O => (p, s)
  | S n' => let (p', s') := step W cfg p s in alone W cfg n' p' s'
  end.

Inductive thread : Type := T1 | T2.

(** Two threads and the state they share. *)
Record system : Type := {
  pc1 : pc;
  pc2 : pc;
  shared : state
}.

Definition sched_step (W : world) (cfg : Config) (c : system) (t : thread)
  : system :=
  match t with
  | T1 => let (p, s) := step W cfg (pc1 c) (shared c) in
          {| pc1 := p; pc2 := pc2 c; shared := s |}
  | T2 => let (p, s) := step W cfg (pc2 c) (shared c) in
          {| pc1 := pc1 c; pc2 := p; shared := s |}
  end.

Definition run_schedule (W : world) (cfg : Config) (sched : list thread)
  (c : system) : system :=
  fold_left (sched_step W cfg) sched c.

Definition both_start (s : state) : system :=
  {| pc1 := AtStart; pc2 := AtStart; shared := s |}.

Definition in_flight (p : pc) : bool :=
  match p with InFlight _ => true | _ => false end.

End Interleaving.

(** An issuer that hands out ["T1"] for 100 seconds at the first request
    and ["T2"] for 3600 seconds at every later one; the clock counts the
    events so far. *)
Definition world_two_tokens : world :=
  {| net := fun tr _ =>
              match requests_of tr with
              | [] => Response (sample_response 200
                                  (VDict [("access_token", VStr "T1");
                                          ("expires_in", VInt 100)]))
              | _ => Response (sample_response 200
                                 (VDict [("access_token", VStr "T2");
                                         ("expires_in", VInt 3600)]))
              end;
     clock := fun tr => inject_Z (Z.of_nat (length tr));
     getenv := oauth_env |}.

(** *** Acquisitions one after the other *)

(** [n] calls of [get_oauth_token], each run to completion before the
    next: the results with the states they leave. *)
Fixpoint acquisitions (W : world) (cfg : Copilot.Config) (n : nat)
  (s : Copilot.state) : list (res (bool * value) * Copilot.state) :=
  match n with
  | O => []
  | S n' =>
      let rs := Copilot.get_oauth_token W cfg s in
      rs :: acquisitions W cfg n' (snd rs)
  end.

(** The token that a call obtained from the issuer, if it did. *)
Definition issued (r : res (bool * value)) : option value :=
  match r with
  | Ret (true, d) =>
      if truthy (get d "cached") then None else Some (get d "access_token")
  | _ => None
  end.

(** The state after a list of calls started in [s]. *)
Definition state_after (run : list (res (bool * value) * Copilot.state))
  (s : Copilot.state) : Copilot.state :=
  snd (last run (Raise TypeError, s)).

(* ================================================================== *)
(** ** Vocabulary of the further properties *)
(* ================================================================== *)

(** The string does not begin with white space. *)
Definition starts_clean (s : string) : bool :=
  match s with
  | EmptyString => true
  | String c _ => negb (Str.is_space c)
  end.

(** The string does not end with the character [c]. *)
Definition no_trailing (c : ascii) (s : string) : Prop :=
  forall t, s <> (t ++ String c EmptyString)%string.

(** Every character of the string satisfies [p]. *)
Fixpoint all_chars (p : ascii -> bool) (s : string) : bool :=
  match s with
  | EmptyString => true
  | String c r => p c && all_chars p r
  end.

(** The string is empty or ends with a character that is neither white
    space nor a slash. *)
Definition ends_clean (s : string) : Prop :=
  s = EmptyString
  \/ exists t c,
       s = (t ++ String c EmptyString)%string
       /\ Str.is_space c = false
       /\ Ascii.eqb "/" c = false.

(** An environment that sets the three variables of the interop
    servers. *)
Definition interop_env (service_url username password : string)
  (name : string) : option string :=
  if String.eqb name "EPM_SERVICE_URL" then Some service_url
  else if String.eqb name "EPM_USERNAME" then Some username
  else if String.eqb name "EPM_PASSWORD" then Some password
  else None.

Definition world_with_env (env : string -> option string) : world :=
  {| net := fun _ _ => Failed "unreachable";
     clock := fun _ => 0%Q;
     getenv := env |}.

(** The result of a call with a wrong client key. *)
Definition UNAUTHORIZED_CLIENT : value :=
  VDict [("ok", VBool false); ("error", VStr "UNAUTHORIZED_CLIENT");
         ("message", VStr "Invalid MCP client API key.")].

(** The job runner with basic authentication, a client key and an
    allowlist of two jobs. *)
Definition keyed_env (name : string) : option string :=
  if String.eqb name "MCP_CLIENT_API_KEY" then Some "k3y"
  else if String.eqb name "PBCS_ALLOWLIST_JOBS"
       then Some "RULES:RollupUSSales, REFRESH_CUBE:RefreshPlan1"
       else basic_env name.

(** The result for a job that is not on the allowlist. *)
Definition JOB_NOT_ALLOWED (key : string) : value :=
  VDict [("ok", VBool false); ("error", VStr "JOB_NOT_ALLOWED");
         ("message", VStr ("Job not allowlisted: " ++ key))].

(** Only the client key is set: the job runner is not configured. *)
Definition key_only_env (name : string) : option string :=
  if String.eqb name "MCP_CLIENT_API_KEY" then Some "k3y" else None.

(** What [planning_run_job_and_wait] gives when its submission gives
    [r] and it stops there. *)
Definition run_result (r : res value) : res (option value) :=
  match r with
  | Ret v => Ret (Some v)
  | Raise e => Raise e
  end.

(** Each of the six tools of the job runner, called from the state [s]
    with the client key [key], ends with [r] and leaves the state as it
    was. *)
Definition every_tool_answers (W : world) (key : option string)
  (s : Copilot.state) (r : res value) : Prop :=
  Copilot.planning_discover_versions W key s = (r, s)
  /\ (forall application api_version,
         Copilot.planning_list_job_definitions W application api_version key s
         = (r, s))
  /\ (forall job_type job_name parameters application api_version,
         Copilot.planning_execute_job W job_type job_name parameters application
           api_version key s
         = (r, s))
  /\ (forall job_id application api_version,
         Copilot.planning_get_job_status W job_id application api_version key s
         = (r, s))
  /\ (forall job_id offset limit application api_version,
         Copilot.planning_get_job_details W job_id offset limit application
           api_version key s
         = (r, s))
  /\ (forall fuel job_type job_name parameters poll timeout application
             api_version offset limit,
         Copilot.planning_run_job_and_wait W fuel job_type job_name parameters poll
           timeout application api_version offset limit key s
         = (run_result r, s)).

(** The string holds no comma. *)
Fixpoint no_comma (s : string) : bool :=
  match s with
  | EmptyString => true
  | String c r => negb (Ascii.eqb c ",") && no_comma r
  end.

(** Every result that the computation returns satisfies [Q]. *)
Definition returns {S A : Type} (Q : A -> Prop) (m : M S A) : Prop :=
  forall s a s', m s = (Ret a, s') -> Q a.

(** A result of an HTTP wrapper that has been screened: the response it
    carries is masked, an ok result is masked as a whole, and a result
    holds an unmasked sensitive key only if its [message] does. *)
Definition screened (r : value) : Prop :=
  masked (get r "response") = true
  /\ (truthy (get r "ok") = true -> masked r = true)
  /\ masked r = masked (get r "message").

(** An ok result holds no unmasked sensitive key. *)
Definition clean_when_ok (r : value) : Prop :=
  truthy (get r "ok") = true -> masked r = true.

Definition sample_observer_cfg : Observer.Config :=
  {| Observer.base_url := "https://pbcs.example.com";
     Observer.application := "Vision";
     Observer.api_version := "v3";
     Observer.username := "amy";
     Observer.password := "hunter2";
     Observer.verify_ssl := true |}.

(** A service that answers 401 and repeats the credentials it was given
    in the message of its error body. *)
Definition world_verbose_error : world :=
  {| net := fun _ _ =>
              Response (sample_response 401
                          (VDict [("message",
                                   VDict [("text", VStr "bad credentials");
                                          ("password", VStr "hunter2")]);
                                  ("password", VStr "hunter2")]));
     clock := fun _ => 0%Q;
     getenv := pbcs_env |}.

(** A Planning service that answers every request with a job document
    that carries secrets at two depths. *)
Definition world_chatty : world :=
  {| net := fun _ _ =>
              Response (sample_response 200
                          (VDict [("status", VStr "Succeeded");
                                  ("jobId", VStr "42");
                                  ("client_secret", VStr "s3cret");
                                  ("items",
                                   VList [VDict [("severity", VStr "Error");
                                                 ("message", VStr "row rejected");
                                                 ("password", VStr "hunter2")]])]));
     clock := fun tr => inject_Z (Z.of_nat (length tr));
     getenv := basic_env |}.

(** *** Vocabulary for what the servers send *)

(** The computation only appends to the trace, and what it appends
    satisfies [P]; [tr_of] reads the trace off the state. *)
Definition added_by {S A : Type} (tr_of : S -> trace) (P : trace -> Prop)
  (m : M S A) : Prop :=
  forall s r s', m s = (r, s') -> exists added, tr_of s' = tr_of s ++ added /\ P added.

(** Every request recorded in the trace satisfies [Q]. *)
Definition every_request (Q : request -> Prop) (added : trace) : Prop :=
  Forall (fun ev => match ev with EvRequest rq => Q rq | _ => True end) added.

(** A GET that carries no body and no bearer token. *)
Definition plain_get (rq : request) : Prop :=
  rq_method rq = "GET" /\ rq_data rq = None /\ rq_bearer rq = None.

(** A GET of the dual-base server: to a URL under the configured base
    URL, with the configured credentials. *)
Definition dualbase_get (W : world) (rq : request) : Prop :=
  exists cfg path params,
    Dualbase.load_config W = Ret cfg
    /\ rq = Dualbase.get_request (Dualbase.base_url cfg ++ path) cfg params 60.

Definition readonly_get (W : world) (rq : request) : Prop :=
  exists cfg path params,
    Readonly.load_config W = Ret cfg
    /\ rq = Readonly.get_request (Readonly.service_url cfg ++ path) cfg params 60.

Definition observer_get (W : world) (rq : request) : Prop :=
  exists cfg path params,
    Observer.load_config W = Ret cfg
    /\ rq = Observer.get_request (Observer.base_url cfg ++ path) cfg params 60.

(** The request carries a body that names a job type: it submits a
    job. *)
Definition posts_job (rq : request) : bool :=
  match rq_data rq with
  | Some (VDict kv) =>
      match lookup "jobType" kv with Some _ => true | None => false end
  | _ => false
  end.

(** The job submissions recorded in a trace. *)
Definition submissions (added : trace) : list request :=
  filter posts_job (requests_of added).

(** A request of the job runner that changes nothing: a token request,
    or a GET without a body under the base URL. *)
Definition copilot_read (W : world) (rq : request) : Prop :=
  exists cfg,
    Copilot.load_config W = Ret cfg
    /\ (rq = Copilot.token_request cfg
        \/ exists path bearer params,
             rq = Copilot.rest_request cfg "GET" (Copilot.base_url cfg ++ path)
                    bearer params None 60).

(** The request that submits the job [job_type:job_name]. *)
Definition copilot_submit (W : world) (job_type job_name : string)
  (rq : request) : Prop :=
  exists cfg path bearer more,
    Copilot.load_config W = Ret cfg
    /\ rq = Copilot.rest_request cfg "POST" (Copilot.base_url cfg ++ path) bearer None
              (Some (VDict ([("jobType", VStr job_type); ("jobName", VStr job_name)]
                            ++ more))) 60.

(** Reads, and at most one submission of the job. *)
Definition one_submission (W : world) (job_type job_name : string)
  (added : trace) : Prop :=
  every_request (fun rq => copilot_read W rq \/ copilot_submit W job_type job_name rq)
    added
  /\ (length (submissions added) <= 1)%nat.

(** A job that is reported running twice and succeeded at the third
    poll; the clock counts the seconds slept. *)
Definition world_slow_job : world :=
  {| net := fun tr rq =>
              match rq_params rq with
              | Some _ => Response (sample_response 200 (VDict [("items", VList [])]))
              | None =>
                  if (length (requests_of tr) <? 2)%nat
                  then Response (sample_response 200 (VDict [("status", VStr "RUNNING")]))
                  else Response (sample_response 200 (VDict [("status", VStr "Succeeded")]))
              end;
     clock := fun tr => inject_Z (fold_right Z.add 0 (sleeps_of tr));
     getenv := pbcs_env |}.

(** A job that never ends, on the same clock. *)
Definition world_running_job : world :=
  {| net := fun _ _ => Response (sample_response 200 (VDict [("status", VStr "RUNNING")]));
     clock := clock world_slow_job;
     getenv := pbcs_env |}.

(** The clock never runs backwards, and a sleep of [n] seconds takes at
    least [n] seconds. *)
Definition clock_advances (W : world) : Prop :=
  forall tr ev,
    (clock W tr + inject_Z (match ev with EvSleep n => n | _ => 0 end)
     <= clock W (tr ++ [ev]))%Q.

(** The trace records no sleep. *)
Definition no_sleep (added : trace) : Prop := sleeps_of added = [].

(** A Planning service that accepts every job and reports it running
    for ever; the clock counts the seconds slept. *)
Definition world_stuck_job : world :=
  {| net := net (world_planning (VDict [("jobId", VStr "42")]));
     clock := clock world_slow_job;
     getenv := basic_env |}.

(** *** Vocabulary for the conversation *)

(** The turns alternate between the user and the assistant, and the
    first is the user's. *)
Definition conversation (ms : list value) : Prop :=
  forall i m,
    nth_error ms i = Some m ->
    get m "role" = VStr (if Nat.even i then "user" else "assistant").

(** A completion request made on a history whose turns alternate and
    whose last turn is the user's. *)
Definition well_formed_call (c : Orchestrator.call) : Prop :=
  match c with
  | Orchestrator.EvCreate ms _ => conversation ms /\ Nat.odd (length ms) = true
  | Orchestrator.EvCallTool _ _ => True
  end.

(** A result of the watch holds an unmasked sensitive key only inside
    the message of the failed status call or of the failed details call
    that it carries. *)
Definition watch_leak (r : value) : Prop :=
  masked r
  = masked (get (get r "status_call") "message")
    && masked (get (get r "details") "message").

(* ================================================================== *)
(** * Properties *)
(* ================================================================== *)

(** ** Running a computation step by step *)

Lemma bind_ret_eq {S A B : Type} (m : M S A) (f : A -> M S B) s a s' :
  m s = (Ret a, s') -> bind m f s = f a s'.
Proof. unfold bind. now intros ->. Qed.

Lemma bind_raise_eq {S A B : Type} (m : M S A) (f : A -> M S B) s e s' :
  m s = (Raise e, s') -> bind m f s = (Raise e, s').
Proof. unfold bind. now intros ->. Qed.

Lemma bind_lift {S A B : Type} (r : res A) (f : A -> M S B) s :
  bind (lift r) f s = match r with Ret a => f a s | Raise e => (Raise e, s) end.
Proof. unfold bind, lift. now destruct r. Qed.

Lemma bind_ret {S A B : Type} (a : A) (f : A -> M S B) s :
  bind (ret a) f s = f a s.
Proof. reflexivity. Qed.

Lemma existsb_eqb_In (s : string) (l : list string) :
  existsb (String.eqb s) l = true <-> In s l.
Proof.
  rewrite existsb_exists. split.
  - intros [x [Hin E]]. apply String.eqb_eq in E. now subst.
  - intros Hin. exists s. split; [ exact Hin | apply String.eqb_refl ].
Qed.

Lemma terminal_of_status (status : value) :
  terminal_status status -> terminal status = Ret true.
Proof.
  intros [s [-> Hin]].
  destruct s as [ | c r ].
  - simpl in Hin. intuition discriminate.
  - apply existsb_eqb_In in Hin. unfold TERMINAL in Hin.
    unfold terminal, py_or. simpl truthy. cbv iota. now rewrite Hin.
Qed.

(** ** Redaction *)

Lemma sensitive_marker_fixed : redact REDACTED = REDACTED.
Proof. reflexivity. Qed.

Lemma redact_idempotent (x : value) : redact (redact x) = redact x.
Proof.
  induction x as [ | b | n | s | xs IH | kv IH ] using value_nested_ind;
    try reflexivity.
  - simpl. f_equal. rewrite map_map.
    induction IH as [ | y ys Hy _ IHys ]; simpl; [ reflexivity | ].
    now rewrite Hy, IHys.
  - simpl. f_equal. rewrite map_map.
    induction IH as [ | [k v] r Hv _ IHr ]; simpl; [ reflexivity | ].
    rewrite IHr. f_equal.
    destruct (sensitive k) eqn:Hk; simpl; rewrite Hk; [ reflexivity | ].
    simpl in Hv. now rewrite Hv.
Qed.

Lemma redact_masked (x : value) : masked (redact x) = true.
Proof.
  induction x as [ | b | n | s | xs IH | kv IH ] using value_nested_ind;
    try reflexivity.
  - simpl. rewrite forallb_forall. intros y Hy.
    apply in_map_iff in Hy. destruct Hy as [z [<- Hz]].
    rewrite Forall_forall in IH. now apply IH.
  - simpl. rewrite forallb_forall. intros [k y] Hy.
    apply in_map_iff in Hy. destruct Hy as [[k' z] [Heq Hz]].
    rewrite Forall_forall in IH. specialize (IH _ Hz). simpl in IH.
    destruct (sensitive k') eqn:Hk; inversion Heq; subst; rewrite Hk.
    + reflexivity.
    + exact IH.
Qed.

Lemma lookup_redact (k : string) (kv : list (string * value)) :
  lookup k
    (map (fun item : string * value =>
            let (k', v) := item in
            if sensitive k' then (k', REDACTED) else (k', redact v)) kv)
  = option_map (fun v => if sensitive k then REDACTED else redact v)
      (lookup k kv).
Proof.
  induction kv as [ | [k' v] r IH ]; simpl; [ reflexivity | ].
  destruct (sensitive k') eqn:Hk'; simpl;
    destruct (String.eqb k k') eqn:E; try exact IH;
    apply String.eqb_eq in E; subst; simpl; now rewrite Hk'.
Qed.

Lemma at_path_redact (p : list step) :
  open_path p = true ->
  forall x, at_path p (redact x) = option_map redact (at_path p x).
Proof.
  induction p as [ | [k | i] p IH ]; intros Hp x; [ reflexivity | | ].
  - simpl in Hp. apply andb_true_iff in Hp. destruct Hp as [Hk Hp].
    apply negb_true_iff in Hk.
    destruct x; try reflexivity. simpl.
    rewrite lookup_redact, Hk.
    destruct (lookup k kv); simpl; [ now apply IH | reflexivity ].
  - simpl in Hp. destruct x; try reflexivity. simpl.
    rewrite nth_error_map.
    destruct (nth_error xs i); simpl; [ now apply IH | reflexivity ].
Qed.

Lemma at_path_app (p q : list step) (x : value) :
  at_path (p ++ q) x =
  match at_path p x with
  | Some y => at_path q y
  | None => None
  end.
Proof.
  revert x. induction p as [ | [k | i] p IH ]; intros x; simpl; [ reflexivity | | ].
  - destruct x; try reflexivity. destruct (lookup k kv); [ apply IH | reflexivity ].
  - destruct x; try reflexivity. destruct (nth_error xs i); [ apply IH | reflexivity ].
Qed.

Lemma redact_outline (v : value) : outline (redact v) = outline v.
Proof.
  destruct v; try reflexivity; simpl.
  - now rewrite length_map.
  - do 2 f_equal. rewrite map_map. apply map_ext.
    intros [k x]. now destruct (sensitive k).
Qed.

Lemma redact_scalar (v : value) : is_scalar v = true -> redact v = v.
Proof. destruct v; simpl; intros H; try reflexivity; discriminate. Qed.

(** C4. [redact] replaces the value of every dict item whose lower-cased
    key is one of password, authorization, access_token, client_secret,
    secret, at any depth, by the marker; it keeps every other item in
    place (same keys, same list lengths, same scalars, the nested values
    redacted in turn); and redacting twice is redacting once. *)
Theorem redact_total_idempotent (x : value) :
  redact (redact x) = redact x
  /\ masked (redact x) = true
  /\ (forall p k v,
        open_path p = true -> sensitive k = true ->
        at_path (p ++ [Key k]) x = Some v ->
        at_path (p ++ [Key k]) (redact x) = Some REDACTED)
  /\ (forall p v,
        open_path p = true -> at_path p x = Some v ->
        at_path p (redact x) = Some (redact v)
        /\ outline (redact v) = outline v
        /\ (is_scalar v = true -> redact v = v))
  /\ (forall p,
        open_path p = true -> at_path p x = None ->
        at_path p (redact x) = None).
Proof.
  split; [ apply redact_idempotent | ].
  split; [ apply redact_masked | ].
  split; [ | split ].
  - intros p k v Hp Hk Hv.
    rewrite at_path_app in Hv |- *.
    rewrite (at_path_redact p Hp).
    destruct (at_path p x) as [y | ]; [ simpl | discriminate ].
    destruct y; try discriminate. simpl in Hv |- *.
    rewrite lookup_redact, Hk.
    destruct (lookup k kv); [ reflexivity | discriminate ].
  - intros p v Hp Hv. rewrite (at_path_redact p Hp), Hv.
    split; [ reflexivity | ].
    split; [ apply redact_outline | apply redact_scalar ].
  - intros p Hp Hv. now rewrite (at_path_redact p Hp), Hv.
Qed.

Lemma redact_total_idempotent_witness :
  at_path [Key "nested"; Idx 0%nat; Key "CLIENT_SECRET"] (redact redact_sample)
    = Some REDACTED
  /\ at_path [Key "nested"; Idx 0%nat; Key "n"] (redact redact_sample)
    = Some (VInt 1).
Proof.
  destruct (redact_total_idempotent redact_sample) as [_ [_ [Hmask [Hkeep _]]]].
  split.
  - exact (Hmask [Key "nested"; Idx 0%nat] "CLIENT_SECRET" (VInt 7)
             eq_refl eq_refl eq_refl).
  - exact (proj1 (Hkeep [Key "nested"; Idx 0%nat; Key "n"] (VInt 1)
                    eq_refl eq_refl)).
Defined.

(* ================================================================== *)
(** ** Dual-base resolution and the status tool
       ([epm_mcp_readonly_dualbase.py], [epm_mcp_readonly.py]) *)
(* ================================================================== *)

Module DualbaseFacts.
Import Dualbase.

(** Unfolds one [bind] whose first computation is known. *)
Ltac step_bind H := unfold bind at 1; rewrite H; cbv beta iota.

Lemma http_get_trace W url cfg params t tr r tr' :
  _http_get W url cfg params t tr = (r, tr') ->
  tr' = tr ++ [EvRequest (get_request url cfg params t)].
Proof.
  unfold _http_get, bind, send, ret, lift.
  destruct (net W tr _) as [msg | rp].
  - intros H; now inversion H.
  - destruct (300 <=? resp_status_code rp).
    + destruct (error_message _ rp); intros H; now inversion H.
    + intros H; now inversion H.
Qed.

(** What [_http_get] returns, by the reply of the server. *)
Lemma http_get_cases W url cfg params t tr r tr' :
  _http_get W url cfg params t tr = (Ret r, tr') ->
  get r "url" = VStr url
  /\ match net W tr (get_request url cfg params t) with
     | Failed _ =>
         truthy (get r "ok") = false /\ get r "status_code" = VNone
     | Response rp =>
         get r "status_code" = VInt (resp_status_code rp)
         /\ truthy (get r "ok") = negb (300 <=? resp_status_code rp)
     end.
Proof.
  unfold _http_get, bind, send, ret, lift.
  destruct (net W tr _) as [msg | rp].
  - intros H; inversion H; subst. repeat split.
  - destruct (300 <=? resp_status_code rp) eqn:E.
    + destruct (error_message _ rp); intros H; inversion H; subst.
      repeat split.
    + intros H; inversion H; subst. repeat split.
Qed.

Lemma eq_int_VInt n m : eq_int (VInt n) m = true <-> n = m.
Proof. simpl. apply Z.eqb_eq. Qed.

Lemma error_message_raises (payload : value) (rp : response) :
  (forall kv, payload <> VDict kv) <-> error_message payload rp = Raise AttributeError.
Proof.
  unfold error_message, dget. destruct payload as [ | | | | | kv ];
    try (split; [ reflexivity | intros _ kv; discriminate ]).
  split; [ intros H; now destruct (H kv) | ].
  destruct (truthy _); discriminate.
Qed.

Lemma error_message_cases (payload : value) (rp : response) :
  (exists m, error_message payload rp = Ret m)
  \/ error_message payload rp = Raise AttributeError.
Proof.
  unfold error_message, dget. destruct payload as [ | | | | | kv ]; try now right.
  left. destruct (truthy _); eexists; reflexivity.
Qed.

(** When [_http_get] raises and when it returns. *)
Lemma http_get_outcome W url cfg params t tr :
  (malformed_error_reply (net W tr (get_request url cfg params t)) ->
   _http_get W url cfg params t tr
   = (Raise AttributeError, tr ++ [EvRequest (get_request url cfg params t)]))
  /\ (~ malformed_error_reply (net W tr (get_request url cfg params t)) ->
      exists r,
        _http_get W url cfg params t tr
        = (Ret r, tr ++ [EvRequest (get_request url cfg params t)])).
Proof.
  unfold _http_get, bind, send, ret, lift. split.
  - intros (rp & -> & Hcode & Hbody). cbv zeta.
    apply Z.leb_le in Hcode. rewrite Hcode.
    now rewrite (proj1 (error_message_raises _ rp) Hbody).
  - intros Hwell. destruct (net W tr _) as [ msg | rp ]; [ eexists; reflexivity | ].
    cbv zeta. destruct (300 <=? resp_status_code rp) eqn:Hcode;
      [ | eexists; reflexivity ].
    destruct (error_message_cases (payload_of rp) rp) as [ (m & ->) | Hraise ];
      [ eexists; reflexivity | ].
    exfalso. apply Hwell. exists rp. split; [ reflexivity | ].
    split; [ now apply Z.leb_le | ].
    now apply (proj2 (error_message_raises _ rp)).
Qed.

(** X23.  Dual-base resolution on the replies that a GET can read.  A
    GET returns a result exactly when the reply is not an error reply
    (status 300 or more) with a JSON body that is not an object; on such
    a reply it raises [AttributeError].  Let the GET against the
    canonical base return [r1].  If [r1] is ok it is returned tagged
    [base_used = "base_url"] and only the canonical URL was requested.
    If [r1] failed with status code 404 (which happens exactly when the
    server answered 404), the same path and parameters are requested
    from the [/epmcloud] base; an ok answer [r2] is returned tagged
    [base_used = "epmcloud_context"], a failed one gives
    [{ok: false, attempts: [r1, r2]}].  Any other failure [r1] is
    returned as it is and only the canonical URL was requested.  When
    the first GET raises, so does the resolution, after that one
    request and without a retry; when the retry raises, so does the
    resolution, after the two requests. *)
Theorem dualbase_resolution W cfg interop_path params tr :
  let url1 := (base_url cfg ++ interop_path)%string in
  let url2 := (base_url cfg ++ "/epmcloud" ++ interop_path)%string in
  let rq1 := get_request url1 cfg params 60 in
  let rq2 := get_request url2 cfg params 60 in
  (forall r1 tr1,
      _http_get W url1 cfg params 60 tr = (Ret r1, tr1) ->
      tr1 = tr ++ [EvRequest rq1]
      /\ (truthy (get r1 "ok") = true <->
          exists rp, net W tr rq1 = Response rp /\ resp_status_code rp < 300)
      /\ (eq_int (get r1 "status_code") 404 = true <->
          exists rp, net W tr rq1 = Response rp /\ resp_status_code rp = 404)
      /\ (truthy (get r1 "ok") = true ->
          epm_get_dualbase W cfg interop_path params tr
          = (Ret (set_item r1 "base_used" (VStr "base_url")), tr ++ [EvRequest rq1]))
      /\ (truthy (get r1 "ok") = false ->
          eq_int (get r1 "status_code") 404 = false ->
          epm_get_dualbase W cfg interop_path params tr
          = (Ret r1, tr ++ [EvRequest rq1]))
      /\ (truthy (get r1 "ok") = false ->
          eq_int (get r1 "status_code") 404 = true ->
          (forall r2 tr2,
              _http_get W url2 cfg params 60 tr1 = (Ret r2, tr2) ->
              tr2 = tr ++ [EvRequest rq1; EvRequest rq2]
              /\ (truthy (get r2 "ok") = true ->
                  epm_get_dualbase W cfg interop_path params tr
                  = (Ret (set_item r2 "base_used" (VStr "epmcloud_context")), tr2))
              /\ (truthy (get r2 "ok") = false ->
                  epm_get_dualbase W cfg interop_path params tr
                  = (Ret (VDict [("ok", VBool false); ("attempts", VList [r1; r2])]),
                     tr2)))
          /\ (forall e tr2,
                 _http_get W url2 cfg params 60 tr1 = (Raise e, tr2) ->
                 epm_get_dualbase W cfg interop_path params tr
                 = (Raise e, tr ++ [EvRequest rq1; EvRequest rq2]))))
  /\ (forall e tr1,
        _http_get W url1 cfg params 60 tr = (Raise e, tr1) ->
        epm_get_dualbase W cfg interop_path params tr
        = (Raise e, tr ++ [EvRequest rq1]))
  /\ (forall url tr0,
        (malformed_error_reply (net W tr0 (get_request url cfg params 60)) ->
         _http_get W url cfg params 60 tr0
         = (Raise AttributeError, tr0 ++ [EvRequest (get_request url cfg params 60)]))
        /\ (~ malformed_error_reply (net W tr0 (get_request url cfg params 60)) ->
            exists r,
              _http_get W url cfg params 60 tr0
              = (Ret r, tr0 ++ [EvRequest (get_request url cfg params 60)]))).
Proof.
  intros url1 url2 rq1 rq2. split; [ | split ].
  - intros r1 tr1 H1.
    pose proof (http_get_trace _ _ _ _ _ _ _ _ H1) as Ht1.
    pose proof (http_get_cases _ _ _ _ _ _ _ _ H1) as [_ Hc].
    fold rq1 in Ht1, Hc. fold url1 in H1.
    split; [ exact Ht1 | ]. split; [ | split; [ | split; [ | split ] ] ].
    + destruct (net W tr rq1) as [msg | rp].
      * destruct Hc as [Hk _]. rewrite Hk.
        split; [ discriminate | intros [rp [Hrp _]]; discriminate ].
      * destruct Hc as [_ Hk]. rewrite Hk, negb_true_iff, Z.leb_gt.
        split; [ intros E; now exists rp | ].
        intros [rp' [Hrp E]]. now inversion Hrp; subst.
    + destruct (net W tr rq1) as [msg | rp].
      * destruct Hc as [_ Hs]. rewrite Hs. simpl.
        split; [ discriminate | intros [rp [Hrp _]]; discriminate ].
      * destruct Hc as [Hs _]. rewrite Hs, eq_int_VInt.
        split; [ intros E; now exists rp | ].
        intros [rp' [Hrp E]]. now inversion Hrp; subst.
    + intros Hok. unfold epm_get_dualbase. fold url1.
      step_bind H1. rewrite Hok. unfold ret. now rewrite Ht1.
    + intros Hok H404. unfold epm_get_dualbase. fold url1.
      step_bind H1. rewrite Hok, H404. unfold ret. now rewrite Ht1.
    + intros Hok H404. split.
      * intros r2 tr2 H2.
        pose proof (http_get_trace _ _ _ _ _ _ _ _ H2) as Ht2.
        fold rq2 in Ht2. fold url2 in H2.
        assert (Etr : tr2 = tr ++ [EvRequest rq1; EvRequest rq2]).
        { rewrite Ht2, Ht1, <- app_assoc. reflexivity. }
        split; [ exact Etr | ].
        split; intros Hok2; unfold epm_get_dualbase; fold url1 url2;
          step_bind H1; rewrite Hok, H404;
          step_bind H2; rewrite Hok2; reflexivity.
      * intros e tr2 H2.
        pose proof (http_get_trace _ _ _ _ _ _ _ _ H2) as Ht2.
        fold rq2 in Ht2. fold url2 in H2.
        unfold epm_get_dualbase. fold url1 url2.
        step_bind H1. rewrite Hok, H404. step_bind H2.
        rewrite Ht2, Ht1, <- app_assoc. reflexivity.
  - intros e tr1 H1.
    pose proof (http_get_trace _ _ _ _ _ _ _ _ H1) as Ht1.
    unfold epm_get_dualbase. fold url1. step_bind H1. now rewrite Ht1.
  - intros url tr0. apply http_get_outcome.
Qed.

Lemma dualbase_resolution_witness :
  exists r2 tr2,
    epm_get_dualbase world_epmcloud sample_dualbase_cfg
      "/interop/rest/v2/files/list" None []
    = (Ret (set_item r2 "base_used" (VStr "epmcloud_context")), tr2)
    /\ map rq_url (requests_of tr2)
       = [Some "https://epm.example.com/interop/rest/v2/files/list";
          Some "https://epm.example.com/epmcloud/interop/rest/v2/files/list"].
Proof.
  pose proof (proj1 (dualbase_resolution world_epmcloud sample_dualbase_cfg
                       "/interop/rest/v2/files/list" None [])) as H.
  cbv zeta in H.
  edestruct H as (_ & _ & _ & _ & _ & H404); [ reflexivity | ].
  destruct (H404 eq_refl eq_refl) as (Hret & _).
  edestruct Hret as (Htr & Hok & _); [ reflexivity | ].
  eexists. eexists. split; [ apply Hok; reflexivity | reflexivity ].
Defined.

(** C3.  The canonical base answers 404, and 500, with the JSON body
    [[]].  [epm_get_dualbase] is documented to try the [/epmcloud] base
    on a 404 and to return the first response on any other error; here
    the 404 is not retried and the 500 is not returned: [payload.get]
    in [_http_get] raises [AttributeError] after the one request. *)
Lemma list_error_body_raises :
  let path := "/interop/rest/v2/files/list" in
  let rq1 := get_request "https://epm.example.com/interop/rest/v2/files/list"
               sample_dualbase_cfg None 60 in
  (exists rp, net (world_list_body 404) [] rq1 = Response rp
              /\ resp_status_code rp = 404)
  /\ epm_get_dualbase (world_list_body 404) sample_dualbase_cfg path None []
     = (Raise AttributeError, [EvRequest rq1])
  /\ (exists rp, net (world_list_body 500) [] rq1 = Response rp
                 /\ resp_status_code rp = 500)
  /\ epm_get_dualbase (world_list_body 500) sample_dualbase_cfg path None []
     = (Raise AttributeError, [EvRequest rq1]).
Proof.
  cbv zeta. split; [ eexists; split; reflexivity | ].
  split; [ reflexivity | ].
  split; [ eexists; split; reflexivity | reflexivity ].
Qed.

(** *** The status tool *)

Lemma bad_operation_iff op :
  bad_operation op = true <-> rejected_operation op.
Proof.
  unfold bad_operation, rejected_operation.
  rewrite !orb_true_iff, negb_true_iff.
  destruct op; simpl; intuition (try discriminate; auto).
Qed.

Lemma dualbase_not_invalid W cfg path params tr r tr' :
  epm_get_dualbase W cfg path params tr = (Ret r, tr') ->
  r <> INVALID_OPERATION.
Proof.
  unfold epm_get_dualbase, _http_get, bind, send, ret, lift.
  destruct (net W tr _) as [msg | rp]; simpl.
  - intros H; inversion H; discriminate.
  - destruct (300 <=? resp_status_code rp) eqn:E1.
    + destruct (error_message _ rp) as [m | e]; [ | discriminate ].
      simpl. destruct (resp_status_code rp =? 404).
      * destruct (net W _ _) as [msg2 | rp2]; simpl.
        { intros H; inversion H; discriminate. }
        destruct (300 <=? resp_status_code rp2).
        { destruct (error_message _ rp2); [ | discriminate ].
          simpl. intros H; inversion H; discriminate. }
        simpl. intros H; inversion H; discriminate.
      * intros H; inversion H; discriminate.
    + simpl. intros H; inversion H; discriminate.
Qed.

Lemma dualbase_first_request W cfg path params tr :
  exists r rest,
    epm_get_dualbase W cfg path params tr
    = (r, tr ++ EvRequest (get_request (base_url cfg ++ path) cfg params 60) :: rest).
Proof.
  unfold epm_get_dualbase.
  destruct (_http_get W (base_url cfg ++ path) cfg params 60 tr) as [[r1 | e] tr1] eqn:H1;
    pose proof (http_get_trace _ _ _ _ _ _ _ _ H1) as Ht1; subst tr1;
    step_bind H1.
  2:{ eexists; exists []; reflexivity. }
  destruct (truthy (get r1 "ok")); [ eexists; exists []; reflexivity | ].
  destruct (eq_int (get r1 "status_code") 404); [ | eexists; exists []; reflexivity ].
  match goal with
  | |- context [ bind (_http_get W ?u cfg params 60) _ ?t ] =>
      destruct (_http_get W u cfg params 60 t) as [[r2 | e] tr2] eqn:H2;
        pose proof (http_get_trace _ _ _ _ _ _ _ _ H2) as Ht2; subst tr2;
        step_bind H2
  end.
  - rewrite <- app_assoc.
    destruct (truthy (get r2 "ok")); eexists; eexists; reflexivity.
  - rewrite <- app_assoc. eexists; eexists; reflexivity.
Qed.

Lemma readonly_get_cases W cfg path params t tr :
  exists r,
    Readonly.epm_get W cfg path params t tr
    = (r, tr ++ [EvRequest (Readonly.get_request
                              (Readonly.service_url cfg ++ path) cfg params t)])
    /\ r <> Ret Readonly.INVALID_OPERATION.
Proof.
  unfold Readonly.epm_get, bind, send, ret, lift.
  destruct (net W tr _) as [msg | rp].
  - eexists; split; [ reflexivity | discriminate ].
  - destruct (300 <=? resp_status_code rp).
    + destruct (error_message _ rp);
        eexists; (split; [ reflexivity | discriminate ]).
    + eexists; split; [ reflexivity | discriminate ].
Qed.

(** C10, as amended.  Each status tool first loads its configuration;
    if that raises, the tool raises the same error and makes no network
    call.  Otherwise it returns [{ok: false, error: "INVALID_OPERATION"}]
    exactly when the stripped, lower-cased operation is empty or
    contains "/" or "..", and then makes no network call; in the other
    case it issues the GET for
    [/interop/rest/v2/status/<operation>/<job_id>] (against the
    canonical base first in the dual-base server, against the service
    URL in the read-only one). *)
Theorem status_tool_validation W operation job_id tr :
  let op := Str.lower (Str.strip operation) in
  match Dualbase.load_config W with
  | Raise e => Dualbase.epm_get_status W operation job_id tr = (Raise e, tr)
  | Ret cfg =>
      (rejected_operation op <->
       fst (Dualbase.epm_get_status W operation job_id tr) = Ret Dualbase.INVALID_OPERATION)
      /\ (rejected_operation op ->
          Dualbase.epm_get_status W operation job_id tr = (Ret Dualbase.INVALID_OPERATION, tr))
      /\ (~ rejected_operation op ->
          Dualbase.epm_get_status W operation job_id tr
          = Dualbase.epm_get_dualbase W cfg (status_tool_path op job_id) None tr
          /\ exists r rest,
               Dualbase.epm_get_status W operation job_id tr
               = (r, tr ++ EvRequest (Dualbase.get_request
                                        (Dualbase.base_url cfg ++ status_tool_path op job_id)
                                        cfg None 60) :: rest))
  end
  /\ match Readonly.load_config W with
     | Raise e => Readonly.epm_get_status W operation job_id tr = (Raise e, tr)
     | Ret cfg =>
         (rejected_operation op <->
          fst (Readonly.epm_get_status W operation job_id tr) = Ret Readonly.INVALID_OPERATION)
         /\ (rejected_operation op ->
             Readonly.epm_get_status W operation job_id tr
             = (Ret Readonly.INVALID_OPERATION, tr))
         /\ (~ rejected_operation op ->
             exists r,
               Readonly.epm_get_status W operation job_id tr
               = (r, tr ++ [EvRequest (Readonly.get_request
                                         (Readonly.service_url cfg ++ status_tool_path op job_id)
                                         cfg None 60)]))
     end.
Proof.
  intros op. split.
  - destruct (Dualbase.load_config W) as [cfg | e] eqn:Hcfg;
      unfold Dualbase.epm_get_status, bind, lift; rewrite Hcfg; [ | reflexivity ].
    fold op. rewrite <- (bad_operation_iff op).
    destruct (bad_operation op) eqn:Hbad.
    + split; [ split; [ reflexivity | reflexivity ] | ].
      split; [ reflexivity | intros H; now elim H ].
    + split; [ split; [ discriminate | ] | split; [ discriminate | ] ].
      * intros H. exfalso.
        destruct (epm_get_dualbase W cfg _ None tr) as [[r | e] tr'] eqn:Hd;
          simpl in H; [ | discriminate ].
        inversion H; subst. now apply (dualbase_not_invalid _ _ _ _ _ _ _ Hd).
      * intros _. split; [ reflexivity | ].
        apply dualbase_first_request.
  - destruct (Readonly.load_config W) as [cfg | e] eqn:Hcfg;
      unfold Readonly.epm_get_status, bind, lift; rewrite Hcfg; [ | reflexivity ].
    fold op.
    assert (Hiff : Readonly.bad_operation op = true <-> rejected_operation op)
      by apply bad_operation_iff.
    rewrite <- Hiff.
    destruct (Readonly.bad_operation op) eqn:Hbad.
    + split; [ split; reflexivity | ].
      split; [ reflexivity | intros H; now elim H ].
    + destruct (readonly_get_cases W cfg (status_tool_path op job_id) None 60 tr)
        as [r [Hr Hne]].
      unfold status_tool_path in Hr. rewrite Hr. simpl.
      split; [ split; [ discriminate | intros H; now elim Hne ] | ].
      split; [ discriminate | intros _; now exists r ].
Qed.

Lemma status_tool_validation_witness :
  Dualbase.epm_get_status world_epmcloud "  Down/Load " "17" []
  = (Ret Dualbase.INVALID_OPERATION, [])
  /\ exists r,
       Readonly.epm_get_status world_epmcloud " Download " "17" []
       = (r, [EvRequest (Readonly.get_request
                           "https://epm.example.com/epmcloud/interop/rest/v2/status/download/17"
                           sample_readonly_cfg None 60)]).
Proof.
  pose proof (status_tool_validation world_epmcloud "  Down/Load " "17" []) as [HD _].
  pose proof (status_tool_validation world_epmcloud " Download " "17" []) as [_ HR].
  cbv zeta in HD, HR.
  split.
  - apply (proj1 (proj2 HD)). right; left. reflexivity.
  - apply (proj2 (proj2 HR)).
    intros [H | [H | H]]; discriminate H.
Defined.

(** C10 as stated fails when the configuration does not load: with no
    environment variable set and an empty operation, the tool raises
    instead of returning [INVALID_OPERATION]. *)
Lemma status_tool_unconfigured_raises :
  rejected_operation (Str.lower (Str.strip ""))
  /\ Dualbase.epm_get_status world_unconfigured "" "17" []
     = (Raise (RuntimeError
                 "Missing required env vars: EPM_SERVICE_URL, EPM_USERNAME, EPM_PASSWORD"),
        [])
  /\ fst (Dualbase.epm_get_status world_unconfigured "" "17" [])
     <> Ret Dualbase.INVALID_OPERATION.
Proof.
  split; [ left; reflexivity | ].
  split; [ reflexivity | discriminate ].
Qed.

End DualbaseFacts.

(* ================================================================== *)
(** ** The read-only job observer ([pbcs_mcp_readonly.py]) *)
(* ================================================================== *)

Module ObserverFacts.
Import Observer.

Lemma py_or_ok_dict (st d : value) (k : string) :
  truthy (get st k) = true -> py_or st d = st.
Proof.
  destruct st; simpl; try discriminate.
  destruct kv; [ discriminate | reflexivity ].
Qed.

Lemma pbcs_get_trace W cfg path params t tr r tr' :
  pbcs_get W cfg path params t tr = (r, tr') ->
  tr' = tr ++ [EvRequest (get_request (base_url cfg ++ path) cfg params t)].
Proof.
  unfold pbcs_get, bind, send, ret, lift.
  destruct (net W tr _) as [msg | rp].
  - intros H; now inversion H.
  - destruct (300 <=? resp_status_code rp).
    + destruct (error_message _ rp); intros H; now inversion H.
    + intros H; now inversion H.
Qed.

(** A status call that returns has loaded the configuration. *)
Lemma status_returns_configured W job_id application api_version tr st tr1 :
  planning_get_job_status W job_id application api_version tr = (Ret st, tr1) ->
  exists cfg, load_config W = Ret cfg.
Proof.
  unfold planning_get_job_status, bind at 1, lift.
  destruct (load_config W) as [cfg | e]; [ now exists cfg | discriminate ].
Qed.

Lemma details_trace W cfg job_id offset limit application api_version tr r tr' :
  load_config W = Ret cfg ->
  planning_get_job_details W job_id offset limit application api_version tr = (r, tr') ->
  exists rq,
    tr' = tr ++ [EvRequest rq]
    /\ rq_params rq = Some (details_params offset limit).
Proof.
  intros Hcfg. unfold planning_get_job_details, bind at 1, lift. rewrite Hcfg.
  match goal with
  | |- context [ pbcs_get W cfg ?p ?q ?t ] =>
      destruct (pbcs_get W cfg p q t tr) as [[res | e] tr2] eqn:Hget;
        pose proof (pbcs_get_trace _ _ _ _ _ _ _ _ Hget) as Ht
  end.
  - rewrite (bind_ret_eq _ _ _ _ _ Hget).
    assert (Hsame : forall (m : M trace value), snd (m tr2) = tr2 -> m tr2 = (r, tr') ->
                    exists rq, tr' = tr ++ [EvRequest rq]
                               /\ rq_params rq = Some (details_params offset limit)).
    { intros m Hs Hm. rewrite Hm in Hs. simpl in Hs. subst tr'.
      eexists. split; [ exact Ht | reflexivity ]. }
    apply Hsame.
    destruct (negb (truthy (get res "ok"))); [ reflexivity | ].
    unfold bind, lift, ret.
    destruct (dget (get res "response") "items"); [ | reflexivity ].
    destruct (iterate _); [ | reflexivity ].
    destruct (map_res _ _); reflexivity.
  - rewrite (bind_raise_eq _ _ _ _ _ Hget). intros H; inversion H; subst.
    eexists. split; [ reflexivity | reflexivity ].
Qed.

Lemma requests_of_app (a b : trace) :
  requests_of (a ++ b) = requests_of a ++ requests_of b.
Proof. apply flat_map_app. Qed.

Lemma sleeps_of_app (a b : trace) :
  sleeps_of (a ++ b) = sleeps_of a ++ sleeps_of b.
Proof. apply flat_map_app. Qed.

(** C6, as amended.  Let the first status poll of [planning_watch_job]
    return an ok status [st] whose status is, ignoring case, one of
    SUCCEEDED, FAILED, ERROR, CANCELED, CANCELLED.  Then the loop stops
    at once: after that poll the watch only reads the clock, never
    sleeps and never polls the status again.  Without details, or when
    the final details fetch returns, the watch returns an ok result
    with exactly one poll record and that poll's status as
    [finalStatus]; when the details fetch raises, the watch raises. *)
Theorem watch_terminal_first_poll W fuel job_id poll_interval_seconds
  timeout_seconds include_details details_offset details_limit
  application api_version tr st tr1 :
  planning_get_job_status W job_id application api_version (tr ++ [EvTime])
  = (Ret st, tr1) ->
  truthy (get st "ok") = true ->
  terminal_status (get st "status") ->
  let polls := [poll_record (clock W tr1) st] in
  let watch := planning_watch_job W (S fuel) job_id poll_interval_seconds
                 timeout_seconds include_details details_offset details_limit
                 application api_version tr in
  let report details := watch_report job_id polls st details in
  (forall details,
      get (report details) "ok" = VBool true
      /\ get (get (report details) "job") "polls" = VList polls
      /\ get (get (report details) "job") "pollCount" = VInt 1
      /\ get (get (report details) "job") "finalStatus" = get st "status")
  /\ (include_details = false ->
      watch = (Ret (Some (report VNone)), tr1 ++ [EvTime]))
  /\ (include_details = true ->
      exists outcome rq,
        planning_get_job_details W job_id details_offset details_limit
          application api_version (tr1 ++ [EvTime])
        = (outcome, tr1 ++ [EvTime; EvRequest rq])
        /\ rq_params rq = Some (details_params details_offset details_limit)
        /\ sleeps_of (tr1 ++ [EvTime; EvRequest rq]) = sleeps_of tr1
        /\ requests_of (tr1 ++ [EvTime; EvRequest rq]) = requests_of tr1 ++ [rq]
        /\ watch = (match outcome with
                    | Ret details => Ret (Some (report details))
                    | Raise e => Raise e
                    end, tr1 ++ [EvTime; EvRequest rq])).
Proof.
  intros Hst Hok Hterm polls watch report.
  destruct (status_returns_configured _ _ _ _ _ _ _ Hst) as [cfg Hcfg].
  apply terminal_of_status in Hterm.
  assert (Hloop :
    watch_loop W (S fuel) job_id poll_interval_seconds timeout_seconds
      application api_version (clock W tr) [] (tr ++ [EvTime])
    = (Ret (Some (Broke polls st)), tr1 ++ [EvTime])).
  { simpl. rewrite (bind_ret_eq _ _ _ _ _ Hst). rewrite Hok. simpl.
    unfold bind at 1, time_time at 1. unfold lift, bind. rewrite Hterm.
    reflexivity. }
  assert (Hwatch : forall incl,
    planning_watch_job W (S fuel) job_id poll_interval_seconds timeout_seconds
      incl details_offset details_limit application api_version tr
    = bind (if incl
            then planning_get_job_details W job_id details_offset details_limit
                   application api_version
            else ret VNone)
        (fun details => ret (Some (report details))) (tr1 ++ [EvTime])).
  { intros incl. unfold planning_watch_job.
    unfold bind at 1, time_time at 1.
    now rewrite (bind_ret_eq _ _ _ _ _ Hloop). }
  split; [ | split ].
  - intros details. unfold report, watch_report.
    rewrite (py_or_ok_dict st _ "ok" Hok). repeat split.
  - intros ->. unfold watch. now rewrite Hwatch.
  - intros ->.
    destruct (planning_get_job_details W job_id details_offset details_limit
                application api_version (tr1 ++ [EvTime]))
      as [outcome tr2] eqn:Hd.
    destruct (details_trace _ _ _ _ _ _ _ _ _ _ Hcfg Hd) as [rq [Htr2 Hrq]].
    rewrite <- app_assoc in Htr2. simpl in Htr2. subst tr2.
    exists outcome, rq.
    split; [ reflexivity | ]. split; [ exact Hrq | ].
    split; [ rewrite sleeps_of_app; simpl; apply app_nil_r | ].
    split; [ rewrite requests_of_app; reflexivity | ].
    unfold watch. rewrite Hwatch.
    destruct outcome as [details | e].
    + now rewrite (bind_ret_eq _ _ _ _ _ Hd).
    + now rewrite (bind_raise_eq _ _ _ _ _ Hd).
Qed.

Lemma watch_terminal_first_poll_witness :
  planning_watch_job (world_job_done (VDict [])) 1 "42" 10 600 false 0 200
    None None []
  = (Ret (Some (watch_report "42"
                  [VDict [("ts", VInt 2); ("status", VStr "Succeeded");
                          ("percentComplete", VInt 100)]]
                  (VDict [("ok", VBool true); ("jobId", VStr "42");
                          ("status", VStr "Succeeded");
                          ("percentComplete", VInt 100);
                          ("startTime", VNone); ("endTime", VNone);
                          ("raw", VDict [("status", VStr "Succeeded");
                                         ("percentComplete", VInt 100)])])
                  VNone)),
     [EvTime;
      EvRequest (get_request
                   "https://pbcs.example.com/HyperionPlanning/rest/v3/applications/Vision/jobs/42"
                   {| base_url := "https://pbcs.example.com"; application := "Vision";
                      api_version := "v3"; username := "amy"; password := "hunter2";
                      verify_ssl := true |} None 60);
      EvTime]).
Proof.
  refine (proj1 (proj2 (watch_terminal_first_poll (world_job_done (VDict [])) 0 "42"
                          10 600 false 0 200 None None [] _ _ eq_refl eq_refl _)) eq_refl).
  exists "Succeeded". split; [ reflexivity | ]. left. reflexivity.
Defined.

(** C6 as stated fails when the details fetch raises: the job has
    succeeded at the first poll, the details endpoint answers 200 with a
    JSON array, and the watch raises instead of returning. *)
Lemma watch_raises_on_malformed_details :
  match fst (planning_get_job_status (world_job_done (VList [])) "42" None None
               [EvTime]) with
  | Ret st =>
      truthy (get st "ok") = true
      /\ get st "status" = VStr "Succeeded"
      /\ terminal (get st "status") = Ret true
  | Raise _ => False
  end
  /\ fst (planning_watch_job (world_job_done (VList [])) 1 "42" 10 600 true 0 200
            None None [])
     = Raise AttributeError.
Proof.
  split; [ | reflexivity ].
  vm_compute. repeat split.
Qed.

End ObserverFacts.

(* ================================================================== *)
(** ** The job runner and its token cache ([pbcs_copilot_mcp_real.py]) *)
(* ================================================================== *)

Module CopilotFacts.
Import Copilot.

Lemma Qlt_bool_iff (x y : Q) : Qlt_bool x y = true <-> (x < y)%Q.
Proof.
  unfold Qlt_bool. rewrite negb_true_iff.
  split.
  - intros H. apply Qnot_le_lt. intros Hle.
    apply Qle_bool_iff in Hle. congruence.
  - intros H. destruct (Qle_bool y x) eqn:E; [ | reflexivity ].
    apply Qle_bool_iff in E. exfalso. now apply (Qlt_not_le x y).
Qed.

Lemma Qlt_bool_false_iff (x y : Q) : Qlt_bool x y = false <-> (y <= x)%Q.
Proof.
  unfold Qlt_bool. rewrite negb_false_iff. apply Qle_bool_iff.
Qed.

(** [TokenCache.get] on a fresh token: the token, after one clock read. *)
Lemma cache_get_hit W s :
  truthy (token (cache s)) = true ->
  (clock W (log s) < expires_at (cache s) - 30)%Q ->
  TokenCache_get W s
  = (Ret (token (cache s)), {| log := log s ++ [EvTime]; cache := cache s |}).
Proof.
  intros Htok Hlt. apply Qlt_bool_iff in Hlt.
  unfold TokenCache_get, bind, read_cache, on_log, time_time, ret.
  rewrite Htok. simpl. now rewrite Hlt.
Qed.

(** [TokenCache.get] otherwise: [None]. *)
Lemma cache_get_miss W s :
  truthy (token (cache s)) = false
  \/ (expires_at (cache s) - 30 <= clock W (log s))%Q ->
  TokenCache_get W s
  = (Ret VNone, {| log := log_at_request s; cache := cache s |}).
Proof.
  intros H. unfold TokenCache_get, log_at_request, bind, read_cache, on_log,
    time_time, ret.
  destruct (truthy (token (cache s))) eqn:Htok.
  - destruct H as [H | H]; [ discriminate | ].
    apply Qlt_bool_false_iff in H. simpl. now rewrite H.
  - now destruct s.
Qed.

Lemma on_log_send W rq s :
  on_log (send W rq) s
  = (Ret (net W (log s) rq), {| log := log s ++ [EvRequest rq]; cache := cache s |}).
Proof. reflexivity. Qed.

Lemma on_log_time W s :
  on_log (time_time W) s
  = (Ret (clock W (log s)), {| log := log s ++ [EvTime]; cache := cache s |}).
Proof. reflexivity. Qed.

Lemma cache_set_run W tok n s :
  TokenCache_set W tok n s
  = (Ret tt, {| log := log s ++ [EvTime];
                cache := {| token := tok;
                            expires_at := clock W (log s) + inject_Z (Z.max 0 n) |} |}).
Proof. reflexivity. Qed.

(** A call that misses the cache, case by case. *)
Lemma oauth_miss_run W cfg s :
  truthy (token (cache s)) = false
  \/ (expires_at (cache s) - 30 <= clock W (log s))%Q ->
  get_oauth_token W cfg s
  = match net W (log_at_request s) (token_request cfg) with
    | Failed msg =>
        (Ret (false, VDict [("error", VStr "OAUTH_NETWORK_ERROR");
                            ("message", VStr msg)]),
         {| log := log_at_request s ++ [EvRequest (token_request cfg)];
            cache := cache s |})
    | Response resp =>
        if 300 <=? resp_status_code resp then
          (Ret (false, VDict [("error", VStr "OAUTH_HTTP_ERROR");
                              ("status_code", VInt (resp_status_code resp));
                              ("response", token_payload resp)]),
           {| log := log_at_request s ++ [EvRequest (token_request cfg)];
              cache := cache s |})
        else
          match dget (token_payload resp) "access_token" with
          | Raise e =>
              (Raise e,
               {| log := log_at_request s ++ [EvRequest (token_request cfg)];
                  cache := cache s |})
          | Ret tok =>
              match dget_default (token_payload resp) "expires_in" (VInt 3600) with
              | Raise e =>
                  (Raise e,
                   {| log := log_at_request s ++ [EvRequest (token_request cfg)];
                      cache := cache s |})
              | Ret expires_in =>
                  if negb (truthy tok) then
                    (Ret (false, VDict [("error", VStr "OAUTH_BAD_RESPONSE");
                                        ("response", token_payload resp)]),
                     {| log := log_at_request s ++ [EvRequest (token_request cfg)];
                        cache := cache s |})
                  else
                    match Py.int expires_in with
                    | Raise e =>
                        (Raise e,
                         {| log := log_at_request s
                                   ++ [EvRequest (token_request cfg)];
                            cache := cache s |})
                    | Ret n =>
                        (Ret (true, VDict [("access_token", tok);
                                           ("cached", VBool false)]),
                         {| log := (log_at_request s
                                    ++ [EvRequest (token_request cfg)])
                                   ++ [EvTime];
                            cache :=
                              {| token := tok;
                                 expires_at :=
                                   clock W (log_at_request s
                                            ++ [EvRequest (token_request cfg)])
                                   + inject_Z (Z.max 0 n) |} |})
                    end
              end
          end
    end.
Proof.
  intros Hmiss.
  pose proof (cache_get_miss W s Hmiss) as Hg.
  unfold get_oauth_token. rewrite (bind_ret_eq _ _ _ _ _ Hg).
  change (truthy VNone) with false. cbv iota.
  rewrite (bind_ret_eq _ _ _ _ _ (on_log_send W _ _)).
  cbv beta. cbn [log cache].
  destruct (net W (log_at_request s) (token_request cfg)) as [msg | resp];
    [ reflexivity | ].
  fold (token_payload resp).
  destruct (300 <=? resp_status_code resp); [ reflexivity | ].
  rewrite bind_lift.
  destruct (dget (token_payload resp) "access_token") as [tok | e]; [ | reflexivity ].
  rewrite bind_lift.
  destruct (dget_default (token_payload resp) "expires_in" (VInt 3600))
    as [expires_in | e]; [ | reflexivity ].
  destruct (negb (truthy tok)); [ reflexivity | ].
  rewrite bind_lift.
  destruct (Py.int expires_in) as [n | e]; [ | reflexivity ].
  rewrite (bind_ret_eq _ _ _ _ _ (cache_set_run W tok n _)). reflexivity.
Qed.

(** C5, as amended.  A cache that holds a token, read at a clock time
    strictly before the stored expiry minus 30 seconds, answers with the
    cached token and issues no request, so two acquisitions in a row
    inside the window give the same token and no request at all.
    Otherwise (no token, or at or after expiry minus 30 seconds)
    exactly one issuance request is made.  If it fails on the network,
    or is answered with a status of 300 or more, an error is returned
    and the cache is unchanged.  If it is answered below 300 with a true
    [access_token] and an [expires_in] that [int] accepts (3600 when the
    field is absent), the cache stores that token with expiry
    [now + max(0, int(expires_in))].  In every other outcome the cache
    is unchanged. *)
Theorem token_cache_acquire W cfg s :
  let c := cache s in
  let hit := (true, VDict [("access_token", token c); ("cached", VBool true)]) in
  let log1 := log_at_request s in
  let log2 := log1 ++ [EvRequest (token_request cfg)] in
  (truthy (token c) = true ->
   (clock W (log s) < expires_at c - 30)%Q ->
   get_oauth_token W cfg s
   = (Ret hit, {| log := log s ++ [EvTime]; cache := c |})
   /\ ((clock W (log s ++ [EvTime]) < expires_at c - 30)%Q ->
       bind (get_oauth_token W cfg)
         (fun a => bind (get_oauth_token W cfg) (fun b => ret (a, b))) s
       = (Ret (hit, hit), {| log := log s ++ [EvTime; EvTime]; cache := c |})))
  /\ (truthy (token c) = false \/ (expires_at c - 30 <= clock W (log s))%Q ->
      (exists r s',
          get_oauth_token W cfg s = (r, s')
          /\ requests_of (log s') = requests_of (log s) ++ [token_request cfg]
          /\ (cache s' = c
              \/ exists tok d, r = Ret (true, d) /\ token (cache s') = tok
                               /\ get d "access_token" = tok))
      /\ (forall msg,
             net W log1 (token_request cfg) = Failed msg ->
             get_oauth_token W cfg s
             = (Ret (false, VDict [("error", VStr "OAUTH_NETWORK_ERROR");
                                   ("message", VStr msg)]),
                {| log := log2; cache := c |}))
      /\ (forall resp,
             net W log1 (token_request cfg) = Response resp ->
             300 <= resp_status_code resp ->
             get_oauth_token W cfg s
             = (Ret (false, VDict [("error", VStr "OAUTH_HTTP_ERROR");
                                   ("status_code", VInt (resp_status_code resp));
                                   ("response", token_payload resp)]),
                {| log := log2; cache := c |}))
      /\ (forall resp tok expires_in n,
             net W log1 (token_request cfg) = Response resp ->
             resp_status_code resp < 300 ->
             dget (token_payload resp) "access_token" = Ret tok ->
             truthy tok = true ->
             dget_default (token_payload resp) "expires_in" (VInt 3600)
             = Ret expires_in ->
             Py.int expires_in = Ret n ->
             get_oauth_token W cfg s
             = (Ret (true, VDict [("access_token", tok); ("cached", VBool false)]),
                {| log := log2 ++ [EvTime];
                   cache := {| token := tok;
                               expires_at := clock W log2 + inject_Z (Z.max 0 n) |} |}))).
Proof.
  intros c hit log1 log2. split.
  - intros Htok Hlt.
    assert (H1 : get_oauth_token W cfg s
                 = (Ret hit, {| log := log s ++ [EvTime]; cache := c |})).
    { unfold get_oauth_token.
      rewrite (bind_ret_eq _ _ _ _ _ (cache_get_hit W s Htok Hlt)).
      fold c. now rewrite Htok. }
    split; [ exact H1 | ].
    intros Hlt2.
    rewrite (bind_ret_eq _ _ _ _ _ H1).
    unfold get_oauth_token.
    set (s1 := {| log := log s ++ [EvTime]; cache := c |}).
    assert (Hg : TokenCache_get W s1
                 = (Ret (token c), {| log := log s1 ++ [EvTime]; cache := c |}))
      by (apply (cache_get_hit W s1); assumption).
    unfold bind at 1. rewrite (bind_ret_eq _ _ _ _ _ Hg). rewrite Htok.
    unfold ret. simpl. now rewrite <- app_assoc.
  - intros Hmiss.
    pose proof (cache_get_miss W s Hmiss) as Hg. fold log1 c in Hg.
    assert (Hreq : requests_of log2 = requests_of (log s) ++ [token_request cfg]).
    { unfold log2, log1, log_at_request.
      destruct (truthy (token (cache s))); unfold requests_of;
        rewrite !flat_map_app; simpl; now rewrite ?app_nil_r. }
    pose proof (oauth_miss_run W cfg s Hmiss) as Hrun. fold c log1 log2 in Hrun.
    split; [ | split; [ | split ] ].
    + rewrite Hrun.
      destruct (net W log1 (token_request cfg)) as [msg | resp].
      { eexists; eexists; split; [ reflexivity | split; [ exact Hreq | now left ] ]. }
      destruct (300 <=? resp_status_code resp).
      { eexists; eexists; split; [ reflexivity | split; [ exact Hreq | now left ] ]. }
      destruct (dget (token_payload resp) "access_token") as [tok | e].
      2:{ eexists; eexists; split; [ reflexivity | split; [ exact Hreq | now left ] ]. }
      destruct (dget_default _ _ _) as [expires_in | e].
      2:{ eexists; eexists; split; [ reflexivity | split; [ exact Hreq | now left ] ]. }
      destruct (negb (truthy tok)).
      { eexists; eexists; split; [ reflexivity | split; [ exact Hreq | now left ] ]. }
      destruct (Py.int expires_in) as [n | e].
      2:{ eexists; eexists; split; [ reflexivity | split; [ exact Hreq | now left ] ]. }
      eexists; eexists; split; [ reflexivity | ]. split.
      * simpl log. unfold requests_of in *. rewrite flat_map_app. simpl.
        rewrite app_nil_r. exact Hreq.
      * right. exists tok. eexists. repeat split.
    + intros msg Hnet. now rewrite Hrun, Hnet.
    + intros resp Hnet Hcode. rewrite Hrun, Hnet.
      apply Z.leb_le in Hcode. now rewrite Hcode.
    + intros resp tok expires_in n Hnet Hcode Htok Htruthy Hexp Hint.
      rewrite Hrun, Hnet.
      apply Z.leb_gt in Hcode. rewrite Hcode, Htok, Hexp, Htruthy, Hint.
      reflexivity.
Qed.

Lemma token_cache_acquire_witness :
  get_oauth_token (world_issuer 200 (VDict [])) sample_oauth_cfg
    (cached_state "T0" 2000)
  = (Ret (true, VDict [("access_token", VStr "T0"); ("cached", VBool true)]),
     {| log := [EvTime];
        cache := {| token := VStr "T0"; expires_at := 2000 |} |})
  /\ get_oauth_token
       (world_issuer 200 (VDict [("access_token", VStr "T1"); ("expires_in", VInt 3600)]))
       sample_oauth_cfg fresh_state
     = (Ret (true, VDict [("access_token", VStr "T1"); ("cached", VBool false)]),
        {| log := [EvRequest (token_request sample_oauth_cfg); EvTime];
           cache := {| token := VStr "T1";
                       expires_at := 1000 + inject_Z (Z.max 0 3600) |} |}).
Proof.
  split.
  - refine (proj1 (proj1 (token_cache_acquire (world_issuer 200 (VDict []))
                            sample_oauth_cfg (cached_state "T0" 2000))
                     eq_refl _)).
    reflexivity.
  - refine (proj2 (proj2 (proj2 (proj2
              (token_cache_acquire
                 (world_issuer 200 (VDict [("access_token", VStr "T1");
                                           ("expires_in", VInt 3600)]))
                 sample_oauth_cfg fresh_state) (or_introl eq_refl))))
              _ (VStr "T1") (VInt 3600) 3600 eq_refl _ eq_refl eq_refl eq_refl eq_refl).
    reflexivity.
Defined.

(** C5 as stated fails on the stored expiry: an issuer that answers
    [expires_in = -5] has its token stored with expiry [now + 0], not
    [now + expires_in]. *)
Lemma token_expiry_is_clamped :
  let r := get_oauth_token
             (world_issuer 200 (VDict [("access_token", VStr "T1");
                                       ("expires_in", VInt (-5))]))
             sample_oauth_cfg fresh_state in
  fst r = Ret (true, VDict [("access_token", VStr "T1"); ("cached", VBool false)])
  /\ (expires_at (cache (snd r)) == 1000)%Q
  /\ ~ (expires_at (cache (snd r)) == 1000 + inject_Z (-5))%Q.
Proof.
  cbv zeta. split; [ reflexivity | ]. split; [ reflexivity | ].
  intros H. vm_compute in H. discriminate H.
Qed.

(** *** Submission and the job id *)

Lemma first_of_job_id (kv : list (string * value)) :
  first_of (VDict kv) JOB_ID_KEYS
  = Ret (py_or (get (VDict kv) "jobId")
           (py_or (get (VDict kv) "jobID")
              (py_or (get (VDict kv) "id") (get (VDict kv) "jobIdentifier")))).
Proof.
  unfold JOB_ID_KEYS, first_of, rbind, dget, py_or, get.
  repeat match goal with
         | |- context [ if truthy ?v then _ else _ ] => destruct (truthy v)
         end; reflexivity.
Qed.

Lemma first_of_not_dict (p : value) (k : string) (keys : list string) :
  (forall kv, p <> VDict kv) -> first_of p (k :: keys) = Raise AttributeError.
Proof.
  intros H. destruct p as [ | | | | | kv ]; try (now destruct keys).
  now destruct (H kv).
Qed.

(** C8, as amended.  When the POST is answered ok with a JSON object (an
    empty body and a body that is not JSON are read as objects),
    [planning_execute_job] reports [ok: true] with [jobId] the first
    true value among the response's [jobId], [jobID], [id],
    [jobIdentifier], in that order, and the value under [jobIdentifier]
    when none is true ([None] when the field is absent, else the false
    value that it holds): it does not fail.  It is
    [planning_run_job_and_wait] that fails then, with [NO_JOB_ID], before
    any status poll.  When the POST is answered ok with a JSON body
    that is not an object, both raise [AttributeError]. *)
Theorem execute_job_extracts_id W job_type job_name parameters application
  api_version client_api_key s cfg res s1 :
  load_config W = Ret cfg ->
  enforce_client_key cfg client_api_key = None ->
  allowlist_check cfg job_type job_name = None ->
  pbcs_request W cfg "POST"
    (jobs_path (or_str api_version (Copilot.api_version cfg))
       (or_str application (Copilot.application cfg)))
    None
    (Some (VDict ([("jobType", VStr job_type); ("jobName", VStr job_name)]
                  ++ (if truthy parameters then [("parameters", parameters)] else []))))
    60 s
  = (Ret res, s1) ->
  truthy (get res "ok") = true ->
  (forall kv,
      get res "response" = VDict kv ->
      let p := VDict kv in
      let job_id :=
        py_or (get p "jobId")
          (py_or (get p "jobID") (py_or (get p "id") (get p "jobIdentifier"))) in
      exists status,
        let exec_res := VDict [("ok", VBool true); ("jobId", job_id);
                               ("status", status); ("raw", p)] in
        planning_execute_job W job_type job_name parameters application api_version
          client_api_key s
        = (Ret exec_res, s1)
        /\ (truthy (get p "jobId") = false -> truthy (get p "jobID") = false ->
            truthy (get p "id") = false -> truthy (get p "jobIdentifier") = false ->
            job_id = get p "jobIdentifier"
            /\ truthy job_id = false
            /\ forall fuel poll_interval_seconds timeout_seconds details_offset
                      details_limit,
                 planning_run_job_and_wait W fuel job_type job_name parameters
                   poll_interval_seconds timeout_seconds application api_version
                   details_offset details_limit client_api_key s
                 = (Ret (Some (NO_JOB_ID exec_res)), s1)))
  /\ ((forall kv, get res "response" <> VDict kv) ->
      planning_execute_job W job_type job_name parameters application api_version
        client_api_key s
      = (Raise AttributeError, s1)
      /\ forall fuel poll_interval_seconds timeout_seconds details_offset
                details_limit,
           planning_run_job_and_wait W fuel job_type job_name parameters
             poll_interval_seconds timeout_seconds application api_version
             details_offset details_limit client_api_key s
           = (Raise AttributeError, s1)).
Proof.
  intros Hcfg Hkey Hallow Hpost Hok. split.
  - intros kv Hresp p job_id.
    assert (Hst : exists status, first_of p STATUS_KEYS = Ret status).
    { unfold STATUS_KEYS, first_of, rbind, dget, p.
      repeat match goal with
             | |- context [ if truthy ?v then _ else _ ] => destruct (truthy v)
             end; eexists; reflexivity. }
    destruct Hst as [status Hstatus]. exists status. cbv zeta.
    assert (Hexec :
      planning_execute_job W job_type job_name parameters application api_version
        client_api_key s
      = (Ret (VDict [("ok", VBool true); ("jobId", job_id);
                     ("status", status); ("raw", p)]), s1)).
    { unfold planning_execute_job. rewrite bind_lift, Hcfg, Hkey, Hallow.
      cbv zeta.
      rewrite (bind_ret_eq _ _ _ _ _ Hpost). rewrite Hok. cbn [negb].
      rewrite Hresp, bind_lift, first_of_job_id, bind_lift. fold p. rewrite Hstatus.
      reflexivity. }
    split; [ exact Hexec | ].
    intros H1 H2 H3 H4.
    assert (Hlast : job_id = get p "jobIdentifier").
    { unfold job_id, py_or. now rewrite H1, H2, H3. }
    assert (Hid : truthy job_id = false) by now rewrite Hlast.
    split; [ exact Hlast | ]. split; [ exact Hid | ].
    intros fuel pi to off lim. unfold planning_run_job_and_wait.
    rewrite (bind_ret_eq _ _ _ _ _ Hexec).
    change (get (VDict [("ok", VBool true); ("jobId", job_id);
                        ("status", status); ("raw", p)]) "ok") with (VBool true).
    change (get (VDict [("ok", VBool true); ("jobId", job_id);
                        ("status", status); ("raw", p)]) "jobId") with job_id.
    cbn [truthy negb]. now rewrite Hid.
  - intros Hbody.
    assert (Hexec :
      planning_execute_job W job_type job_name parameters application api_version
        client_api_key s
      = (Raise AttributeError, s1)).
    { unfold planning_execute_job. rewrite bind_lift, Hcfg, Hkey, Hallow.
      cbv zeta.
      rewrite (bind_ret_eq _ _ _ _ _ Hpost). rewrite Hok. cbn [negb].
      unfold JOB_ID_KEYS. now rewrite bind_lift, (first_of_not_dict _ _ _ Hbody). }
    split; [ exact Hexec | ].
    intros fuel pi to off lim. unfold planning_run_job_and_wait.
    now rewrite (bind_raise_eq _ _ _ _ _ Hexec).
Qed.

Lemma execute_job_extracts_id_witness :
  (exists status s1,
      planning_execute_job (world_planning (VDict [("jobID", VStr "42")]))
        "REFRESH_CUBE" "RefreshPlan1" VNone None None None fresh_state
      = (Ret (VDict [("ok", VBool true); ("jobId", VStr "42"); ("status", status);
                     ("raw", VDict [("jobID", VStr "42")])]), s1))
  /\ (exists s1,
         planning_execute_job (world_planning (VList []))
           "REFRESH_CUBE" "RefreshPlan1" VNone None None None fresh_state
         = (Raise AttributeError, s1)).
Proof.
  split.
  - edestruct (execute_job_extracts_id (world_planning (VDict [("jobID", VStr "42")]))
                 "REFRESH_CUBE" "RefreshPlan1" VNone None None None fresh_state)
      as [Hobj _];
      [ reflexivity | reflexivity | reflexivity | reflexivity | reflexivity | ].
    edestruct Hobj as [status [Hexec _]]; [ reflexivity | ].
    exists status. eexists. exact Hexec.
  - edestruct (execute_job_extracts_id (world_planning (VList []))
                 "REFRESH_CUBE" "RefreshPlan1" VNone None None None fresh_state)
      as [_ Hraise];
      [ reflexivity | reflexivity | reflexivity | reflexivity | reflexivity | ].
    eexists. apply Hraise. intros kv. discriminate.
Defined.

(** C8 as stated fails: a submission answered without any job id field
    is reported as successful by [planning_execute_job]. *)
Lemma execute_job_without_id_is_ok :
  fst (planning_execute_job (world_planning (VDict [("status", VStr "RUNNING")]))
         "REFRESH_CUBE" "RefreshPlan1" VNone None None None fresh_state)
  = Ret (VDict [("ok", VBool true); ("jobId", VNone); ("status", VStr "RUNNING");
                ("raw", VDict [("status", VStr "RUNNING")])]).
Proof. reflexivity. Qed.

(** *** The composed run: failures end it, and details come last *)




















(** The loop breaks only on an ok status poll whose status is terminal. *)
Lemma wait_loop_broke W fuel job_id poll timeout application api_version key
  start polls s polls' last s' :
  wait_loop W fuel job_id poll timeout application api_version key start polls s
  = (Ret (Some (Broke polls' last)), s') ->
  terminal (get last "status") = Ret true
  /\ truthy (get last "ok") = true
  /\ exists t earlier, polls' = earlier ++ [poll_record t last].
Proof.
  revert polls s. induction fuel as [ | fuel IH ]; intros polls s; simpl.
  - discriminate.
  - unfold bind at 1.
    destruct (planning_get_job_status W job_id application api_version key s)
      as [[st | e] s1]; [ | discriminate ].
    destruct (truthy (get st "ok")) eqn:Hok; simpl; [ | discriminate ].
    rewrite (bind_ret_eq _ _ _ _ _ (on_log_time W s1)), bind_lift.
    destruct (terminal (get st "status")) as [done | e] eqn:Hterm; [ | discriminate ].
    destruct done.
    + intros H; inversion H; subst. repeat split; try assumption.
      now exists (clock W (log s1)), polls.
    + rewrite (bind_ret_eq _ _ _ _ _ (on_log_time W _)).
      destruct (timed_out _ start timeout); [ discriminate | ].
      unfold bind at 1. simpl. apply IH.
Qed.



End CopilotFacts.

(* ================================================================== *)
(** ** Concurrent and successive token acquisitions *)
(* ================================================================== *)

Module CacheFacts.
Import Copilot Interleaving CopilotFacts.

(** Hit or miss: one of the two always applies. *)
Lemma hit_or_miss W s :
  (truthy (token (cache s)) = true
   /\ (clock W (log s) < expires_at (cache s) - 30)%Q)
  \/ (truthy (token (cache s)) = false
      \/ (expires_at (cache s) - 30 <= clock W (log s))%Q).
Proof.
  destruct (truthy (token (cache s))) eqn:Htok; [ | now right; left ].
  destruct (Qlt_bool (clock W (log s)) (expires_at (cache s) - 30)) eqn:E.
  - left. split; [ reflexivity | now apply Qlt_bool_iff ].
  - right. right. now apply Qlt_bool_false_iff.
Qed.

Lemma oauth_hit_run W cfg s :
  truthy (token (cache s)) = true ->
  (clock W (log s) < expires_at (cache s) - 30)%Q ->
  get_oauth_token W cfg s
  = (Ret (true, VDict [("access_token", token (cache s)); ("cached", VBool true)]),
     {| log := log s ++ [EvTime]; cache := cache s |}).
Proof.
  intros Htok Hlt. unfold get_oauth_token.
  rewrite (bind_ret_eq _ _ _ _ _ (cache_get_hit W s Htok Hlt)).
  now rewrite Htok.
Qed.

(** A thread that runs alone through the steps computes
    [get_oauth_token]. *)
Lemma thread_alone_refines W cfg s :
  alone W cfg 4 AtStart s
  = (Finished (fst (get_oauth_token W cfg s)), snd (get_oauth_token W cfg s)).
Proof.
  destruct (hit_or_miss W s) as [[Htok Hlt] | Hmiss].
  - rewrite (oauth_hit_run W cfg s Htok Hlt).
    cbn [alone step]. rewrite (cache_get_hit W s Htok Hlt), Htok. reflexivity.
  - rewrite (oauth_miss_run W cfg s Hmiss).
    cbn [alone step]. rewrite (cache_get_miss W s Hmiss).
    change (truthy VNone) with false. cbv iota.
    cbn [step]. rewrite on_log_send. cbn [log cache].
    destruct (net W (log_at_request s) (token_request cfg)) as [msg | resp];
      [ reflexivity | ].
    cbn [step]. cbv zeta.
    destruct (300 <=? resp_status_code resp); [ reflexivity | ].
    destruct (dget (token_payload resp) "access_token") as [tok | e]; [ | reflexivity ].
    destruct (dget_default (token_payload resp) "expires_in" (VInt 3600))
      as [expires_in | e]; [ | reflexivity ].
    destruct (negb (truthy tok)); [ reflexivity | ].
    destruct (Py.int expires_in) as [n | e]; reflexivity.
Qed.

Lemma run_first_alone W cfg n c :
  run_schedule W cfg (repeat T1 n) c
  = {| pc1 := fst (alone W cfg n (pc1 c) (shared c));
       pc2 := pc2 c;
       shared := snd (alone W cfg n (pc1 c) (shared c)) |}.
Proof.
  revert c. induction n as [ | n IH ]; intros c.
  - now destruct c.
  - change (run_schedule W cfg (repeat T1 (S n)) c)
      with (run_schedule W cfg (repeat T1 n) (sched_step W cfg c T1)).
    rewrite IH. unfold sched_step. simpl alone.
    now destruct (step W cfg (pc1 c) (shared c)).
Qed.

Lemma run_second_alone W cfg n c :
  run_schedule W cfg (repeat T2 n) c
  = {| pc1 := pc1 c;
       pc2 := fst (alone W cfg n (pc2 c) (shared c));
       shared := snd (alone W cfg n (pc2 c) (shared c)) |}.
Proof.
  revert c. induction n as [ | n IH ]; intros c.
  - now destruct c.
  - change (run_schedule W cfg (repeat T2 (S n)) c)
      with (run_schedule W cfg (repeat T2 n) (sched_step W cfg c T2)).
    rewrite IH. unfold sched_step. simpl alone.
    now destruct (step W cfg (pc2 c) (shared c)).
Qed.

Lemma run_schedule_app W cfg a b c :
  run_schedule W cfg (a ++ b) c = run_schedule W cfg b (run_schedule W cfg a c).
Proof. apply fold_left_app. Qed.

(** Two callers, one after the other, are two calls in sequence. *)
Lemma serial_schedule W cfg s :
  let first := get_oauth_token W cfg s in
  let second := get_oauth_token W cfg (snd first) in
  run_schedule W cfg (repeat T1 4 ++ repeat T2 4) (both_start s)
  = {| pc1 := Finished (fst first);
       pc2 := Finished (fst second);
       shared := snd second |}.
Proof.
  cbv zeta. rewrite run_schedule_app, run_first_alone, run_second_alone.
  cbn [pc1 pc2 shared both_start].
  now rewrite !thread_alone_refines.
Qed.

(** What one call does to the cache: nothing, unless it obtained a
    token, which it then stores. *)
Lemma acquire_effect W cfg s :
  let rs := get_oauth_token W cfg s in
  (issued (fst rs) = None /\ cache (snd rs) = cache s)
  \/ (exists tok, issued (fst rs) = Some tok /\ token (cache (snd rs)) = tok).
Proof.
  cbv zeta. destruct (hit_or_miss W s) as [[Htok Hlt] | Hmiss].
  - rewrite (oauth_hit_run W cfg s Htok Hlt). left. now split.
  - rewrite (oauth_miss_run W cfg s Hmiss).
    destruct (net W (log_at_request s) (token_request cfg)) as [msg | resp];
      [ left; now split | ].
    destruct (300 <=? resp_status_code resp); [ left; now split | ].
    destruct (dget (token_payload resp) "access_token") as [tok | e];
      [ | left; now split ].
    destruct (dget_default (token_payload resp) "expires_in" (VInt 3600))
      as [expires_in | e]; [ | left; now split ].
    destruct (negb (truthy tok)); [ left; now split | ].
    destruct (Py.int expires_in) as [n | e]; [ | left; now split ].
    right. exists tok. now split.
Qed.

(** One call makes at most one request, and none on a fresh cache. *)
Lemma acquire_requests W cfg s :
  let rs := get_oauth_token W cfg s in
  (truthy (token (cache s)) = true ->
   (clock W (log s) < expires_at (cache s) - 30)%Q ->
   requests_of (log (snd rs)) = requests_of (log s))
  /\ (truthy (token (cache s)) = false
      \/ (expires_at (cache s) - 30 <= clock W (log s))%Q ->
      requests_of (log (snd rs)) = requests_of (log s) ++ [token_request cfg]).
Proof.
  cbv zeta. split.
  - intros Htok Hlt. rewrite (oauth_hit_run W cfg s Htok Hlt). simpl.
    unfold requests_of. rewrite flat_map_app. apply app_nil_r.
  - intros Hmiss. rewrite (oauth_miss_run W cfg s Hmiss).
    assert (Hreq : requests_of (log_at_request s ++ [EvRequest (token_request cfg)])
                   = requests_of (log s) ++ [token_request cfg]).
    { unfold log_at_request.
      destruct (truthy (token (cache s))); unfold requests_of;
        rewrite !flat_map_app; simpl; now rewrite ?app_nil_r. }
    destruct (net W (log_at_request s) (token_request cfg)) as [msg | resp];
      [ exact Hreq | ].
    destruct (300 <=? resp_status_code resp); [ exact Hreq | ].
    destruct (dget (token_payload resp) "access_token") as [tok | e];
      [ | exact Hreq ].
    destruct (dget_default (token_payload resp) "expires_in" (VInt 3600))
      as [expires_in | e]; [ | exact Hreq ].
    destruct (negb (truthy tok)); [ exact Hreq | ].
    destruct (Py.int expires_in) as [n | e]; [ | exact Hreq ].
    simpl log. unfold requests_of in *. rewrite flat_map_app. simpl.
    rewrite app_nil_r. exact Hreq.
Qed.

Lemma last_nonempty {A : Type} (x : A) (l : list A) (d d' : A) :
  last (x :: l) d = last (x :: l) d'.
Proof.
  revert x. induction l as [ | y l IH ]; intros x; [ reflexivity | ].
  change (last (y :: l) d = last (y :: l) d'). apply IH.
Qed.

Lemma state_after_cons rs rest s :
  state_after (rs :: rest) s = state_after rest (snd rs).
Proof.
  unfold state_after. destruct rest as [ | a l ]; [ reflexivity | ].
  change (snd (last (a :: l) (Raise TypeError, s))
          = snd (last (a :: l) (Raise TypeError, snd rs))).
  f_equal. apply last_nonempty.
Qed.

(** When no call of a run obtains a token, the cache stays as it was. *)
Lemma acquisitions_idle W cfg n s :
  (forall j rj sj,
      nth_error (acquisitions W cfg n s) j = Some (rj, sj) -> issued rj = None) ->
  cache (state_after (acquisitions W cfg n s) s) = cache s.
Proof.
  revert s. induction n as [ | n IH ]; intros s Hnone; [ reflexivity | ].
  simpl. rewrite state_after_cons.
  rewrite IH.
  - destruct (acquire_effect W cfg s) as [[_ Hc] | [tok [Hi _]]]; [ exact Hc | ].
    specialize (Hnone 0%nat (fst (get_oauth_token W cfg s))
                  (snd (get_oauth_token W cfg s))).
    simpl in Hnone. rewrite <- surjective_pairing in Hnone.
    rewrite (Hnone eq_refl) in Hi. discriminate.
  - intros j rj sj Hj. apply (Hnone (S j) rj sj). exact Hj.
Qed.

(** C9, as amended.  The cache is not protected by any lock: the steps
    of two callers may interleave.  What holds is the sequential
    discipline.  A caller that runs alone computes [get_oauth_token], and
    two callers scheduled one after the other are two calls in
    sequence; and when the calls follow one another, each makes no request on a
    fresh cache and exactly one otherwise, and after the run the cache
    holds the token of the latest call that obtained one, exactly as
    that call left it (the cache is untouched when no call obtained a
    token). *)
Theorem sequential_acquisitions W cfg n s :
  let run := acquisitions W cfg n s in
  alone W cfg 4 AtStart s
  = (Finished (fst (get_oauth_token W cfg s)), snd (get_oauth_token W cfg s))
  /\ run_schedule W cfg (repeat T1 4 ++ repeat T2 4) (both_start s)
     = {| pc1 := Finished (fst (get_oauth_token W cfg s));
          pc2 := Finished (fst (get_oauth_token W cfg
                                  (snd (get_oauth_token W cfg s))));
          shared := snd (get_oauth_token W cfg
                           (snd (get_oauth_token W cfg s))) |}
  /\ (forall k r sk tok,
         nth_error run k = Some (r, sk) ->
         issued r = Some tok ->
         (forall j rj sj,
             (k < j)%nat -> nth_error run j = Some (rj, sj) -> issued rj = None) ->
         cache (state_after run s) = cache sk /\ token (cache sk) = tok)
  /\ ((forall j rj sj, nth_error run j = Some (rj, sj) -> issued rj = None) ->
      cache (state_after run s) = cache s)
  /\ (forall s0,
         let rs := get_oauth_token W cfg s0 in
         (truthy (token (cache s0)) = true ->
          (clock W (log s0) < expires_at (cache s0) - 30)%Q ->
          requests_of (log (snd rs)) = requests_of (log s0))
         /\ (truthy (token (cache s0)) = false
             \/ (expires_at (cache s0) - 30 <= clock W (log s0))%Q ->
             requests_of (log (snd rs)) = requests_of (log s0) ++ [token_request cfg])).
Proof.
  intros run. split; [ apply thread_alone_refines | ].
  split; [ apply serial_schedule | ].
  split; [ | split; [ apply acquisitions_idle | intros s0; apply acquire_requests ] ].
  unfold run. clear run. revert s.
  induction n as [ | n IH ]; intros s k r sk tok Hk Hi Hlater.
  - destruct k; discriminate.
  - simpl in Hk |- *. rewrite state_after_cons.
    destruct k as [ | k ].
    + simpl in Hk. inversion Hk as [E]. clear Hk.
      assert (Er : r = fst (get_oauth_token W cfg s)) by now rewrite E.
      assert (Es : sk = snd (get_oauth_token W cfg s)) by now rewrite E.
      subst r sk. split.
      * apply acquisitions_idle. intros j rj sj Hj.
        apply (Hlater (S j) rj sj); [ apply Nat.lt_0_succ | exact Hj ].
      * destruct (acquire_effect W cfg s) as [[Hnone _] | [tok' [Hi' Ht]]].
        -- rewrite Hnone in Hi. discriminate.
        -- rewrite Hi' in Hi. now inversion Hi; subst.
    + simpl in Hk. apply (IH _ k r sk tok Hk Hi).
      intros j rj sj Hlt Hj. apply (Hlater (S j) rj sj); [ | exact Hj ].
      now apply -> Nat.succ_lt_mono.
Qed.

Lemma sequential_acquisitions_witness :
  cache (state_after (acquisitions world_two_tokens sample_oauth_cfg 3 fresh_state)
           fresh_state)
  = {| token := VStr "T1"; expires_at := 1 + inject_Z (Z.max 0 100) |}.
Proof.
  destruct (sequential_acquisitions world_two_tokens sample_oauth_cfg 3 fresh_state)
    as (_ & _ & Hlatest & _).
  cbv zeta in Hlatest.
  let v := eval vm_compute in
      (nth_error (acquisitions world_two_tokens sample_oauth_cfg 3 fresh_state) 0) in
  match v with
  | Some (?r, ?sk) =>
      destruct (Hlatest 0%nat r sk (VStr "T1")) as [Hc _];
        [ vm_compute; reflexivity | reflexivity | | rewrite Hc; reflexivity ]
  end.
  intros [ | [ | [ | j ] ] ] rj sj Hlt Hj.
  - inversion Hlt.
  - vm_compute in Hj. inversion Hj. reflexivity.
  - vm_compute in Hj. inversion Hj. reflexivity.
  - destruct j; discriminate Hj.
Defined.

(** C9 as stated fails: nothing serialises the callers.  With two
    callers on an empty cache, both can miss and both send a request
    while the other's is in flight; their writes can interleave so that
    the cache holds the second token with the first token's lifetime;
    and the writes can land in the other order, leaving the token that
    was issued first. *)
Lemma unsynchronized_cache_races :
  let W := world_two_tokens in
  let both_sent := run_schedule W sample_oauth_cfg [T1; T2; T1; T2]
                     (both_start fresh_state) in
  let mixed := run_schedule W sample_oauth_cfg [T1; T2; T2; T1] both_sent in
  let stale := run_schedule W sample_oauth_cfg [T2; T2; T1; T1] both_sent in
  in_flight (pc1 both_sent) = true
  /\ in_flight (pc2 both_sent) = true
  /\ requests_of (log (shared both_sent))
     = [token_request sample_oauth_cfg; token_request sample_oauth_cfg]
  /\ pc1 mixed = Finished (Ret (true, VDict [("access_token", VStr "T1");
                                             ("cached", VBool false)]))
  /\ pc2 mixed = Finished (Ret (true, VDict [("access_token", VStr "T2");
                                             ("cached", VBool false)]))
  /\ token (cache (shared mixed)) = VStr "T2"
  /\ (expires_at (cache (shared mixed)) == 3 + 100)%Q
  /\ token (cache (shared stale)) = VStr "T1".
Proof.
  cbv zeta. repeat split; reflexivity.
Qed.

End CacheFacts.

(* ================================================================== *)
(** ** The tool-use loop ([epm_orchestrator_gui.py],
       [orchestrator_claude_mcp_epm.py]) *)
(* ================================================================== *)

Module OrchestratorFacts.
Import Orchestrator.

Lemma dispatch_total A describe tool_uses s :
  exists results,
    dispatch A describe tool_uses s
    = (Ret results, {| calls := calls s ++ tool_calls tool_uses;
                       messages := messages s |})
    /\ Forall2 answers tool_uses results
    /\ forall i tu,
         nth_error tool_uses i = Some tu ->
         nth_error results i
         = Some (result_of A describe (calls s ++ tool_calls (firstn i tool_uses)) tu).
Proof.
  revert s. induction tool_uses as [ | tu rest IH ]; intros s.
  - exists []. simpl. unfold ret. rewrite app_nil_r. destruct s.
    repeat split; [ constructor | intros [ | i] tu; discriminate ].
  - destruct (IH {| calls := calls s ++ [EvCallTool (tu_name tu) (tu_input tu)];
                    messages := messages s |}) as [results [Hd [Hans Hnth]]].
    exists (result_of A describe (calls s) tu :: results).
    split; [ | split ].
    + simpl. unfold bind at 1, call_tool at 1.
      rewrite (bind_ret_eq _ _ _ _ _ Hd). unfold ret. simpl.
      now rewrite <- app_assoc.
    + constructor; [ | exact Hans ].
      unfold answers, result_of.
      destruct (tool A (calls s) (tu_name tu) (tu_input tu)); now split.
    + intros [ | i] tu' Hi; simpl in Hi.
      * inversion Hi; subst. simpl. now rewrite app_nil_r.
      * simpl. rewrite (Hnth i tu' Hi). simpl. now rewrite <- app_assoc.
Qed.

Lemma tool_uses_cons_inv (content : list block) :
  tool_uses_of content <> [] ->
  exists tu rest, tool_uses_of content = tu :: rest.
Proof. destruct (tool_uses_of content) as [ | tu rest ]; [ easy | eauto ]. Qed.

(** One turn of the GUI loop that asks for tools. *)
Lemma gui_turn_with_tools A fuel tools content s :
  tool_uses_of content <> [] ->
  exists results,
    Forall2 answers (tool_uses_of content) results
    /\ (forall i tu,
           nth_error (tool_uses_of content) i = Some tu ->
           nth_error results i
           = Some (result_of A exc_repr
                     (calls s ++ tool_calls (firstn i (tool_uses_of content))) tu))
    /\ Gui.run_loop A (S fuel) tools content s
       = bind (create A (Gui.tools_arg tools)) (Gui.run_loop A fuel tools)
           {| calls := calls s ++ tool_calls (tool_uses_of content);
              messages := messages s
                          ++ [assistant_turn (_blocks_to_dicts content);
                              user_turn results] |}.
Proof.
  intros Hne.
  destruct (dispatch_total A exc_repr (tool_uses_of content)
              {| calls := calls s;
                 messages := messages s ++ [assistant_turn (_blocks_to_dicts content)] |})
    as [results [Hd [Hans Hnth]]].
  exists results. split; [ exact Hans | ]. split; [ exact Hnth | ].
  destruct (tool_uses_cons_inv content Hne) as [tu [rest E]].
  simpl. unfold bind at 1, append_message at 1. rewrite E in *.
  rewrite (bind_ret_eq _ _ _ _ _ Hd).
  unfold bind at 1, append_message at 1. simpl. now rewrite <- app_assoc.
Qed.

(** One turn of the command-line loop that asks for tools. *)
Lemma cli_turn_with_tools A fuel tools content s :
  tool_uses_of content <> [] ->
  exists results,
    Forall2 answers (tool_uses_of content) results
    /\ (forall i tu,
           nth_error (tool_uses_of content) i = Some tu ->
           nth_error results i
           = Some (result_of A exc_str
                     (calls s ++ tool_calls (firstn i (tool_uses_of content))) tu))
    /\ Cli.tool_use_loop A (S fuel) tools content s
       = bind (create A (Some tools)) (Cli.tool_use_loop A fuel tools)
           {| calls := calls s ++ tool_calls (tool_uses_of content);
              messages := messages s
                          ++ [assistant_turn (_blocks_to_dicts content);
                              user_turn results] |}.
Proof.
  intros Hne.
  destruct (dispatch_total A exc_str (tool_uses_of content)
              {| calls := calls s;
                 messages := messages s ++ [assistant_turn (_blocks_to_dicts content)] |})
    as [results [Hd [Hans Hnth]]].
  exists results. split; [ exact Hans | ]. split; [ exact Hnth | ].
  destruct (tool_uses_cons_inv content Hne) as [tu [rest E]].
  simpl. unfold bind at 1, append_message at 1. unfold Cli.blocks_to_dicts.
  rewrite E in *.
  rewrite (bind_ret_eq _ _ _ _ _ Hd).
  unfold bind at 1, append_message at 1. simpl. now rewrite <- app_assoc.
Qed.



(** *** Requests and results correspond one to one *)





Lemma gui_turn_without_tools A fuel tools content s :
  tool_uses_of content = [] ->
  Gui.run_loop A (S fuel) tools content s
  = (match _extract_text (_blocks_to_dicts content) with
     | Ret text =>
         Ret (Some (if Str.nonempty text then text else "(no text returned)"))
     | Raise e => Raise e
     end,
     {| calls := calls s;
        messages := messages s ++ [assistant_turn (_blocks_to_dicts content)] |}).
Proof.
  intros E. simpl. rewrite E. unfold bind at 1, append_message at 1.
  rewrite bind_lift. now destruct (_extract_text _).
Qed.

Lemma cli_turn_without_tools A fuel tools content s :
  tool_uses_of content = [] ->
  Cli.tool_use_loop A (S fuel) tools content s
  = (match _extract_text (_blocks_to_dicts content) with
     | Ret text => Ret (Some text)
     | Raise e => Raise e
     end,
     {| calls := calls s;
        messages := messages s ++ [assistant_turn (_blocks_to_dicts content)] |}).
Proof.
  intros E. simpl. rewrite E. unfold bind at 1, append_message at 1.
  rewrite bind_lift. unfold Cli.extract_text, Cli.blocks_to_dicts.
  now destruct (_extract_text _).
Qed.

Lemma tool_uses_dec (content : list block) :
  tool_uses_of content = [] \/ tool_uses_of content <> [].
Proof. destruct (tool_uses_of content); [ now left | now right ]. Qed.






End OrchestratorFacts.

(* ================================================================== *)
(** * Further properties of the code *)
(* ================================================================== *)

From Stdlib Require Import Lqa.

(** ** Facts about the string methods *)

Module StrFacts.

Lemma append_nil_r (s : string) : (s ++ EmptyString)%string = s.
Proof. induction s as [ | c r IH ]; simpl; [ reflexivity | now rewrite IH ]. Qed.

Lemma append_assoc (a b c : string) :
  ((a ++ b) ++ c)%string = (a ++ (b ++ c))%string.
Proof. induction a as [ | x r IH ]; simpl; [ reflexivity | now rewrite IH ]. Qed.

Lemma length_append (a b : string) :
  String.length (a ++ b) = (String.length a + String.length b)%nat.
Proof. induction a as [ | x r IH ]; simpl; [ reflexivity | now rewrite IH ]. Qed.

Lemma substring_prefix (a b : string) :
  String.substring 0 (String.length a) (a ++ b) = a.
Proof. induction a as [ | x r IH ]; simpl; [ now destruct b | now rewrite IH ]. Qed.

Lemma substring_suffix (a b : string) :
  String.substring (String.length a) (String.length b) (a ++ b) = b.
Proof.
  induction a as [ | x r IH ]; simpl; [ | exact IH ].
  induction b as [ | y s IH ]; simpl; [ reflexivity | now rewrite IH ].
Qed.

Lemma endswith_append (a p : string) : Str.endswith p (a ++ p) = true.
Proof.
  unfold Str.endswith. rewrite length_append.
  replace (String.length a + String.length p - String.length p)%nat
    with (String.length a) by lia.
  rewrite substring_suffix, String.eqb_refl, andb_true_r.
  apply Nat.leb_le. lia.
Qed.

Lemma drop_last_append (a p : string) :
  Str.drop_last (String.length p) (a ++ p) = a.
Proof.
  unfold Str.drop_last. rewrite length_append.
  replace (String.length a + String.length p - String.length p)%nat
    with (String.length a) by lia.
  apply substring_prefix.
Qed.

Lemma lower_append (a b : string) :
  Str.lower (a ++ b) = (Str.lower a ++ Str.lower b)%string.
Proof. induction a as [ | x r IH ]; simpl; [ reflexivity | now rewrite IH ]. Qed.

Lemma lower_length (s : string) : String.length (Str.lower s) = String.length s.
Proof. induction s as [ | c r IH ]; simpl; [ reflexivity | now rewrite IH ]. Qed.

(** Lower-casing moves no character into or out of the white space and
    leaves the slash alone. *)
Lemma is_space_lower_char (c : ascii) :
  Str.is_space (Str.lower_char c) = Str.is_space c.
Proof. destruct c as [[] [] [] [] [] [] [] []]; reflexivity. Qed.

Lemma slash_lower_char (c : ascii) :
  Ascii.eqb "/" (Str.lower_char c) = Ascii.eqb "/" c.
Proof. destruct c as [[] [] [] [] [] [] [] []]; reflexivity. Qed.

(** [rstrip] leaves none of the stripped characters at the end. *)
Lemma rstrip_by_no_trailing (p : ascii -> bool) (c : ascii) (s : string) :
  p c = true -> no_trailing c (Str.rstrip_by p s).
Proof.
  intros Hc. induction s as [ | a r IH ]; intros t.
  - simpl. destruct t; discriminate.
  - simpl. destruct (Str.rstrip_by p r) as [ | b r' ] eqn:E.
    + destruct (p a) eqn:Ha.
      * destruct t; discriminate.
      * destruct t as [ | x t ]; simpl.
        -- intros H. inversion H; subst. congruence.
        -- intros H. inversion H. destruct t; discriminate.
    + destruct t as [ | x t ]; simpl.
      * discriminate.
      * intros H. inversion H as [[Hx Ht]]. now apply (IH t).
Qed.

(** [rstrip] does nothing to a string that ends with another
    character. *)
Lemma rstrip_by_keep (p : ascii -> bool) (c : ascii) (t : string) :
  p c = false ->
  Str.rstrip_by p (t ++ String c EmptyString) = (t ++ String c EmptyString)%string.
Proof.
  intros Hc. induction t as [ | a r IH ]; simpl.
  - now rewrite Hc.
  - rewrite IH. now destruct r.
Qed.

(** [rstrip] twice is [rstrip] once. *)
Lemma rstrip_by_idempotent (p : ascii -> bool) (s : string) :
  Str.rstrip_by p (Str.rstrip_by p s) = Str.rstrip_by p s.
Proof.
  induction s as [ | a r IH ]; [ reflexivity | ].
  simpl. destruct (Str.rstrip_by p r) as [ | b r' ] eqn:E.
  - destruct (p a) eqn:Ha; simpl; [ reflexivity | now rewrite Ha ].
  - simpl in IH |- *. now rewrite IH.
Qed.

(** [rstrip("/")] does nothing to a string without a trailing slash. *)
Lemma rstrip_slash_fixed (s : string) :
  no_trailing "/" s -> Str.rstrip_slash s = s.
Proof.
  unfold Str.rstrip_slash. induction s as [ | a r IH ]; intros H; [ reflexivity | ].
  cbn [Str.rstrip_by]. rewrite IH.
  - destruct r as [ | b r ]; [ | reflexivity ].
    destruct (Ascii.eqb_spec "/" a) as [ <- | _ ]; [ | reflexivity ].
    exfalso. now apply (H EmptyString).
  - intros t E. apply (H (String a t)). simpl. now rewrite E.
Qed.

Lemma nonempty_iff (s : string) : Str.nonempty s = true <-> s <> EmptyString.
Proof. destruct s; simpl; split; congruence. Qed.

Lemma nonempty_false_iff (s : string) : Str.nonempty s = false <-> s = EmptyString.
Proof. destruct s; simpl; split; congruence. Qed.

Lemma lstrip_by_clean (s : string) :
  starts_clean s = true -> Str.lstrip_by Str.is_space s = s.
Proof.
  destruct s as [ | c r ]; [ reflexivity | ].
  simpl. intros H. apply negb_true_iff in H. now rewrite H.
Qed.

(** A string whose lower case is ["/epmcloud"]: nine characters, a slash
    first, and neither white space nor a slash last. *)
Lemma epmcloud_suffix_shape (sfx : string) :
  Str.lower sfx = "/epmcloud" ->
  String.length sfx = 9%nat
  /\ (forall h, starts_clean (h ++ sfx) = starts_clean h || match h with
                                                            | EmptyString => true
                                                            | _ => false
                                                            end)
  /\ exists body last,
       sfx = (body ++ String last EmptyString)%string
       /\ Str.is_space last = false
       /\ Ascii.eqb "/" last = false.
Proof.
  intros H.
  assert (Hlen : String.length sfx = 9%nat)
    by (rewrite <- lower_length, H; reflexivity).
  split; [ exact Hlen | ].
  do 9 (destruct sfx as [ | ? sfx ]; [ discriminate Hlen | ]).
  destruct sfx; [ | discriminate Hlen ].
  simpl in H. injection H as H1 H2 H3 H4 H5 H6 H7 H8 H9.
  split.
  - intros h. destruct h as [ | c h ]; simpl.
    + rewrite <- is_space_lower_char, H1. reflexivity.
    + now rewrite orb_false_r.
  - eexists (String _ (String _ (String _ (String _ (String _ (String _
              (String _ (String _ EmptyString)))))))), _.
    split; [ reflexivity | ]. split.
    + rewrite <- is_space_lower_char, H9. reflexivity.
    + rewrite <- slash_lower_char, H9. reflexivity.
Qed.

End StrFacts.

(* ================================================================== *)
(** ** Configuration *)
(* ================================================================== *)

Module ConfigFacts.
Import StrFacts.

Lemma strip_clean_suffix (h sfx : string) :
  starts_clean h = true ->
  Str.lower sfx = "/epmcloud" ->
  Str.rstrip_slash (Str.strip (h ++ sfx)) = (h ++ sfx)%string.
Proof.
  intros Hh Hs.
  destruct (epmcloud_suffix_shape sfx Hs) as (_ & Hstart & body & last & E & Hsp & Hsl).
  assert (Hclean : starts_clean (h ++ sfx) = true)
    by (rewrite Hstart, Hh; reflexivity).
  unfold Str.strip, Str.rstrip_slash. rewrite (lstrip_by_clean _ Hclean).
  rewrite E, <- append_assoc.
  now rewrite !rstrip_by_keep.
Qed.

Lemma derived_base_url_no_slash (url : string) :
  no_trailing "/" (strip_epmcloud url).
Proof. unfold strip_epmcloud, Str.rstrip_slash. now apply rstrip_by_no_trailing. Qed.

Lemma strip_epmcloud_suffix (h sfx : string) :
  starts_clean h = true ->
  Str.lower sfx = "/epmcloud" ->
  strip_epmcloud (h ++ sfx) = Str.rstrip_slash h.
Proof.
  intros Hh Hs. unfold strip_epmcloud.
  rewrite (strip_clean_suffix h sfx Hh Hs).
  destruct (epmcloud_suffix_shape sfx Hs) as (Hlen & _).
  rewrite lower_append, Hs, endswith_append.
  change (String.length "/epmcloud") with 9%nat. rewrite <- Hlen.
  now rewrite drop_last_append.
Qed.

(** *** Trimming *)

Lemma lstrip_by_all (p : ascii -> bool) (pre x : string) :
  all_chars p pre = true -> Str.lstrip_by p (pre ++ x) = Str.lstrip_by p x.
Proof.
  induction pre as [ | c r IH ]; [ reflexivity | ].
  cbn [all_chars]. intros H. apply andb_true_iff in H. destruct H as (Hc & Hr).
  change ((String c r ++ x)%string) with (String c (r ++ x)%string).
  cbn [Str.lstrip_by]. rewrite Hc. now apply IH.
Qed.

Lemma lstrip_by_all_nil (p : ascii -> bool) (s : string) :
  all_chars p s = true -> Str.lstrip_by p s = EmptyString.
Proof.
  intros H. rewrite <- (append_nil_r s). now rewrite lstrip_by_all.
Qed.

Lemma rstrip_by_all_nil (p : ascii -> bool) (s : string) :
  all_chars p s = true -> Str.rstrip_by p s = EmptyString.
Proof.
  induction s as [ | c r IH ]; [ reflexivity | ].
  cbn [all_chars]. intros H. apply andb_true_iff in H. destruct H as (Hc & Hr).
  cbn [Str.rstrip_by]. now rewrite (IH Hr), Hc.
Qed.

Lemma rstrip_by_all (p : ascii -> bool) (x post : string) :
  all_chars p post = true -> Str.rstrip_by p (x ++ post) = Str.rstrip_by p x.
Proof.
  intros H. induction x as [ | c r IH ].
  - now apply rstrip_by_all_nil.
  - change ((String c r ++ post)%string) with (String c (r ++ post)%string).
    cbn [Str.rstrip_by]. now rewrite IH.
Qed.

Lemma rstrip_by_none (p : ascii -> bool) (s : string) :
  all_chars (fun c => negb (p c)) s = true -> Str.rstrip_by p s = s.
Proof.
  induction s as [ | c r IH ]; [ reflexivity | ].
  cbn [all_chars]. intros H. apply andb_true_iff in H. destruct H as (Hc & Hr).
  apply negb_true_iff in Hc. cbn [Str.rstrip_by]. rewrite (IH Hr).
  destruct r; [ now rewrite Hc | reflexivity ].
Qed.

Lemma rstrip_by_app_stop (p : ascii -> bool) (x y : string) :
  Str.rstrip_by p y = y -> y <> EmptyString ->
  Str.rstrip_by p (x ++ y) = (x ++ y)%string.
Proof.
  intros Hy Hne. induction x as [ | c r IH ]; [ exact Hy | ].
  change ((String c r ++ y)%string) with (String c (r ++ y)%string).
  cbn [Str.rstrip_by]. rewrite IH.
  destruct (r ++ y)%string eqn:E; [ | reflexivity ].
  destruct r; [ now destruct Hne | discriminate E ].
Qed.

Lemma all_chars_impl (p q : ascii -> bool) (s : string) :
  (forall c, p c = true -> q c = true) -> all_chars p s = true -> all_chars q s = true.
Proof.
  intros Hpq. induction s as [ | c r IH ]; [ reflexivity | ].
  cbn [all_chars]. intros H. apply andb_true_iff in H. destruct H as (Hc & Hr).
  now rewrite (Hpq c Hc), (IH Hr).
Qed.

Lemma slash_not_space (c : ascii) :
  Ascii.eqb "/" c = true -> negb (Str.is_space c) = true.
Proof. intros H. apply Ascii.eqb_eq in H. now subst c. Qed.

Lemma starts_clean_append (body rest : string) :
  body <> EmptyString -> starts_clean (body ++ rest) = starts_clean body.
Proof. destruct body; [ congruence | reflexivity ]. Qed.

(** The URL with the white space around it and then its trailing
    slashes removed, for a URL written as white space, a body, slashes
    and white space. *)
Lemma trimmed_raw (pre body slashes post : string) :
  all_chars Str.is_space pre = true ->
  all_chars Str.is_space post = true ->
  all_chars (Ascii.eqb "/") slashes = true ->
  starts_clean body = true ->
  ends_clean body ->
  Str.rstrip_slash (Str.strip (pre ++ body ++ slashes ++ post)) = body.
Proof.
  intros Hpre Hpost Hsl Hstart Hend. unfold Str.strip, Str.rstrip_slash.
  rewrite (lstrip_by_all _ pre _ Hpre).
  pose proof (all_chars_impl _ (fun c => negb (Str.is_space c)) slashes
                slash_not_space Hsl) as Hsl'.
  destruct Hend as [ -> | (t & c & -> & Hsp & Hc) ].
  - cbn [append]. destruct slashes as [ | a r ].
    + cbn [append]. now rewrite (lstrip_by_all_nil _ post Hpost).
    + rewrite lstrip_by_clean.
      * rewrite (rstrip_by_all _ _ post Hpost), (rstrip_by_none _ _ Hsl').
        now apply rstrip_by_all_nil.
      * cbn [all_chars] in Hsl'. apply andb_true_iff in Hsl'. now destruct Hsl'.
  - rewrite lstrip_by_clean.
    + rewrite <- append_assoc, (rstrip_by_all _ _ post Hpost).
      assert (Hkeep : Str.rstrip_by Str.is_space
                        ((t ++ String c EmptyString) ++ slashes)
                      = ((t ++ String c EmptyString) ++ slashes)%string).
      { destruct slashes as [ | a r ].
        - rewrite append_nil_r. now apply rstrip_by_keep.
        - apply rstrip_by_app_stop; [ now apply rstrip_by_none | discriminate ]. }
      rewrite Hkeep, (rstrip_by_all _ _ slashes Hsl).
      now apply rstrip_by_keep.
    + rewrite starts_clean_append; [ exact Hstart | ].
      destruct t; discriminate.
Qed.

Lemma substring_split (n : nat) (s : string) :
  (n <= String.length s)%nat ->
  s = (String.substring 0 n s ++ String.substring n (String.length s - n) s)%string.
Proof.
  revert s. induction n as [ | n IH ]; intros s Hn.
  - rewrite Nat.sub_0_r.
    replace (String.substring 0 0 s) with EmptyString by now destruct s.
    cbn [append]. rewrite <- (append_nil_r s) at 2.
    rewrite <- (substring_prefix s EmptyString) at 1. now rewrite append_nil_r.
  - destruct s as [ | c r ]; [ inversion Hn | ].
    cbn [String.length] in Hn |- *. cbn [String.substring Nat.sub append].
    now rewrite <- (IH r) by lia.
Qed.

Lemma lower_substring (n m : nat) (s : string) :
  Str.lower (String.substring n m s) = String.substring n m (Str.lower s).
Proof.
  revert n m. induction s as [ | c r IH ]; intros n m.
  - now destruct n, m.
  - destruct n as [ | n ]; destruct m as [ | m ]; cbn [String.substring Str.lower];
      try reflexivity; try now rewrite IH.
Qed.

(** A string that ends, in some case, with [/epmcloud] is a head and
    that suffix. *)
Lemma endswith_epmcloud_split (u : string) :
  Str.endswith "/epmcloud" (Str.lower u) = true ->
  exists h sfx, u = (h ++ sfx)%string /\ Str.lower sfx = "/epmcloud".
Proof.
  unfold Str.endswith. rewrite lower_length. intros H.
  apply andb_true_iff in H. destruct H as (Hlen & Heq).
  apply Nat.leb_le in Hlen. apply String.eqb_eq in Heq.
  change (String.length "/epmcloud") with 9%nat in *.
  exists (String.substring 0 (String.length u - 9) u),
    (String.substring (String.length u - 9) 9 u).
  split.
  - rewrite (substring_split (String.length u - 9) u) at 1 by lia.
    now replace (String.length u - (String.length u - 9))%nat with 9%nat by lia.
  - now rewrite lower_substring.
Qed.

Lemma strip_epmcloud_trimmed (url h sfx : string) :
  Str.rstrip_slash (Str.strip url) = (h ++ sfx)%string ->
  Str.lower sfx = "/epmcloud" ->
  strip_epmcloud url = Str.rstrip_slash h.
Proof.
  intros Hu Hs. unfold strip_epmcloud. rewrite Hu.
  destruct (epmcloud_suffix_shape sfx Hs) as (Hlen & _).
  rewrite lower_append, Hs, endswith_append.
  change (String.length "/epmcloud") with 9%nat. rewrite <- Hlen.
  now rewrite drop_last_append.
Qed.

(** X1.  [_derive_base_url] and [_normalize_base_url].  Let [u] be the
    URL with the white space around it and then its trailing slashes
    removed.  The result never ends with a slash.  When [u] ends, in
    any case, with [/epmcloud], [u] is a head followed by that suffix
    and the result is the head without its trailing slashes; otherwise
    the result is [u].  For a URL written as white space, a body,
    slashes and white space, [u] is the body: so
    [  https://h//EpmCloud/ ] gives [https://h], and a body that does
    not end with [/epmcloud] is returned as it is. *)
Theorem derived_base_url (url : string) :
  let u := Str.rstrip_slash (Str.strip url) in
  no_trailing "/" (strip_epmcloud url)
  /\ (Str.endswith "/epmcloud" (Str.lower u) = true ->
      exists h sfx, u = (h ++ sfx)%string /\ Str.lower sfx = "/epmcloud")
  /\ (forall h sfx,
         u = (h ++ sfx)%string ->
         Str.lower sfx = "/epmcloud" ->
         strip_epmcloud url = Str.rstrip_slash h)
  /\ (Str.endswith "/epmcloud" (Str.lower u) = false -> strip_epmcloud url = u)
  /\ (forall pre body slashes post,
         url = (pre ++ body ++ slashes ++ post)%string ->
         all_chars Str.is_space pre = true ->
         all_chars Str.is_space post = true ->
         all_chars (Ascii.eqb "/") slashes = true ->
         starts_clean body = true ->
         ends_clean body ->
         u = body)
  /\ (forall pre h sfx slashes post,
         url = (pre ++ (h ++ sfx) ++ slashes ++ post)%string ->
         all_chars Str.is_space pre = true ->
         all_chars Str.is_space post = true ->
         all_chars (Ascii.eqb "/") slashes = true ->
         starts_clean h = true ->
         Str.lower sfx = "/epmcloud" ->
         strip_epmcloud url = Str.rstrip_slash h).
Proof.
  cbv zeta. split; [ apply derived_base_url_no_slash | ].
  split; [ apply endswith_epmcloud_split | ].
  split; [ intros h sfx; apply strip_epmcloud_trimmed | ].
  split.
  { intros H. unfold strip_epmcloud. rewrite H. apply rstrip_by_idempotent. }
  split.
  { intros pre body slashes post -> Hpre Hpost Hsl Hstart Hend.
    now apply trimmed_raw. }
  intros pre h sfx slashes post -> Hpre Hpost Hsl Hstart Hs.
  apply (strip_epmcloud_trimmed _ h sfx); [ | exact Hs ].
  destruct (epmcloud_suffix_shape sfx Hs) as (_ & Hclean & body & last & E & Hsp & Hc).
  apply trimmed_raw; try assumption.
  - rewrite Hclean, Hstart. reflexivity.
  - right. exists (h ++ body)%string, last.
    split; [ now rewrite E, append_assoc | now split ].
Qed.

Lemma derived_base_url_witness :
  strip_epmcloud "  https://epm.example.com//EpmCloud/ " = "https://epm.example.com"
  /\ strip_epmcloud " https://epm.example.com/epm// " = "https://epm.example.com/epm".
Proof.
  split.
  - exact (proj2 (proj2 (proj2 (proj2 (proj2
             (derived_base_url "  https://epm.example.com//EpmCloud/ ")))))
             "  " "https://epm.example.com/" "/EpmCloud" "/" " "
             eq_refl eq_refl eq_refl eq_refl eq_refl eq_refl).
  - destruct (derived_base_url " https://epm.example.com/epm// ")
      as (_ & _ & _ & Hplain & Hraw & _).
    rewrite (Hplain eq_refl).
    apply (Hraw " " "https://epm.example.com/epm" "//" " ");
      try reflexivity.
    right. now exists "https://epm.example.com/ep", "m"%char.
Defined.

(** What the three-variable check of the interop servers lets through,
    and what it reports. *)
Lemma missing_three (n1 n2 n3 v1 v2 v3 : string) :
  match missing_of [(n1, v1); (n2, v2); (n3, v3)] with
  | [] => v1 <> EmptyString /\ v2 <> EmptyString /\ v3 <> EmptyString
  | missing =>
      missing = (if Str.nonempty v1 then [] else [n1])
                ++ (if Str.nonempty v2 then [] else [n2])
                ++ (if Str.nonempty v3 then [] else [n3])
  end.
Proof.
  unfold missing_of. simpl.
  destruct v1, v2, v3; simpl; repeat split; congruence.
Qed.

(** X2.  [load_config] of the dual-base server: a configuration has a
    user, a password and a service URL, none empty; neither URL ends
    with a slash; the base URL is the service URL without its
    [/epmcloud]; and for a service URL [h/epmcloud] the second candidate
    of the dual-base GET is the service URL itself followed by the
    path.  Otherwise the error names the variables that are empty, in
    the order URL, user, password. *)
Theorem dualbase_config_contract (W : world) :
  match Dualbase.load_config W with
  | Ret cfg =>
      Dualbase.service_url cfg <> EmptyString
      /\ Dualbase.username cfg = getenv_or_empty W "EPM_USERNAME"
      /\ Dualbase.password cfg = getenv_or_empty W "EPM_PASSWORD"
      /\ Dualbase.username cfg <> EmptyString
      /\ Dualbase.password cfg <> EmptyString
      /\ no_trailing "/" (Dualbase.service_url cfg)
      /\ no_trailing "/" (Dualbase.base_url cfg)
      /\ Dualbase.base_url cfg = strip_epmcloud (Dualbase.service_url cfg)
      /\ (forall h,
             Dualbase.service_url cfg = (h ++ "/epmcloud")%string ->
             starts_clean h = true ->
             no_trailing "/" h ->
             Dualbase.base_url cfg = h
             /\ forall path,
                  (Dualbase.base_url cfg ++ "/epmcloud" ++ path)%string
                  = (Dualbase.service_url cfg ++ path)%string)
  | Raise e =>
      exists missing,
        e = missing_error missing
        /\ missing <> []
        /\ missing
           = (if Str.nonempty (Str.rstrip_slash
                                 (Str.strip (getenv_or_empty W "EPM_SERVICE_URL")))
              then [] else ["EPM_SERVICE_URL"])
             ++ (if Str.nonempty (getenv_or_empty W "EPM_USERNAME")
                 then [] else ["EPM_USERNAME"])
             ++ (if Str.nonempty (getenv_or_empty W "EPM_PASSWORD")
                 then [] else ["EPM_PASSWORD"])
  end.
Proof.
  unfold Dualbase.load_config.
  pose proof (missing_three "EPM_SERVICE_URL" "EPM_USERNAME" "EPM_PASSWORD"
                (Str.rstrip_slash (Str.strip (getenv_or_empty W "EPM_SERVICE_URL")))
                (getenv_or_empty W "EPM_USERNAME")
                (getenv_or_empty W "EPM_PASSWORD")) as Hm.
  cbv zeta.
  destruct (missing_of _) as [ | m ms ] eqn:E.
  - destruct Hm as (H1 & H2 & H3). cbn [Dualbase.service_url Dualbase.base_url
      Dualbase.username Dualbase.password].
    do 5 (split; [ first [ assumption | reflexivity ] | ]).
    split; [ unfold Str.rstrip_slash; now apply rstrip_by_no_trailing | ].
    split; [ apply derived_base_url_no_slash | ].
    split; [ reflexivity | ].
    intros h Hs Hc Hn. unfold Dualbase._derive_base_url. rewrite Hs.
    rewrite (strip_epmcloud_suffix h "/epmcloud" Hc eq_refl).
    rewrite (rstrip_slash_fixed h Hn).
    split; [ reflexivity | ].
    intros path. now rewrite append_assoc.
  - exists (m :: ms). repeat split; [ discriminate | exact Hm ].
Qed.

Lemma dualbase_config_contract_witness :
  exists cfg,
    Dualbase.load_config
      (world_with_env (interop_env "  https://epm.example.com/epmcloud// " "amy" "hunter2"))
    = Ret cfg
    /\ Dualbase.base_url cfg = "https://epm.example.com"
    /\ (Dualbase.base_url cfg ++ "/epmcloud" ++ "/interop/rest/v2/files/list")%string
       = (Dualbase.service_url cfg ++ "/interop/rest/v2/files/list")%string.
Proof.
  pose proof (dualbase_config_contract
                (world_with_env
                   (interop_env "  https://epm.example.com/epmcloud// " "amy" "hunter2")))
    as H.
  destruct (Dualbase.load_config _) as [ cfg | e ] eqn:E; [ | discriminate E ].
  exists cfg. split; [ reflexivity | ].
  destruct H as (_ & _ & _ & _ & _ & _ & _ & _ & H).
  injection E as <-.
  destruct (H "https://epm.example.com" eq_refl eq_refl) as (Hb & Hp).
  - intros t Ht. apply (f_equal (fun s => Str.endswith "/" s)) in Ht.
    rewrite endswith_append in Ht. discriminate Ht.
  - split; [ exact Hb | apply Hp ].
Defined.

Lemma missing_of_nil (entries : list (string * string)) :
  missing_of entries = [] ->
  Forall (fun kv => snd kv <> EmptyString) entries.
Proof.
  unfold missing_of. induction entries as [ | [n v] r IH ]; intros H.
  - constructor.
  - simpl in H. destruct v; simpl in H; [ discriminate H | ].
    constructor; [ discriminate | now apply IH ].
Qed.

Lemma missing_of_In (entries : list (string * string)) (n : string) :
  In n (missing_of entries) <-> In (n, EmptyString) entries.
Proof.
  unfold missing_of. rewrite in_map_iff. split.
  - intros ([n' v] & <- & H). apply filter_In in H. destruct H as (H & Hv).
    simpl in Hv |- *. destruct v; [ exact H | discriminate Hv ].
  - intros H. exists (n, EmptyString). split; [ reflexivity | ].
    apply filter_In. now split.
Qed.

(** X3.  [load_config] of the strict interop server: a configuration
    carries a service URL that ends, in any case, with [/epmcloud] and
    not with a slash, and a user and a password that are not empty; the
    dual-base server accepts every environment that the strict one
    accepts, with the same service URL and credentials.  An error is
    either the list of the empty variables or the complaint about the
    suffix, and the suffix is looked at only when nothing is missing. *)
Theorem readonly_config_contract (W : world) :
  match Readonly.load_config W with
  | Ret cfg =>
      Str.endswith "/epmcloud" (Str.lower (Readonly.service_url cfg)) = true
      /\ no_trailing "/" (Readonly.service_url cfg)
      /\ Readonly.username cfg <> EmptyString
      /\ Readonly.password cfg <> EmptyString
      /\ exists cfg',
           Dualbase.load_config W = Ret cfg'
           /\ Dualbase.service_url cfg' = Readonly.service_url cfg
           /\ Dualbase.username cfg' = Readonly.username cfg
           /\ Dualbase.password cfg' = Readonly.password cfg
           /\ Dualbase.verify_ssl cfg' = Readonly.verify_ssl cfg
  | Raise e =>
      (exists missing,
          e = missing_error missing /\ missing <> []
          /\ Dualbase.load_config W = Raise e)
      \/ (e = RuntimeError
                "EPM_SERVICE_URL must end with '/epmcloud' (example: https://<host>/epmcloud)"
          /\ exists cfg', Dualbase.load_config W = Ret cfg')
  end.
Proof.
  unfold Readonly.load_config, Dualbase.load_config. cbv zeta.
  destruct (missing_of _) as [ | m ms ] eqn:E.
  - apply missing_of_nil in E.
    inversion E as [ | ? ? H1 E1 ]; subst. inversion E1 as [ | ? ? H2 E2 ]; subst.
    inversion E2 as [ | ? ? H3 E3 ]; subst. simpl in H1, H2, H3.
    destruct (Str.endswith _ _) eqn:Hend; cbn [negb].
    + cbn [Readonly.service_url Readonly.username Readonly.password
           Readonly.verify_ssl].
      split; [ exact Hend | ].
      split; [ unfold Str.rstrip_slash; now apply rstrip_by_no_trailing | ].
      split; [ exact H2 | ]. split; [ exact H3 | ].
      eexists. split; [ reflexivity | ]. now repeat split.
    + right. split; [ reflexivity | ]. eexists. reflexivity.
  - left. exists (m :: ms). repeat split. discriminate.
Qed.

Lemma readonly_config_contract_witness :
  exists cfg cfg',
    Readonly.load_config
      (world_with_env (interop_env "https://epm.example.com/EPMCloud/" "amy" "hunter2"))
    = Ret cfg
    /\ Dualbase.load_config
         (world_with_env (interop_env "https://epm.example.com/EPMCloud/" "amy" "hunter2"))
       = Ret cfg'
    /\ Dualbase.service_url cfg' = Readonly.service_url cfg.
Proof.
  pose proof (readonly_config_contract
                (world_with_env
                   (interop_env "https://epm.example.com/EPMCloud/" "amy" "hunter2")))
    as H.
  destruct (Readonly.load_config _) as [ cfg | e ] eqn:E; [ | discriminate E ].
  destruct H as (_ & _ & _ & _ & cfg' & H1 & H2 & _).
  exists cfg, cfg'. split; [ reflexivity | ]. now split.
Defined.

(** X4.  [load_config] of the job observer: the base URL is the
    normalised [PBCS_BASE_URL], so it never ends with a slash; base URL,
    application, user and password are not empty; the API version is
    ["v3"] unless the variable holds something, and is never empty.  An
    error names exactly the variables, of these four, whose value is
    empty. *)
Theorem observer_config_contract (W : world) :
  let entries := [("PBCS_BASE_URL", strip_epmcloud (getenv_or_empty W "PBCS_BASE_URL"));
                  ("PBCS_APPLICATION", getenv_or_empty W "PBCS_APPLICATION");
                  ("PBCS_USERNAME", getenv_or_empty W "PBCS_USERNAME");
                  ("PBCS_PASSWORD", getenv_or_empty W "PBCS_PASSWORD")] in
  match Observer.load_config W with
  | Ret cfg =>
      Observer.base_url cfg = strip_epmcloud (getenv_or_empty W "PBCS_BASE_URL")
      /\ no_trailing "/" (Observer.base_url cfg)
      /\ Observer.base_url cfg <> EmptyString
      /\ Observer.application cfg <> EmptyString
      /\ Observer.username cfg <> EmptyString
      /\ Observer.password cfg <> EmptyString
      /\ Observer.api_version cfg <> EmptyString
      /\ (present (getenv W "PBCS_API_VERSION") = false ->
          Observer.api_version cfg = "v3")
  | Raise e =>
      exists missing,
        e = missing_error missing /\ missing <> []
        /\ forall n, In n missing <-> In (n, EmptyString) entries
  end.
Proof.
  unfold Observer.load_config, Observer._normalize_base_url. cbv zeta.
  destruct (missing_of _) as [ | m ms ] eqn:E.
  - apply missing_of_nil in E.
    inversion E as [ | ? ? H1 E1 ]; subst. inversion E1 as [ | ? ? H2 E2 ]; subst.
    inversion E2 as [ | ? ? H3 E3 ]; subst. inversion E3 as [ | ? ? H4 E4 ]; subst.
    simpl in H1, H2, H3, H4.
    cbn [Observer.base_url Observer.application Observer.username
         Observer.password Observer.api_version].
    split; [ reflexivity | ].
    split; [ apply derived_base_url_no_slash | ].
    do 4 (split; [ assumption | ]).
    split.
    + destruct (getenv W "PBCS_API_VERSION") as [ [ | c v ] | ]; simpl; discriminate.
    + destruct (getenv W "PBCS_API_VERSION") as [ [ | c v ] | ]; simpl;
        intros H; [ reflexivity | discriminate H | reflexivity ].
  - exists (m :: ms). split; [ reflexivity | ]. split; [ discriminate | ].
    intros n. rewrite <- E. apply missing_of_In.
Qed.

Lemma observer_config_contract_witness :
  exists cfg,
    Observer.load_config
      (world_with_env
         (fun name =>
            if String.eqb name "PBCS_API_VERSION" then Some "" else
              if String.eqb name "PBCS_BASE_URL"
              then Some "https://pbcs.example.com/epmcloud/" else pbcs_env name))
    = Ret cfg
    /\ Observer.base_url cfg = "https://pbcs.example.com"
    /\ Observer.api_version cfg = "v3".
Proof.
  pose proof (observer_config_contract
                (world_with_env
                   (fun name =>
                      if String.eqb name "PBCS_API_VERSION" then Some "" else
                        if String.eqb name "PBCS_BASE_URL"
                        then Some "https://pbcs.example.com/epmcloud/"
                        else pbcs_env name))) as H.
  cbv zeta in H.
  destruct (Observer.load_config _) as [ cfg | e ] eqn:E; [ | discriminate E ].
  exists cfg. split; [ reflexivity | ].
  destruct H as (Hb & _ & _ & _ & _ & _ & _ & Hv).
  split; [ rewrite Hb; reflexivity | now apply Hv ].
Defined.

Lemma present_iff (a : option string) :
  present a = true <-> exists s, a = Some s /\ s <> EmptyString.
Proof.
  destruct a as [ [ | c s ] | ]; simpl; split.
  - discriminate.
  - intros (s & E & H). now injection E as <-.
  - intros _. eexists. split; [ reflexivity | discriminate ].
  - reflexivity.
  - discriminate.
  - intros (s & E & _). discriminate E.
Qed.

(** X5.  [load_config] of the job runner: the authentication mode of a
    configuration is ["basic"] or ["oauth2"]; base URL and application
    are not empty and the base URL has no trailing slash; in basic mode
    the user and the password are set and not empty, in OAuth mode the
    token URL, the client id and the client secret are, so that the
    token request has a URL.  A mode that is neither is reported
    whatever else is missing. *)
Theorem copilot_config_contract (W : world) :
  let mode := Str.lower (Str.strip (or_str (getenv W "PBCS_AUTH_MODE") "basic")) in
  match Copilot.load_config W with
  | Ret cfg =>
      Copilot.auth_mode cfg = mode
      /\ (mode = "basic" \/ mode = "oauth2")
      /\ Copilot.base_url cfg <> EmptyString
      /\ no_trailing "/" (Copilot.base_url cfg)
      /\ Copilot.application cfg <> EmptyString
      /\ Copilot.api_version cfg <> EmptyString
      /\ (mode = "basic" ->
          present (Copilot.username cfg) = true
          /\ present (Copilot.password cfg) = true)
      /\ (mode = "oauth2" ->
          present (Copilot.idcs_token_url cfg) = true
          /\ present (Copilot.oauth_client_id cfg) = true
          /\ present (Copilot.oauth_client_secret cfg) = true
          /\ rq_url (Copilot.token_request cfg) <> None)
  | Raise e =>
      (mode <> "basic" /\ mode <> "oauth2"
       /\ e = RuntimeError "PBCS_AUTH_MODE must be 'basic' or 'oauth2'")
      \/ ((mode = "basic" \/ mode = "oauth2")
          /\ exists missing, e = missing_error missing /\ missing <> [])
  end.
Proof.
  unfold Copilot.load_config. cbv zeta.
  set (mode := Str.lower (Str.strip (or_str (getenv W "PBCS_AUTH_MODE") "basic"))).
  destruct (String.eqb_spec mode "basic") as [ Hb | Hb ].
  - cbn [orb negb].
    destruct (Str.nonempty (Str.rstrip_slash (getenv_or_empty W "PBCS_BASE_URL"))) eqn:E1;
    destruct (Str.nonempty (getenv_or_empty W "PBCS_APPLICATION")) eqn:E2;
    destruct (present (getenv W "PBCS_USERNAME")) eqn:E3;
    destruct (present (getenv W "PBCS_PASSWORD")) eqn:E4;
    cbn [app];
    try (right; split; [ now left | ]; eexists; split; [ reflexivity | discriminate ]).
    cbn [Copilot.auth_mode Copilot.base_url Copilot.application
         Copilot.api_version Copilot.username Copilot.password
         Copilot.idcs_token_url Copilot.oauth_client_id
         Copilot.oauth_client_secret].
    split; [ reflexivity | ]. split; [ now left | ].
    split; [ now apply nonempty_iff | ].
    split; [ unfold Str.rstrip_slash; now apply rstrip_by_no_trailing | ].
    split; [ now apply nonempty_iff | ].
    split; [ destruct (getenv W "PBCS_API_VERSION") as [ [ | c v ] | ]; simpl; discriminate | ].
    split; [ now split | ].
    intros Ho. rewrite Hb in Ho. discriminate Ho.
  - destruct (String.eqb_spec mode "oauth2") as [ Ho | Ho ]; cbn [orb negb].
    + destruct (Str.nonempty (Str.rstrip_slash (getenv_or_empty W "PBCS_BASE_URL"))) eqn:E1;
      destruct (Str.nonempty (getenv_or_empty W "PBCS_APPLICATION")) eqn:E2;
      destruct (present (getenv W "PBCS_IDCS_TOKEN_URL")) eqn:E3;
      destruct (present (getenv W "PBCS_OAUTH_CLIENT_ID")) eqn:E4;
      destruct (present (getenv W "PBCS_OAUTH_CLIENT_SECRET")) eqn:E5;
      cbn [app];
      try (right; split; [ now right | ]; eexists; split; [ reflexivity | discriminate ]).
      cbn [Copilot.auth_mode Copilot.base_url Copilot.application
           Copilot.api_version Copilot.username Copilot.password
           Copilot.idcs_token_url Copilot.oauth_client_id
           Copilot.oauth_client_secret].
      split; [ reflexivity | ]. split; [ now right | ].
      split; [ now apply nonempty_iff | ].
      split; [ unfold Str.rstrip_slash; now apply rstrip_by_no_trailing | ].
      split; [ now apply nonempty_iff | ].
      split; [ destruct (getenv W "PBCS_API_VERSION") as [ [ | c v ] | ]; simpl; discriminate | ].
      split; [ intros Hb'; contradiction | ].
      intros _. do 3 (split; [ assumption | ]).
      unfold Copilot.token_request. cbn [rq_url Copilot.idcs_token_url].
      apply present_iff in E3. destruct E3 as (u & -> & _). discriminate.
    + left. now repeat split.
Qed.

Lemma copilot_config_contract_witness :
  exists cfg,
    Copilot.load_config (world_with_env oauth_env) = Ret cfg
    /\ present (Copilot.oauth_client_secret cfg) = true
    /\ rq_url (Copilot.token_request cfg) <> None.
Proof.
  pose proof (copilot_config_contract (world_with_env oauth_env)) as H.
  cbv zeta in H.
  destruct (Copilot.load_config _) as [ cfg | e ] eqn:E; [ | discriminate E ].
  exists cfg. split; [ reflexivity | ].
  destruct H as (_ & _ & _ & _ & _ & _ & _ & H).
  destruct (H eq_refl) as (_ & _ & Hs & Hu). now split.
Defined.

End ConfigFacts.

(* ================================================================== *)
(** ** The client key and the allowlist of the job runner *)
(* ================================================================== *)

Module GateFacts.
Import Copilot StrFacts.

Lemma enforce_client_key_none (cfg : Config) (key : option string) :
  enforce_client_key cfg key = None
  <-> present (client_api_key cfg) = false \/ key = client_api_key cfg.
Proof.
  unfold enforce_client_key.
  destruct (present (client_api_key cfg)) eqn:Hp; cbn [andb].
  - destruct key as [ a | ], (client_api_key cfg) as [ b | ]; cbn [negb].
    + destruct (String.eqb_spec a b) as [ -> | Hne ]; cbn [negb]; split.
      * now right.
      * reflexivity.
      * discriminate.
      * intros [ H | H ]; [ discriminate H | congruence ].
    + split; [ discriminate | intros [ H | H ]; discriminate H ].
    + split; [ discriminate | intros [ H | H ]; discriminate H ].
    + split; [ now right | reflexivity ].
  - split; [ now left | reflexivity ].
Qed.

Lemma enforce_client_key_some (cfg : Config) (key : option string) (deny : value) :
  enforce_client_key cfg key = Some deny ->
  deny = UNAUTHORIZED_CLIENT /\ truthy (get deny "ok") = false.
Proof.
  unfold enforce_client_key.
  destruct (_ && _); intros H; [ | discriminate H ].
  injection H as <-. now split.
Qed.

Lemma every_tool_raises (W : world) (key : option string) (s : state) (e : exn) :
  load_config W = Raise e -> every_tool_answers W key s (Raise e).
Proof.
  intros Hcfg.
  assert (Hexec : forall job_type job_name parameters application api_version,
             planning_execute_job W job_type job_name parameters application
               api_version key s
             = (Raise e, s)).
  { intros. unfold planning_execute_job. now rewrite bind_lift, Hcfg. }
  split; [ unfold planning_discover_versions; now rewrite bind_lift, Hcfg | ].
  split; [ intros; unfold planning_list_job_definitions;
           now rewrite bind_lift, Hcfg | ].
  split; [ exact Hexec | ].
  split; [ intros; unfold planning_get_job_status;
           now rewrite bind_lift, Hcfg | ].
  split; [ intros; unfold planning_get_job_details;
           now rewrite bind_lift, Hcfg | ].
  intros. unfold planning_run_job_and_wait.
  now rewrite (bind_raise_eq _ _ _ _ _ (Hexec _ _ _ _ _)).
Qed.

Lemma every_tool_denies (W : world) (cfg : Config) (key : option string)
  (s : state) :
  load_config W = Ret cfg ->
  enforce_client_key cfg key <> None ->
  every_tool_answers W key s (Ret UNAUTHORIZED_CLIENT).
Proof.
  intros Hcfg Hno.
  assert (Hdeny : enforce_client_key cfg key = Some UNAUTHORIZED_CLIENT).
  { destruct (enforce_client_key cfg key) as [ deny | ] eqn:E; [ | congruence ].
    now destruct (enforce_client_key_some _ _ _ E) as (-> & _). }
  assert (Hexec : forall job_type job_name parameters application api_version,
             planning_execute_job W job_type job_name parameters application
               api_version key s
             = (Ret UNAUTHORIZED_CLIENT, s)).
  { intros. unfold planning_execute_job. now rewrite bind_lift, Hcfg, Hdeny. }
  split; [ unfold planning_discover_versions; now rewrite bind_lift, Hcfg, Hdeny | ].
  split; [ intros; unfold planning_list_job_definitions;
           now rewrite bind_lift, Hcfg, Hdeny | ].
  split; [ exact Hexec | ].
  split; [ intros; unfold planning_get_job_status;
           now rewrite bind_lift, Hcfg, Hdeny | ].
  split; [ intros; unfold planning_get_job_details;
           now rewrite bind_lift, Hcfg, Hdeny | ].
  intros. unfold planning_run_job_and_wait.
  rewrite (bind_ret_eq _ _ _ _ _ (Hexec _ _ _ _ _)). reflexivity.
Qed.

(** X6.  The client key.  Each of the six tools loads the configuration
    first: when that raises, the tool raises the same error, whatever
    the key, and does nothing else.  When the configuration loads and
    [MCP_CLIENT_API_KEY] is set and not empty, a call of any of the six
    tools with another key, or with none, returns the
    [UNAUTHORIZED_CLIENT] result and does nothing else: no request, no
    clock reading, the token cache untouched.  When the variable is
    unset or empty, or the key is the configured one, the check lets the
    call through. *)
Theorem client_key_gate (W : world) (key : option string) (s : state) :
  match load_config W with
  | Raise e => every_tool_answers W key s (Raise e)
  | Ret cfg =>
      (enforce_client_key cfg key = None
       <-> present (client_api_key cfg) = false \/ key = client_api_key cfg)
      /\ (present (client_api_key cfg) = true ->
          key <> client_api_key cfg ->
          every_tool_answers W key s (Ret UNAUTHORIZED_CLIENT))
  end.
Proof.
  destruct (load_config W) as [ cfg | e ] eqn:Hcfg.
  - split; [ apply enforce_client_key_none | ].
    intros Hp Hne. apply (every_tool_denies W cfg); [ exact Hcfg | ].
    intros E. apply enforce_client_key_none in E.
    destruct E as [ E | E ]; congruence.
  - now apply every_tool_raises.
Qed.

Lemma client_key_gate_witness :
  planning_run_job_and_wait (world_with_env keyed_env) 5 "RULES" "Rollup" VNone
    10 900 None None 0 200 (Some "guess") fresh_state
  = (Ret (Some UNAUTHORIZED_CLIENT), fresh_state)
  /\ planning_get_job_status (world_with_env key_only_env) (VStr "42") None None
       (Some "guess") fresh_state
     = (Raise (missing_error ["PBCS_BASE_URL"; "PBCS_APPLICATION";
                              "PBCS_USERNAME"; "PBCS_PASSWORD"]),
        fresh_state).
Proof.
  split.
  - pose proof (client_key_gate (world_with_env keyed_env) (Some "guess")
                  fresh_state) as H.
    destruct (load_config (world_with_env keyed_env)) as [ cfg | e ] eqn:E;
      [ | discriminate E ].
    destruct H as (_ & H). injection E as <-.
    refine (proj2 (proj2 (proj2 (proj2 (proj2 (H _ _)))))
              5%nat "RULES" "Rollup" VNone 10 900 None None 0 200);
      [ reflexivity | discriminate ].
  - pose proof (client_key_gate (world_with_env key_only_env) (Some "guess")
                  fresh_state) as H.
    destruct (load_config (world_with_env key_only_env)) as [ cfg | e ] eqn:E;
      [ discriminate E | ].
    injection E as <-.
    exact (proj1 (proj2 (proj2 (proj2 H))) (VStr "42") None None).
Defined.

Lemma split_comma_plain (x : string) :
  no_comma x = true -> split_comma x = [x].
Proof.
  induction x as [ | c r IH ]; [ reflexivity | ].
  cbn [no_comma split_comma]. intros H. apply andb_true_iff in H.
  destruct H as (Hc & Hr). apply negb_true_iff in Hc.
  now rewrite Hc, (IH Hr).
Qed.

Lemma split_comma_app (x rest : string) :
  no_comma x = true ->
  split_comma (x ++ "," ++ rest) = x :: split_comma rest.
Proof.
  induction x as [ | c r IH ]; [ reflexivity | ].
  cbn [no_comma]. intros H. apply andb_true_iff in H.
  destruct H as (Hc & Hr). apply negb_true_iff in Hc.
  change ((String c r ++ "," ++ rest)%string)
    with (String c (r ++ "," ++ rest)%string).
  cbn [split_comma]. now rewrite Hc, (IH Hr).
Qed.

(** [",".join(entries).split(",")] gives the entries back. *)
Lemma split_comma_join (entries : list string) :
  entries <> [] ->
  Forall (fun x => no_comma x = true) entries ->
  split_comma (Str.join "," entries) = entries.
Proof.
  unfold Str.join. induction entries as [ | x r IH ]; [ congruence | ].
  intros _ H. inversion H as [ | ? ? Hx Hr ]; subst.
  destruct r as [ | y r ].
  - now apply split_comma_plain.
  - change (String.concat "," (x :: y :: r))
      with (x ++ "," ++ String.concat "," (y :: r))%string.
    rewrite (split_comma_app _ _ Hx), IH; [ reflexivity | discriminate | exact Hr ].
Qed.

Lemma job_key_nonempty (job_type job_name : string) :
  Str.nonempty (job_type ++ ":" ++ job_name) = true.
Proof. now destruct job_type. Qed.

Lemma allowlist_check_cases (cfg : Config) (job_type job_name : string) :
  allowlist_check cfg job_type job_name = None
  \/ allowlist_check cfg job_type job_name
     = Some (JOB_NOT_ALLOWED (job_type ++ ":" ++ job_name)).
Proof.
  unfold allowlist_check.
  destruct (negb (present _)); [ now left | ].
  cbv zeta. destruct (negb (existsb _ _)); [ now right | now left ].
Qed.

(** X7.  The allowlist.  With [PBCS_ALLOWLIST_JOBS] unset or empty every
    job passes.  With the variable holding entries joined by commas, a
    job passes exactly when [job_type:job_name] is one of the entries
    with the white space around it removed.  [planning_execute_job] and
    [planning_run_job_and_wait] check in this order: an error of the
    configuration is raised; then a wrong client key is answered
    [UNAUTHORIZED_CLIENT], on the list or not; then a job that does not
    pass is answered [JOB_NOT_ALLOWED].  All three happen before
    anything is sent: the state is left as it was. *)
Theorem allowlist_gate (cfg : Config) (job_type job_name : string) :
  let key := (job_type ++ ":" ++ job_name)%string in
  (present (allowlist_jobs cfg) = false ->
   allowlist_check cfg job_type job_name = None)
  /\ (forall entries,
         allowlist_jobs cfg = Some (Str.join "," entries) ->
         Str.join "," entries <> EmptyString ->
         Forall (fun x => no_comma x = true) entries ->
         (allowlist_check cfg job_type job_name = None
          <-> In key (map Str.strip entries)))
  /\ (forall W client_key parameters application api_version s,
         let answers (r : res value) :=
           planning_execute_job W job_type job_name parameters application
             api_version client_key s
           = (r, s)
           /\ forall fuel poll timeout offset limit,
                planning_run_job_and_wait W fuel job_type job_name parameters poll
                  timeout application api_version offset limit client_key s
                = (run_result r, s) in
         match load_config W with
         | Raise e => answers (Raise e)
         | Ret loaded =>
             match enforce_client_key loaded client_key with
             | Some _ => answers (Ret UNAUTHORIZED_CLIENT)
             | None =>
                 allowlist_check loaded job_type job_name <> None ->
                 answers (Ret (JOB_NOT_ALLOWED key))
             end
         end).
Proof.
  cbv zeta. split; [ | split ].
  - intros H. unfold allowlist_check. now rewrite H.
  - intros entries Hl Hne Hc. unfold allowlist_check. rewrite Hl.
    assert (Hp : present (Some (Str.join "," entries)) = true)
      by now apply nonempty_iff.
    rewrite Hp. cbn [negb]. cbv zeta.
    assert (Hor : or_str (Some (Str.join "," entries)) EmptyString
                  = Str.join "," entries)
      by (unfold or_str; simpl in Hp; now rewrite Hp).
    rewrite Hor, split_comma_join; [ | | exact Hc ].
    + destruct (existsb _ _) eqn:E; cbn [negb].
      * split; [ intros _ | reflexivity ].
        apply existsb_eqb_In, in_map_iff in E.
        destruct E as (x & Hx & Hin). apply filter_In in Hin.
        apply in_map_iff. exists x. now split.
      * split; [ discriminate | ].
        intros Hin. apply in_map_iff in Hin. destruct Hin as (x & Hx & Hin).
        assert (Hex : existsb (String.eqb (job_type ++ ":" ++ job_name)%string)
                        (map Str.strip
                           (filter (fun x => Str.nonempty (Str.strip x)) entries))
                      = true).
        { apply existsb_eqb_In, in_map_iff. exists x. split; [ exact Hx | ].
          apply filter_In. split; [ exact Hin | ].
          rewrite Hx. apply job_key_nonempty. }
        rewrite Hex in E. discriminate E.
    + intros ->. now apply Hne.
  - intros W client_key parameters application api_version s.
    destruct (load_config W) as [ loaded | e ] eqn:Hcfg.
    + destruct (enforce_client_key loaded client_key) as [ deny | ] eqn:Hkey.
      * assert (Hno : enforce_client_key loaded client_key <> None) by congruence.
        destruct (every_tool_denies W loaded client_key s Hcfg Hno)
          as (_ & _ & Hexec & _ & _ & Hrun).
        split; [ apply Hexec | intros; apply Hrun ].
      * intros Hno.
        assert (Hguard : allowlist_check loaded job_type job_name
                         = Some (JOB_NOT_ALLOWED (job_type ++ ":" ++ job_name)))
          by (destruct (allowlist_check_cases loaded job_type job_name); congruence).
        assert (Hexec : planning_execute_job W job_type job_name parameters
                          application api_version client_key s
                        = (Ret (JOB_NOT_ALLOWED (job_type ++ ":" ++ job_name)), s)).
        { unfold planning_execute_job. now rewrite bind_lift, Hcfg, Hkey, Hguard. }
        split; [ exact Hexec | ].
        intros. unfold planning_run_job_and_wait.
        rewrite (bind_ret_eq _ _ _ _ _ Hexec). reflexivity.
    + destruct (every_tool_raises W client_key s e Hcfg)
        as (_ & _ & Hexec & _ & _ & Hrun).
      split; [ apply Hexec | intros; apply Hrun ].
Qed.

Lemma allowlist_gate_witness :
  (exists cfg,
      load_config (world_with_env keyed_env) = Ret cfg
      /\ allowlist_check cfg "REFRESH_CUBE" "RefreshPlan1" = None)
  /\ planning_execute_job (world_with_env keyed_env) "RULES" "DropCube" VNone
       None None (Some "k3y") fresh_state
     = (Ret (JOB_NOT_ALLOWED "RULES:DropCube"), fresh_state)
  /\ planning_execute_job (world_with_env keyed_env) "RULES" "DropCube" VNone
       None None (Some "guess") fresh_state
     = (Ret UNAUTHORIZED_CLIENT, fresh_state).
Proof.
  destruct (load_config (world_with_env keyed_env)) as [ cfg | e ] eqn:E;
    [ | discriminate E ].
  pose proof (allowlist_gate cfg "REFRESH_CUBE" "RefreshPlan1") as (_ & Hin & _).
  pose proof (allowlist_gate cfg "RULES" "DropCube") as (_ & _ & Hout).
  pose proof (Hout (world_with_env keyed_env) (Some "k3y") VNone None None
                fresh_state) as Hpass.
  pose proof (Hout (world_with_env keyed_env) (Some "guess") VNone None None
                fresh_state) as Hwrong.
  cbv zeta in Hpass, Hwrong.
  injection E as <-.
  split; [ | split ].
  - eexists. split; [ reflexivity | ].
    apply (Hin ["RULES:RollupUSSales"; " REFRESH_CUBE:RefreshPlan1"]).
    + reflexivity.
    + discriminate.
    + repeat constructor.
    + right. now left.
  - apply Hpass. discriminate.
  - apply Hwrong.
Defined.

End GateFacts.

(* ================================================================== *)
(** ** Redaction of what the servers return *)
(* ================================================================== *)

Module ScreenFacts.

Lemma returns_ret {S A : Type} (Q : A -> Prop) (a : A) :
  Q a -> returns Q (@ret S A a).
Proof. intros H s a' s' E. unfold ret in E. now inversion E; subst. Qed.

Lemma returns_raise {S A : Type} (Q : A -> Prop) (e : exn) :
  returns Q (@raise S A e).
Proof. intros s a' s' E. discriminate E. Qed.

Lemma returns_lift {S A : Type} (Q : A -> Prop) (r : res A) :
  (forall a, r = Ret a -> Q a) -> returns Q (@lift S A r).
Proof. intros H s a s' E. unfold lift in E. inversion E; subst. now apply H. Qed.

Lemma returns_bind {S A B : Type} (P : A -> Prop) (Q : B -> Prop)
  (m : M S A) (f : A -> M S B) :
  returns P m -> (forall a, P a -> returns Q (f a)) -> returns Q (bind m f).
Proof.
  intros Hm Hf s b s' E. unfold bind in E.
  destruct (m s) as [ [ a | e ] s1 ] eqn:Em; [ | discriminate E ].
  exact (Hf a (Hm _ _ _ Em) _ _ _ E).
Qed.

Lemma returns_any {S A : Type} (m : M S A) : returns (fun _ => True) m.
Proof. now intros s a s' _. Qed.

Lemma returns_on_log {A : Type} (Q : A -> Prop) (m : M trace A) :
  returns Q m -> returns Q (Copilot.on_log m).
Proof.
  intros H s a s' E. unfold Copilot.on_log in E.
  destruct (m (Copilot.log s)) as [ r tr ] eqn:Em. inversion E; subst.
  exact (H _ _ _ Em).
Qed.

(** *** What stays masked *)

Lemma masked_lookup (kv : list (string * value)) (k : string) (v : value) :
  masked (VDict kv) = true -> lookup k kv = Some v -> sensitive k = false ->
  masked v = true.
Proof.
  induction kv as [ | [k' x] r IH ]; [ discriminate | ].
  cbn [masked forallb lookup]. intros H Hl Hk.
  apply andb_true_iff in H. destruct H as (Hx & Hr).
  destruct (String.eqb_spec k k') as [ <- | _ ].
  - injection Hl as <-. now rewrite Hk in Hx.
  - now apply IH.
Qed.

Lemma masked_get (d : value) (k : string) :
  masked d = true -> sensitive k = false -> masked (get d k) = true.
Proof.
  intros Hd Hk. destruct d as [ | | | | | kv ]; try reflexivity.
  unfold get. destruct (lookup k kv) as [ v | ] eqn:E; [ | reflexivity ].
  exact (masked_lookup kv k v Hd E Hk).
Qed.

Lemma masked_dget (d : value) (k : string) (v : value) :
  masked d = true -> sensitive k = false -> dget d k = Ret v -> masked v = true.
Proof.
  intros Hd Hk E. destruct d as [ | | | | | kv ]; try discriminate E.
  injection E as <-. exact (masked_get (VDict kv) k Hd Hk).
Qed.

Lemma masked_py_or (a b : value) :
  masked a = true -> masked b = true -> masked (py_or a b) = true.
Proof. unfold py_or. now destruct (truthy a). Qed.

Lemma masked_first_of (d : value) (keys : list string) (v : value) :
  masked d = true -> forallb (fun k => negb (sensitive k)) keys = true ->
  first_of d keys = Ret v -> masked v = true.
Proof.
  intros Hd. revert v. induction keys as [ | k r IH ]; intros v Hk E.
  - now injection E as <-.
  - cbn [forallb] in Hk. apply andb_true_iff in Hk. destruct Hk as (Hk & Hr).
    apply negb_true_iff in Hk.
    destruct r as [ | k2 r ].
    + exact (masked_dget d k v Hd Hk E).
    + cbn [first_of] in E. unfold rbind in E.
      destruct (dget d k) as [ x | e ] eqn:Ex; [ | discriminate E ].
      destruct (truthy x).
      * injection E as <-. exact (masked_dget d k x Hd Hk Ex).
      * now apply IH.
Qed.

Lemma masked_list (xs : list value) :
  masked (VList xs) = true <-> Forall (fun x => masked x = true) xs.
Proof. cbn [masked]. rewrite forallb_forall, Forall_forall. reflexivity. Qed.

Lemma masked_iterate (v : value) (items : list value) :
  masked v = true -> iterate v = Ret items ->
  Forall (fun x => masked x = true) items.
Proof.
  intros Hv E. destruct v as [ | | | s | xs | kv ]; try discriminate E;
    injection E as <-.
  - apply Forall_forall. intros x Hx. apply in_map_iff in Hx.
    now destruct Hx as (c & <- & _).
  - now apply masked_list.
  - apply Forall_forall. intros x Hx. apply in_map_iff in Hx.
    now destruct Hx as (c & <- & _).
Qed.

Lemma masked_map_res (f : value -> res value) (items out : list value) :
  (forall x y, masked x = true -> f x = Ret y -> masked y = true) ->
  Forall (fun x => masked x = true) items ->
  map_res f items = Ret out ->
  Forall (fun x => masked x = true) out.
Proof.
  intros Hf. revert out. induction items as [ | x r IH ]; intros out Hi E.
  - injection E as <-. constructor.
  - inversion Hi as [ | ? ? Hx Hr ]; subst. cbn [map_res] in E. unfold rbind in E.
    destruct (f x) as [ y | e ] eqn:Ey; [ | discriminate E ].
    destruct (map_res f r) as [ ys | e ] eqn:Eys; [ | discriminate E ].
    injection E as <-. constructor; [ exact (Hf x y Hx Ey) | now apply IH ].
Qed.

Lemma masked_dict_set (k : string) (v : value) (kv : list (string * value)) :
  masked (VDict kv) = true ->
  (if sensitive k then is_marker v else masked v) = true ->
  masked (VDict (dict_set k v kv)) = true.
Proof.
  intros Hkv Hv. induction kv as [ | [k' x] r IH ].
  - cbn [dict_set masked forallb]. now rewrite Hv.
  - cbn [masked forallb] in Hkv. apply andb_true_iff in Hkv.
    destruct Hkv as (Hx & Hr). cbn [dict_set].
    destruct (String.eqb_spec k k') as [ <- | _ ]; cbn [masked forallb].
    + rewrite Hv. exact Hr.
    + rewrite Hx. exact (IH Hr).
Qed.

Lemma masked_set_item (d : value) (k : string) (v : value) :
  masked d = true -> sensitive k = false -> masked v = true ->
  masked (set_item d k v) = true.
Proof.
  intros Hd Hk Hv. destruct d as [ | | | | | kv ]; try exact Hd.
  apply masked_dict_set; [ exact Hd | now rewrite Hk ].
Qed.

Lemma masked_not_ok_with (d : value) :
  masked d = true -> masked (Copilot.not_ok_with d) = true.
Proof.
  intros Hd. destruct d as [ | | | | | kv ]; try reflexivity.
  unfold Copilot.not_ok_with.
  assert (forall acc,
             masked (VDict acc) = true ->
             masked (VDict (fold_left
                              (fun acc item => dict_set (fst item) (snd item) acc)
                              kv acc)) = true) as H.
  { induction kv as [ | [k x] r IH ]; intros acc Hacc; [ exact Hacc | ].
    cbn [masked forallb] in Hd. apply andb_true_iff in Hd.
    destruct Hd as (Hx & Hr). cbn [fold_left fst snd].
    apply (IH Hr). now apply masked_dict_set. }
  now apply H.
Qed.

Lemma masked_screened (r : value) : masked r = true -> screened r.
Proof.
  intros H. repeat split.
  - now apply masked_get.
  - now intros _.
  - rewrite H. symmetry. now apply masked_get.
Qed.

(** The three results that the four HTTP wrappers build. *)
Lemma screened_network_error (msg : string) (more : list (string * value)) :
  Forall (fun item => is_scalar (snd item) = true /\ sensitive (fst item) = false) more ->
  screened (VDict ([("ok", VBool false); ("error", VStr "NETWORK_ERROR");
                    ("message", VStr msg)] ++ more)).
Proof.
  intros H. apply masked_screened. cbn [app masked forallb]. simpl.
  induction H as [ | [k v] r (Hs & Hk) _ IH ]; [ reflexivity | ].
  cbn [forallb fst snd] in *. rewrite Hk, IH.
  now destruct v.
Qed.

Lemma screened_http_error (code : Z) (message payload : value) (url : list (string * value)) :
  Forall (fun item => is_scalar (snd item) = true /\ sensitive (fst item) = false) url ->
  screened (VDict ([("ok", VBool false); ("error", VStr "HTTP_ERROR");
                    ("status_code", VInt code);
                    ("message", message);
                    ("response", redact payload)] ++ url)).
Proof.
  intros H.
  assert (Hu : forallb (fun item : string * value =>
                          let (k, x) := item in
                          if sensitive k then is_marker x else masked x) url = true).
  { induction H as [ | [k v] r (Hs & Hk) _ IH ]; [ reflexivity | ].
    cbn [forallb fst snd] in *. rewrite Hk, IH. now destruct v. }
  repeat split.
  - simpl. apply redact_masked.
  - discriminate.
  - cbn [app masked forallb]. simpl. rewrite redact_masked, Hu.
    cbn [andb]. now rewrite andb_true_r.
Qed.

Lemma screened_ok (code : Z) (payload : value) (url : list (string * value)) :
  Forall (fun item => is_scalar (snd item) = true /\ sensitive (fst item) = false) url ->
  lookup "response" url = None -> lookup "message" url = None ->
  screened (VDict ([("ok", VBool true); ("status_code", VInt code);
                    ("response", redact payload)] ++ url)).
Proof.
  intros H Hr Hm. apply masked_screened.
  cbn [app masked forallb]. simpl. rewrite redact_masked. cbn [andb].
  induction H as [ | [k v] r (Hs & Hk) _ IH ]; [ reflexivity | ].
  cbn [forallb fst snd] in *. rewrite Hk.
  cbn [lookup] in Hr, Hm.
  destruct (String.eqb "response" k); [ discriminate Hr | ].
  destruct (String.eqb "message" k); [ discriminate Hm | ].
  rewrite (IH Hr Hm). now destruct v.
Qed.

Lemma masked_fields (kv : list (string * value)) :
  Forall (fun item => sensitive (fst item) = false /\ masked (snd item) = true) kv ->
  masked (VDict kv) = true.
Proof.
  intros H. cbn [masked]. induction H as [ | [k v] r (Hk & Hv) _ IH ]; [ reflexivity | ].
  cbn [forallb fst snd] in *. now rewrite Hk, Hv, IH.
Qed.

Lemma http_get_screened W url cfg params t :
  returns screened (Dualbase._http_get W url cfg params t).
Proof.
  unfold Dualbase._http_get.
  apply (returns_bind (fun _ => True)); [ apply returns_any | intros [ msg | rp ] _ ].
  - apply returns_ret.
    apply (screened_network_error msg [("url", VStr url)]). now repeat constructor.
  - cbv zeta. destruct (300 <=? resp_status_code rp).
    + apply (returns_bind (fun _ => True)); [ apply returns_any | intros message _ ].
      apply returns_ret.
      apply (screened_http_error _ message _ [("url", VStr url)]).
      now repeat constructor.
    + apply returns_ret.
      apply (screened_ok _ _ [("url", VStr url)]); [ now repeat constructor | | ];
        reflexivity.
Qed.

Lemma epm_get_screened W cfg path params t :
  returns screened (Readonly.epm_get W cfg path params t).
Proof.
  unfold Readonly.epm_get. cbv zeta.
  apply (returns_bind (fun _ => True)); [ apply returns_any | intros [ msg | rp ] _ ].
  - apply returns_ret.
    apply (screened_network_error msg [("url", VStr _)]). now repeat constructor.
  - cbv zeta. destruct (300 <=? resp_status_code rp).
    + apply (returns_bind (fun _ => True)); [ apply returns_any | intros message _ ].
      apply returns_ret.
      apply (screened_http_error _ message _ [("url", VStr _)]).
      now repeat constructor.
    + apply returns_ret.
      apply (screened_ok _ _ [("url", VStr _)]); [ now repeat constructor | | ];
        reflexivity.
Qed.

Lemma pbcs_get_screened W cfg path params t :
  returns screened (Observer.pbcs_get W cfg path params t).
Proof.
  unfold Observer.pbcs_get. cbv zeta.
  apply (returns_bind (fun _ => True)); [ apply returns_any | intros [ msg | rp ] _ ].
  - apply returns_ret.
    apply (screened_network_error msg [("url", VStr _)]). now repeat constructor.
  - cbv zeta. destruct (300 <=? resp_status_code rp).
    + apply (returns_bind (fun _ => True)); [ apply returns_any | intros message _ ].
      apply returns_ret.
      apply (screened_http_error _ message _ [("url", VStr _)]).
      now repeat constructor.
    + apply returns_ret.
      apply (screened_ok _ _ [("url", VStr _)]); [ now repeat constructor | | ];
        reflexivity.
Qed.

Lemma pbcs_request_screened W cfg method path params json_body t :
  returns screened (Copilot.pbcs_request W cfg method path params json_body t).
Proof.
  unfold Copilot.pbcs_request. cbv zeta.
  assert (Hcall : forall bearer,
             returns screened
               (bind (Copilot.on_log
                        (send W (Copilot.rest_request cfg method
                                   (Copilot.base_url cfg ++ path) bearer params
                                   json_body t)))
                  (fun r =>
                     match r with
                     | Failed msg =>
                         ret (VDict [("ok", VBool false); ("error", VStr "NETWORK_ERROR");
                                     ("message", VStr msg)])
                     | Response r =>
                         if 300 <=? resp_status_code r
                         then bind (lift (error_message (payload_of r) r))
                                (fun message =>
                                   ret (VDict [("ok", VBool false);
                                               ("error", VStr "HTTP_ERROR");
                                               ("status_code", VInt (resp_status_code r));
                                               ("message", message);
                                               ("response", redact (payload_of r))]))
                         else ret (VDict [("ok", VBool true);
                                          ("status_code", VInt (resp_status_code r));
                                          ("response", redact (payload_of r))])
                     end))).
  { intros bearer.
    apply (returns_bind (fun _ => True)); [ apply returns_any | intros [ msg | rp ] _ ].
    - apply returns_ret. apply (screened_network_error msg []). constructor.
    - destruct (300 <=? resp_status_code rp).
      + apply (returns_bind (fun _ => True)); [ apply returns_any | intros message _ ].
        apply returns_ret. apply (screened_http_error _ message _ []). constructor.
      + apply returns_ret. apply (screened_ok _ _ []); [ constructor | | ]; reflexivity. }
  destruct (String.eqb (Copilot.auth_mode cfg) "basic"); [ apply Hcall | ].
  apply (returns_bind (fun _ => True)); [ apply returns_any | intros [ ok tok ] _ ].
  destruct ok; cbn [negb]; [ apply Hcall | ].
  apply returns_ret, masked_screened, masked_not_ok_with, redact_masked.
Qed.

(** X8.  Redaction in the four HTTP wrappers ([_http_get], [epm_get],
    [pbcs_get], [pbcs_request]).  In every result the [response] is
    masked: no sensitive key, at any depth, holds anything but the
    marker.  An ok result is masked as a whole.  A failed result can
    hold an unmasked sensitive key only inside its [message], which is
    taken from the body before the body is redacted. *)
Theorem wrappers_screen_responses (W : world) :
  (forall url cfg params t,
      returns screened (Dualbase._http_get W url cfg params t))
  /\ (forall cfg path params t,
         returns screened (Readonly.epm_get W cfg path params t))
  /\ (forall cfg path params t,
         returns screened (Observer.pbcs_get W cfg path params t))
  /\ (forall cfg method path params json_body t,
         returns screened (Copilot.pbcs_request W cfg method path params json_body t)).
Proof.
  split; [ intros; apply http_get_screened | ].
  split; [ intros; apply epm_get_screened | ].
  split; [ intros; apply pbcs_get_screened | ].
  intros; apply pbcs_request_screened.
Qed.

Lemma wrappers_screen_responses_witness :
  exists r tr,
    Observer.pbcs_get world_verbose_error sample_observer_cfg "/HyperionPlanning/rest/"
      None 60 []
    = (Ret r, tr)
    /\ masked (get r "response") = true
    /\ masked r = false
    /\ masked (get r "message") = false.
Proof.
  destruct (Observer.pbcs_get world_verbose_error sample_observer_cfg
              "/HyperionPlanning/rest/" None 60 []) as [ [ r | e ] tr ] eqn:E;
    [ | discriminate E ].
  exists r, tr. split; [ reflexivity | ].
  destruct (proj1 (proj2 (proj2 (wrappers_screen_responses world_verbose_error)))
              sample_observer_cfg "/HyperionPlanning/rest/" None 60 [] r tr E)
    as (Hresp & _ & Hmsg).
  split; [ exact Hresp | ].
  assert (Hm : masked (get r "message") = false)
    by (injection E as <- _; reflexivity).
  split; [ now rewrite Hmsg | exact Hm ].
Defined.

(** *** The tools built on the wrappers *)

Lemma clean_not_ok (r : value) : truthy (get r "ok") = false -> clean_when_ok r.
Proof. intros H H'. congruence. Qed.

Lemma clean_masked (r : value) : masked r = true -> clean_when_ok r.
Proof. now intros H _. Qed.

(** Closes a goal [masked v = true] from what is known of the parts. *)
Ltac masked_part :=
  first
    [ assumption
    | reflexivity
    | apply redact_masked
    | apply masked_py_or; masked_part
    | apply masked_list; assumption
    | eapply masked_dget; [ | | eassumption ]; [ masked_part | reflexivity ]
    | eapply masked_first_of; [ | | eassumption ]; [ masked_part | reflexivity ]
    | apply masked_get; [ masked_part | reflexivity ] ].

(** Closes [masked (VDict [...]) = true] field by field. *)
Ltac masked_dict :=
  apply masked_fields;
  repeat (apply Forall_cons; [ split; [ reflexivity | cbn [snd]; masked_part ] | ]);
  apply Forall_nil.

Tactic Notation "lift_masked" ident(v) ident(H) :=
  apply (returns_bind (fun x => masked x = true));
  [ apply returns_lift; intros v H; masked_part | intros v H ].

Lemma dualbase_clean W cfg path params :
  returns clean_when_ok (Dualbase.epm_get_dualbase W cfg path params).
Proof.
  unfold Dualbase.epm_get_dualbase. cbv zeta.
  apply (returns_bind screened); [ apply http_get_screened | intros r1 (_ & H1 & _) ].
  destruct (truthy (get r1 "ok")) eqn:E1.
  - apply returns_ret, clean_masked, masked_set_item; [ now apply H1 | | ]; reflexivity.
  - destruct (eq_int (get r1 "status_code") 404).
    + apply (returns_bind screened); [ apply http_get_screened | intros r2 (_ & H2 & _) ].
      destruct (truthy (get r2 "ok")) eqn:E2.
      * apply returns_ret, clean_masked, masked_set_item; [ now apply H2 | | ];
          reflexivity.
      * apply returns_ret, clean_not_ok. reflexivity.
    + apply returns_ret, clean_not_ok, E1.
Qed.

Lemma compact_item_masked (it c : value) :
  masked it = true -> Observer.compact_item it = Ret c -> masked c = true.
Proof.
  intros Hit E. unfold Observer.compact_item, rbind in E.
  destruct (dget it "severity") as [ a1 | ] eqn:E1; [ | discriminate E ].
  destruct (dget it "type") as [ a2 | ] eqn:E2; [ | discriminate E ].
  destruct (dget it "row") as [ a3 | ] eqn:E3; [ | discriminate E ].
  destruct (dget it "message") as [ a4 | ] eqn:E4; [ | discriminate E ].
  injection E as <-. masked_dict.
Qed.

Lemma copilot_compact_item_masked (it c : value) :
  masked it = true -> Copilot.compact_item it = Ret c -> masked c = true.
Proof.
  intros Hit E. unfold Copilot.compact_item, rbind in E.
  destruct (dget it "severity") as [ a1 | ] eqn:E1; [ | discriminate E ].
  destruct (dget it "type") as [ a2 | ] eqn:E2; [ | discriminate E ].
  destruct (dget it "row") as [ a3 | ] eqn:E3; [ | discriminate E ].
  destruct (first_of it ["message"; "details"; "text"]) as [ a4 | ] eqn:E4;
    [ | discriminate E ].
  injection E as <-. masked_dict.
Qed.

Lemma job_definition_masked (it c : value) :
  masked it = true -> Observer.job_definition it = Ret c -> masked c = true.
Proof.
  intros Hit E. unfold Observer.job_definition, rbind in E.
  destruct (dget it "jobType") as [ a1 | ] eqn:E1; [ | discriminate E ].
  destruct (dget it "jobName") as [ a2 | ] eqn:E2; [ | discriminate E ].
  destruct (dget it "description") as [ a3 | ] eqn:E3; [ | discriminate E ].
  injection E as <-. masked_dict.
Qed.

Lemma copilot_job_definition_masked (it c : value) :
  masked it = true -> Copilot.job_definition it = Ret c -> masked c = true.
Proof.
  intros Hit E. unfold Copilot.job_definition, rbind in E.
  destruct (first_of it ["jobType"; "type"]) as [ a1 | ] eqn:E1; [ | discriminate E ].
  destruct (first_of it ["jobName"; "name"]) as [ a2 | ] eqn:E2; [ | discriminate E ].
  destruct (dget it "description") as [ a3 | ] eqn:E3; [ | discriminate E ].
  injection E as <-. masked_dict.
Qed.

(** The part of a listing tool after the GET: the items are read from
    the response and compacted one by one. *)
Lemma listing_masked {S : Type} (p : value) (found_of : res value)
  (f : value -> res value) (build : list value -> value) :
  (forall found, found_of = Ret found -> masked found = true) ->
  (forall x y, masked x = true -> f x = Ret y -> masked y = true) ->
  (forall out, Forall (fun x => masked x = true) out -> masked (build out) = true) ->
  returns clean_when_ok
    (bind (@lift S _ found_of) (fun found =>
     bind (lift (iterate (py_or found (VList [])))) (fun items =>
     bind (lift (map_res f items)) (fun compact =>
     ret (build compact))))).
Proof.
  intros Hfound Hf Hbuild.
  apply (returns_bind (fun v => masked v = true));
    [ apply returns_lift; exact Hfound | intros found Hfd ].
  apply (returns_bind (fun l => Forall (fun x => masked x = true) l)).
  - apply returns_lift. intros items E.
    apply (masked_iterate (py_or found (VList []))); [ now apply masked_py_or | exact E ].
  - intros items Hitems.
    apply (returns_bind (fun l => Forall (fun x => masked x = true) l)).
    + apply returns_lift. intros out E. exact (masked_map_res f items out Hf Hitems E).
    + intros out Hout. apply returns_ret, clean_masked, Hbuild, Hout.
Qed.

Lemma observer_status_clean W job_id application api_version :
  returns clean_when_ok
    (Observer.planning_get_job_status W job_id application api_version).
Proof.
  unfold Observer.planning_get_job_status.
  apply (returns_bind (fun _ => True)); [ apply returns_any | intros cfg _ ].
  cbv zeta.
  apply (returns_bind screened); [ apply pbcs_get_screened | intros res (Hp & _ & _) ].
  destruct (truthy (get res "ok")) eqn:E; cbn [negb];
    [ | apply returns_ret, clean_not_ok, E ].
  lift_masked status Hs. lift_masked percentComplete Hpc.
  lift_masked startTime Hst. lift_masked endTime Het.
  apply returns_ret, clean_masked. masked_dict.
Qed.

Lemma observer_details_clean W job_id offset limit application api_version :
  returns clean_when_ok
    (Observer.planning_get_job_details W job_id offset limit application api_version).
Proof.
  unfold Observer.planning_get_job_details.
  apply (returns_bind (fun _ => True)); [ apply returns_any | intros cfg _ ].
  cbv zeta.
  apply (returns_bind screened); [ apply pbcs_get_screened | intros res (Hp & _ & _) ].
  destruct (truthy (get res "ok")) eqn:E; cbn [negb];
    [ | apply returns_ret, clean_not_ok, E ].
  apply (listing_masked (get res "response") _ Observer.compact_item
           (fun compact => VDict [("ok", VBool true); ("jobId", VStr job_id);
                                  ("offset", VInt offset); ("limit", VInt limit);
                                  ("count", VInt (Z.of_nat (length compact)));
                                  ("items", VList compact)])).
  - intros found Hf. masked_part.
  - exact compact_item_masked.
  - intros out Hout. masked_dict.
Qed.

Lemma observer_definitions_clean W application api_version :
  returns clean_when_ok
    (Observer.planning_list_job_definitions W application api_version).
Proof.
  unfold Observer.planning_list_job_definitions.
  apply (returns_bind (fun _ => True)); [ apply returns_any | intros cfg _ ].
  cbv zeta.
  apply (returns_bind screened); [ apply pbcs_get_screened | intros res (Hp & _ & _) ].
  destruct (truthy (get res "ok")) eqn:E; cbn [negb];
    [ | apply returns_ret, clean_not_ok, E ].
  apply (listing_masked (get res "response") _ Observer.job_definition
           (fun defs => VDict [("ok", VBool true);
                               ("count", VInt (Z.of_nat (length defs)));
                               ("jobDefinitions", VList defs)])).
  - intros found Hf. masked_part.
  - exact job_definition_masked.
  - intros out Hout. masked_dict.
Qed.

Lemma screened_clean (r : value) : screened r -> clean_when_ok r.
Proof. now intros (_ & H & _). Qed.

Lemma returns_weaken {S A : Type} (P Q : A -> Prop) (m : M S A) :
  (forall a, P a -> Q a) -> returns P m -> returns Q m.
Proof. intros H Hm s a s' E. exact (H a (Hm s a s' E)). Qed.

(** The denial of the client key check and the refusal of the
    allowlist are not ok. *)
Lemma deny_clean (cfg : Copilot.Config) (key : option string) (deny : value) :
  Copilot.enforce_client_key cfg key = Some deny -> clean_when_ok deny.
Proof.
  intros H. apply clean_not_ok.
  now destruct (GateFacts.enforce_client_key_some cfg key deny H).
Qed.

Lemma guard_clean (cfg : Copilot.Config) (job_type job_name : string) (guard : value) :
  Copilot.allowlist_check cfg job_type job_name = Some guard -> clean_when_ok guard.
Proof.
  intros H. apply clean_not_ok.
  destruct (GateFacts.allowlist_check_cases cfg job_type job_name) as [ E | E ];
    rewrite E in H; [ discriminate H | now injection H as <- ].
Qed.

Lemma copilot_execute_clean W job_type job_name parameters application api_version key :
  returns clean_when_ok
    (Copilot.planning_execute_job W job_type job_name parameters application
       api_version key).
Proof.
  unfold Copilot.planning_execute_job.
  apply (returns_bind (fun _ => True)); [ apply returns_any | intros cfg _ ].
  destruct (Copilot.enforce_client_key cfg key) as [ deny | ] eqn:Ek;
    [ apply returns_ret, (deny_clean cfg key), Ek | ].
  destruct (Copilot.allowlist_check cfg job_type job_name) as [ guard | ] eqn:Ea;
    [ apply returns_ret, (guard_clean cfg job_type job_name), Ea | ].
  cbv zeta.
  apply (returns_bind screened); [ apply pbcs_request_screened | intros res (Hp & _ & _) ].
  destruct (truthy (get res "ok")) eqn:E; cbn [negb];
    [ | apply returns_ret, clean_not_ok, E ].
  lift_masked job_id Hj. lift_masked status Hs.
  apply returns_ret, clean_masked. masked_dict.
Qed.

Lemma copilot_status_clean W job_id application api_version key :
  masked job_id = true ->
  returns clean_when_ok
    (Copilot.planning_get_job_status W job_id application api_version key).
Proof.
  intros Hid. unfold Copilot.planning_get_job_status.
  apply (returns_bind (fun _ => True)); [ apply returns_any | intros cfg _ ].
  destruct (Copilot.enforce_client_key cfg key) as [ deny | ] eqn:Ek;
    [ apply returns_ret, (deny_clean cfg key), Ek | ].
  cbv zeta.
  apply (returns_bind screened); [ apply pbcs_request_screened | intros res (Hp & _ & _) ].
  destruct (truthy (get res "ok")) eqn:E; cbn [negb];
    [ | apply returns_ret, clean_not_ok, E ].
  lift_masked status Hs. lift_masked percentComplete Hpc.
  lift_masked startTime Hst. lift_masked endTime Het.
  apply returns_ret, clean_masked. masked_dict.
Qed.

Lemma copilot_details_clean W job_id offset limit application api_version key :
  masked job_id = true ->
  returns clean_when_ok
    (Copilot.planning_get_job_details W job_id offset limit application
       api_version key).
Proof.
  intros Hid. unfold Copilot.planning_get_job_details.
  apply (returns_bind (fun _ => True)); [ apply returns_any | intros cfg _ ].
  destruct (Copilot.enforce_client_key cfg key) as [ deny | ] eqn:Ek;
    [ apply returns_ret, (deny_clean cfg key), Ek | ].
  cbv zeta.
  apply (returns_bind screened); [ apply pbcs_request_screened | intros res (Hp & _ & _) ].
  destruct (truthy (get res "ok")) eqn:E; cbn [negb];
    [ | apply returns_ret, clean_not_ok, E ].
  apply (listing_masked (get res "response") _ Copilot.compact_item
           (fun compact => VDict [("ok", VBool true); ("jobId", job_id);
                                  ("offset", VInt offset); ("limit", VInt limit);
                                  ("count", VInt (Z.of_nat (length compact)));
                                  ("items", VList compact)])).
  - intros found Hf. masked_part.
  - exact copilot_compact_item_masked.
  - intros out Hout. masked_dict.
Qed.

Lemma copilot_definitions_clean W application api_version key :
  returns clean_when_ok
    (Copilot.planning_list_job_definitions W application api_version key).
Proof.
  unfold Copilot.planning_list_job_definitions.
  apply (returns_bind (fun _ => True)); [ apply returns_any | intros cfg _ ].
  destruct (Copilot.enforce_client_key cfg key) as [ deny | ] eqn:Ek;
    [ apply returns_ret, (deny_clean cfg key), Ek | ].
  cbv zeta.
  apply (returns_bind screened); [ apply pbcs_request_screened | intros res (Hp & _ & _) ].
  destruct (truthy (get res "ok")) eqn:E; cbn [negb];
    [ | apply returns_ret, clean_not_ok, E ].
  apply (listing_masked (get res "response") _ Copilot.job_definition
           (fun compact => VDict [("ok", VBool true);
                                  ("count", VInt (Z.of_nat (length compact)));
                                  ("jobDefinitions", VList compact)])).
  - intros found Hf. masked_part.
  - exact copilot_job_definition_masked.
  - intros out Hout. masked_dict.
Qed.

(** X9.  No tool of the read-only servers hands out a secret in an ok
    result: whatever the service answers, a result with a true [ok] of
    the dual-base GET and of the listing and status tools built on it,
    of the strict server's tools, and of the observer's version, job
    definition, status and details tools is masked as a whole. *)
Theorem readonly_tools_mask_ok_results (W : world) :
  (forall cfg path params,
      returns clean_when_ok (Dualbase.epm_get_dualbase W cfg path params))
  /\ returns clean_when_ok (Dualbase.epm_list_files W)
  /\ returns clean_when_ok (Dualbase.epm_list_backups W)
  /\ returns clean_when_ok (Dualbase.epm_get_daily_maintenance_time W)
  /\ (forall operation job_id,
         returns clean_when_ok (Dualbase.epm_get_status W operation job_id))
  /\ returns clean_when_ok (Readonly.epm_list_files W)
  /\ returns clean_when_ok (Readonly.epm_list_backups W)
  /\ returns clean_when_ok (Readonly.epm_get_daily_maintenance_time W)
  /\ (forall operation job_id,
         returns clean_when_ok (Readonly.epm_get_status W operation job_id))
  /\ returns clean_when_ok (Observer.planning_discover_versions W)
  /\ (forall application api_version,
         returns clean_when_ok
           (Observer.planning_list_job_definitions W application api_version))
  /\ (forall job_id application api_version,
         returns clean_when_ok
           (Observer.planning_get_job_status W job_id application api_version))
  /\ (forall job_id offset limit application api_version,
         returns clean_when_ok
           (Observer.planning_get_job_details W job_id offset limit application
              api_version)).
Proof.
  assert (Hd : forall path,
             returns clean_when_ok
               (bind (lift (Dualbase.load_config W))
                  (fun cfg => Dualbase.epm_get_dualbase W cfg path None))).
  { intros path. apply (returns_bind (fun _ => True)); [ apply returns_any | ].
    intros cfg _. apply dualbase_clean. }
  assert (Hr : forall path,
             returns clean_when_ok
               (bind (lift (Readonly.load_config W))
                  (fun cfg => Readonly.epm_get W cfg path None 60))).
  { intros path. apply (returns_bind (fun _ => True)); [ apply returns_any | ].
    intros cfg _. apply (returns_weaken screened); [ exact screened_clean | ].
    apply epm_get_screened. }
  split; [ intros; apply dualbase_clean | ].
  do 3 (split; [ apply Hd | ]).
  split.
  { intros operation job_id. unfold Dualbase.epm_get_status.
    apply (returns_bind (fun _ => True)); [ apply returns_any | intros cfg _ ].
    cbv zeta. destruct (Dualbase.bad_operation _).
    - apply returns_ret, clean_not_ok. reflexivity.
    - apply dualbase_clean. }
  do 3 (split; [ apply Hr | ]).
  split.
  { intros operation job_id. unfold Readonly.epm_get_status.
    apply (returns_bind (fun _ => True)); [ apply returns_any | intros cfg _ ].
    cbv zeta. destruct (Readonly.bad_operation _).
    - apply returns_ret, clean_not_ok. reflexivity.
    - apply (returns_weaken screened); [ exact screened_clean | ].
      apply epm_get_screened. }
  split.
  { unfold Observer.planning_discover_versions.
    apply (returns_bind (fun _ => True)); [ apply returns_any | intros cfg _ ].
    apply (returns_weaken screened); [ exact screened_clean | ].
    apply pbcs_get_screened. }
  split; [ intros; apply observer_definitions_clean | ].
  split; [ intros; apply observer_status_clean | ].
  intros; apply observer_details_clean.
Qed.

Lemma readonly_tools_mask_ok_results_witness :
  exists r tr,
    Observer.planning_get_job_status world_chatty "42" None None [] = (Ret r, tr)
    /\ get (get r "raw") "client_secret" = REDACTED
    /\ masked r = true.
Proof.
  destruct (Observer.planning_get_job_status world_chatty "42" None None [])
    as [ [ r | e ] tr ] eqn:E; [ | discriminate E ].
  exists r, tr. split; [ reflexivity | ].
  assert (Hr : truthy (get r "ok") = true /\ get (get r "raw") "client_secret" = REDACTED)
    by (injection E as <- _; split; reflexivity).
  destruct Hr as (Hok & Hraw). split; [ exact Hraw | ].
  destruct (readonly_tools_mask_ok_results world_chatty)
    as (_ & _ & _ & _ & _ & _ & _ & _ & _ & _ & _ & Hstatus & _).
  exact (Hstatus "42" None None [] r tr E Hok).
Defined.

(** X10.  The same for the job runner: an ok result of the version, job
    definition, submission, status and details tools is masked as a
    whole, for every answer of the service and of the token issuer.
    (The job id that the caller passes is echoed, so it is taken to be
    a masked value, as every string and number is.) *)
Theorem copilot_tools_mask_ok_results (W : world) (key : option string) :
  returns clean_when_ok (Copilot.planning_discover_versions W key)
  /\ (forall application api_version,
         returns clean_when_ok
           (Copilot.planning_list_job_definitions W application api_version key))
  /\ (forall job_type job_name parameters application api_version,
         returns clean_when_ok
           (Copilot.planning_execute_job W job_type job_name parameters application
              api_version key))
  /\ (forall job_id application api_version,
         masked job_id = true ->
         returns clean_when_ok
           (Copilot.planning_get_job_status W job_id application api_version key))
  /\ (forall job_id offset limit application api_version,
         masked job_id = true ->
         returns clean_when_ok
           (Copilot.planning_get_job_details W job_id offset limit application
              api_version key)).
Proof.
  split.
  { unfold Copilot.planning_discover_versions.
    apply (returns_bind (fun _ => True)); [ apply returns_any | intros cfg _ ].
    destruct (Copilot.enforce_client_key cfg key) as [ deny | ] eqn:Ek;
      [ apply returns_ret, (deny_clean cfg key), Ek | ].
    apply (returns_weaken screened); [ exact screened_clean | ].
    apply pbcs_request_screened. }
  split; [ intros; apply copilot_definitions_clean | ].
  split; [ intros; apply copilot_execute_clean | ].
  split; [ intros; now apply copilot_status_clean | ].
  intros; now apply copilot_details_clean.
Qed.

Lemma copilot_tools_mask_ok_results_witness :
  exists r s',
    Copilot.planning_get_job_details world_chatty (VStr "42") 0 200 None None None
      fresh_state
    = (Ret r, s')
    /\ truthy (get r "ok") = true
    /\ masked r = true.
Proof.
  destruct (Copilot.planning_get_job_details world_chatty (VStr "42") 0 200 None None
              None fresh_state) as [ [ r | e ] s' ] eqn:E; [ | discriminate E ].
  exists r, s'. split; [ reflexivity | ].
  assert (Hok : truthy (get r "ok") = true) by (injection E as <- _; reflexivity).
  split; [ exact Hok | ].
  exact (proj2 (proj2 (proj2 (proj2 (copilot_tools_mask_ok_results world_chatty None))))
           (VStr "42") 0 200 None None eq_refl fresh_state r s' E Hok).
Defined.

(** *** Where a watch can leak *)

(** Evaluates the test of the keys that the code writes. *)
Ltac eval_sensitive :=
  repeat match goal with
         | |- context [ sensitive ?k ] =>
             let b := eval vm_compute in (sensitive k) in
             change (sensitive k) with b
         | H : context [ sensitive ?k ] |- _ =>
             let b := eval vm_compute in (sensitive k) in
             change (sensitive k) with b in H
         end;
  cbv iota.

Lemma observer_status_failed W job_id application api_version :
  returns (fun r => truthy (get r "ok") = false -> masked r = masked (get r "message"))
    (Observer.planning_get_job_status W job_id application api_version).
Proof.
  unfold Observer.planning_get_job_status.
  apply (returns_bind (fun _ => True)); [ apply returns_any | intros cfg _ ].
  cbv zeta.
  apply (returns_bind screened); [ apply pbcs_get_screened | intros res (_ & _ & Hm) ].
  destruct (truthy (get res "ok")) eqn:E; cbn [negb];
    [ | now apply returns_ret ].
  repeat (apply (returns_bind (fun _ => True)); [ apply returns_any | intros ? _ ]).
  apply returns_ret. intros H. discriminate H.
Qed.

Lemma observer_details_failed W job_id offset limit application api_version :
  returns (fun r => truthy (get r "ok") = false -> masked r = masked (get r "message"))
    (Observer.planning_get_job_details W job_id offset limit application api_version).
Proof.
  unfold Observer.planning_get_job_details.
  apply (returns_bind (fun _ => True)); [ apply returns_any | intros cfg _ ].
  cbv zeta.
  apply (returns_bind screened); [ apply pbcs_get_screened | intros res (_ & _ & Hm) ].
  destruct (truthy (get res "ok")) eqn:E; cbn [negb];
    [ | now apply returns_ret ].
  repeat (apply (returns_bind (fun _ => True)); [ apply returns_any | intros ? _ ]).
  apply returns_ret. intros H. discriminate H.
Qed.

Lemma returns_both {S A : Type} (P Q : A -> Prop) (m : M S A) :
  returns P m -> returns Q m -> returns (fun a => P a /\ Q a) m.
Proof. intros HP HQ s a s' E. split; [ exact (HP s a s' E) | exact (HQ s a s' E) ]. Qed.

(** A result that is masked when it is ok and leaks at most through its
    message when it is not leaks at most through its message. *)
Lemma leaks_only_message (r : value) :
  clean_when_ok r ->
  (truthy (get r "ok") = false -> masked r = masked (get r "message")) ->
  masked r = masked (get r "message").
Proof.
  intros Hok Hfail. destruct (truthy (get r "ok")) eqn:E; [ | now apply Hfail ].
  rewrite (Hok E). symmetry. apply masked_get; [ exact (Hok E) | reflexivity ].
Qed.

Lemma masked_poll_record (t : Q) (st : value) :
  masked st = true -> masked (poll_record t st) = true.
Proof. intros H. unfold poll_record. masked_dict. Qed.

Lemma watch_loop_leaks W fuel job_id poll timeout application api_version start polls :
  Forall (fun x => masked x = true) polls ->
  returns (fun e =>
             match e with
             | None => True
             | Some (Returned result) =>
                 watch_leak result
                 /\ masked (get result "job") = true
                 /\ masked (get result "polls") = true
                 /\ masked (get result "lastStatus") = true
                 /\ masked (get result "status_call")
                    = masked (get (get result "status_call") "message")
                 /\ masked (get result "details")
                    = masked (get (get result "details") "message")
                 /\ clean_when_ok (get result "details")
             | Some (Broke polls' last) =>
                 Forall (fun x => masked x = true) polls' /\ masked last = true
             end)
    (Observer.watch_loop W fuel job_id poll timeout application api_version start polls).
Proof.
  revert polls. induction fuel as [ | fuel IH ]; intros polls Hpolls.
  - now apply returns_ret.
  - cbn [Observer.watch_loop].
    apply (returns_bind (fun st => clean_when_ok st
                                   /\ (truthy (get st "ok") = false ->
                                       masked st = masked (get st "message")))).
    { apply returns_both; [ apply observer_status_clean | apply observer_status_failed ]. }
    intros st (Hclean & Hfail).
    destruct (truthy (get st "ok")) eqn:Hok; cbn [negb].
    + pose proof (Hclean Hok) as Hst.
      apply (returns_bind (fun _ => True)); [ apply returns_any | intros t _ ].
      cbv zeta.
      assert (Hpolls' : Forall (fun x => masked x = true) (polls ++ [poll_record t st])).
      { apply Forall_app. split; [ exact Hpolls | ].
        constructor; [ now apply masked_poll_record | constructor ]. }
      apply (returns_bind (fun _ => True)); [ apply returns_any | intros done _ ].
      destruct done; [ now apply returns_ret | ].
      apply (returns_bind (fun _ => True)); [ apply returns_any | intros now _ ].
      destruct (timed_out now start timeout).
      * apply returns_ret. unfold watch_leak, Observer.TIMEOUT.
        apply masked_list in Hpolls'.
        split; [ transitivity true; [ masked_dict | reflexivity ] | ].
        cbn [get lookup String.eqb Ascii.eqb Bool.eqb].
        split; [ reflexivity | ].
        split; [ exact Hpolls' | ].
        split; [ exact Hst | ].
        split; [ reflexivity | ].
        split; [ reflexivity | intros _; reflexivity ].
      * apply (returns_bind (fun _ => True)); [ apply returns_any | intros _ _ ].
        now apply IH.
    + apply returns_ret. unfold watch_leak, Observer.POLL_FAILED.
      cbn [get lookup String.eqb Ascii.eqb Bool.eqb].
      split.
      { rewrite <- (Hfail eq_refl).
        change (masked (get VNone "message")) with true.
        cbn [masked forallb]. eval_sensitive.
        now rewrite !andb_true_r. }
      split; [ reflexivity | ].
      split; [ reflexivity | ].
      split; [ reflexivity | ].
      split; [ exact (Hfail eq_refl) | ].
      split; [ reflexivity | intros _; reflexivity ].
Qed.

(** X21.  Where a watch can leak.  Whatever the service answers, a
    result of [planning_watch_job] (a report, a [TIMEOUT] or a
    [POLL_FAILED]) holds an unmasked sensitive key only inside the
    [message] of the failed status call or of the failed details call
    that it carries.  Its other parts are masked: the [job] of a report
    with its polls and final status, the [polls] and the [lastStatus]
    of a [TIMEOUT]; the status call of a [POLL_FAILED] and the details
    of a report are masked when their own [message] is, and the details
    are masked whenever they are ok. *)
Theorem watch_leaks_only_messages W fuel job_id poll timeout include_details offset
  limit application api_version :
  returns (fun o =>
             match o with
             | Some r =>
                 watch_leak r
                 /\ masked (get r "job") = true
                 /\ masked (get r "polls") = true
                 /\ masked (get r "lastStatus") = true
                 /\ masked (get r "status_call")
                    = masked (get (get r "status_call") "message")
                 /\ masked (get r "details")
                    = masked (get (get r "details") "message")
                 /\ clean_when_ok (get r "details")
             | None => True
             end)
    (Observer.planning_watch_job W fuel job_id poll timeout include_details offset
       limit application api_version).
Proof.
  unfold Observer.planning_watch_job.
  apply (returns_bind (fun _ => True)); [ apply returns_any | intros start _ ].
  eapply returns_bind; [ apply watch_loop_leaks; constructor | ].
  intros [ [ result | polls last ] | ] He; [ | | now apply returns_ret ].
  { apply returns_ret. exact He. }
  destruct He as (Hpolls & Hlast).
  apply (returns_bind (fun details => clean_when_ok details
                                      /\ masked details
                                         = masked (get details "message"))).
  - destruct include_details; [ | apply returns_ret; split; [ intros _ | ]; reflexivity ].
    intros tr details tr' E. split.
    + exact (observer_details_clean _ _ _ _ _ _ _ _ _ E).
    + apply leaks_only_message.
      * exact (observer_details_clean _ _ _ _ _ _ _ _ _ E).
      * exact (observer_details_failed _ _ _ _ _ _ _ _ _ E).
  - intros details (Hclean & Hd). apply returns_ret.
    unfold watch_leak, Observer.watch_report.
    apply masked_list in Hpolls.
    assert (Hjob : masked (VDict [("jobId", VStr job_id);
                                  ("finalStatus", get (py_or last (VDict [])) "status");
                                  ("pollCount", VInt (Z.of_nat (length polls)));
                                  ("polls", VList polls)]) = true)
      by masked_dict.
    cbn [get lookup String.eqb Ascii.eqb Bool.eqb].
    split.
    { rewrite <- Hd.
      change (masked (get VNone "message")) with true.
      cbn [masked forallb] in Hjob |- *. eval_sensitive.
      cbn [andb] in Hjob |- *. rewrite Hjob. cbn [andb]. now rewrite !andb_true_r. }
    split; [ exact Hjob | ].
    split; [ reflexivity | ].
    split; [ reflexivity | ].
    split; [ reflexivity | ].
    split; [ exact Hd | exact Hclean ].
Qed.

Lemma watch_leaks_only_messages_witness :
  exists r tr,
    Observer.planning_watch_job world_chatty 2 "42" 10 600 true 0 200 None None []
    = (Ret (Some r), tr)
    /\ masked r = true
    /\ masked (get r "job") = true.
Proof.
  destruct (Observer.planning_watch_job world_chatty 2 "42" 10 600 true 0 200 None None [])
    as [ [ [ r | ] | e ] tr ] eqn:E; try discriminate E.
  exists r, tr. split; [ reflexivity | ].
  pose proof (watch_leaks_only_messages _ _ _ _ _ _ _ _ _ _ _ _ _ E) as (H & Hjob & _).
  split; [ | exact Hjob ].
  unfold watch_leak in H. rewrite H.
  injection E as <- _. reflexivity.
Defined.

End ScreenFacts.

(* ================================================================== *)
(** ** What the servers send *)
(* ================================================================== *)

Module TrafficFacts.

Section Added.
Context {S : Type} (tr_of : S -> trace).

Lemma added_ret {A : Type} (P : trace -> Prop) (a : A) :
  P [] -> added_by tr_of P (ret a).
Proof.
  intros H s r s' E. unfold ret in E. inversion E; subst.
  exists []. now rewrite app_nil_r.
Qed.

Lemma added_raise {A : Type} (P : trace -> Prop) (e : exn) :
  P [] -> added_by tr_of P (@raise S A e).
Proof.
  intros H s r s' E. unfold raise in E. inversion E; subst.
  exists []. now rewrite app_nil_r.
Qed.

Lemma added_lift {A : Type} (P : trace -> Prop) (x : res A) :
  P [] -> added_by tr_of P (@lift S A x).
Proof.
  intros H s r s' E. unfold lift in E. inversion E; subst.
  exists []. now rewrite app_nil_r.
Qed.

Lemma added_bind {A B : Type} (P Q R : trace -> Prop) (m : M S A) (f : A -> M S B) :
  added_by tr_of P m ->
  (forall a, added_by tr_of Q (f a)) ->
  Q [] ->
  (forall x y, P x -> Q y -> R (x ++ y)) ->
  added_by tr_of R (bind m f).
Proof.
  intros Hm Hf Hnil Happ s r s' E. unfold bind in E.
  destruct (m s) as [ [ a | e ] s1 ] eqn:Em.
  - destruct (Hm _ _ _ Em) as (x & Hx & Px).
    destruct (Hf a _ _ _ E) as (y & Hy & Qy).
    exists (x ++ y). rewrite Hy, Hx, app_assoc. split; [ reflexivity | now apply Happ ].
  - inversion E; subst. destruct (Hm _ _ _ Em) as (x & Hx & Px).
    exists x. split; [ exact Hx | ].
    rewrite <- (app_nil_r x). now apply Happ.
Qed.

Lemma added_weaken {A : Type} (P Q : trace -> Prop) (m : M S A) :
  (forall x, P x -> Q x) -> added_by tr_of P m -> added_by tr_of Q m.
Proof.
  intros H Hm s r s' E. destruct (Hm _ _ _ E) as (x & Hx & Px).
  exists x. split; [ exact Hx | now apply H ].
Qed.

(** A tool that begins with [cfg = load_config()]. *)
Lemma added_with_config {A C : Type} (P : trace -> Prop) (load : res C)
  (f : C -> M S A) :
  P [] ->
  (forall cfg, load = Ret cfg -> added_by tr_of P (f cfg)) ->
  added_by tr_of P (bind (lift load) f).
Proof.
  intros Hnil H s r s' E. rewrite bind_lift in E. destruct load as [ cfg | e ].
  - exact (H cfg eq_refl _ _ _ E).
  - inversion E; subst. exists []. now rewrite app_nil_r.
Qed.

(** The case of one predicate on the requests. *)
Lemma only_bind {A B : Type} (Q : request -> Prop) (m : M S A) (f : A -> M S B) :
  added_by tr_of (every_request Q) m ->
  (forall a, added_by tr_of (every_request Q) (f a)) ->
  added_by tr_of (every_request Q) (bind m f).
Proof.
  intros Hm Hf.
  apply (added_bind (every_request Q) (every_request Q)); try assumption.
  - constructor.
  - intros x y Hx Hy. apply Forall_app. now split.
Qed.

End Added.

Lemma only_send W (Q : request -> Prop) (rq : request) :
  Q rq -> added_by (fun tr : trace => tr) (every_request Q) (send W rq).
Proof.
  intros H tr r tr' E. unfold send in E. inversion E; subst.
  exists [EvRequest rq]. split; [ reflexivity | now repeat constructor ].
Qed.

Lemma only_time W (Q : request -> Prop) :
  added_by (fun tr : trace => tr) (every_request Q) (time_time W).
Proof.
  intros tr r tr' E. unfold time_time in E. inversion E; subst.
  exists [EvTime]. split; [ reflexivity | now repeat constructor ].
Qed.

Lemma only_sleep (Q : request -> Prop) (n : Z) :
  added_by (fun tr : trace => tr) (every_request Q) (time_sleep n).
Proof.
  intros tr r tr' E. unfold time_sleep in E. inversion E; subst.
  exists [EvSleep n]. split; [ reflexivity | now repeat constructor ].
Qed.

Lemma every_request_nil (Q : request -> Prop) : every_request Q [].
Proof. constructor. Qed.

#[local] Hint Resolve every_request_nil : core.

(** *** The interop servers *)

Lemma dualbase_get_plain W rq :
  dualbase_get W rq ->
  plain_get rq
  /\ exists cfg,
       Dualbase.load_config W = Ret cfg
       /\ rq_auth rq = Some (Some (Dualbase.username cfg), Some (Dualbase.password cfg))
       /\ rq_verify rq = Dualbase.verify_ssl cfg.
Proof.
  intros (cfg & path & params & Hcfg & ->). split; [ now repeat split | ].
  exists cfg. now repeat split.
Qed.

Lemma readonly_get_plain W rq :
  readonly_get W rq ->
  plain_get rq
  /\ exists cfg,
       Readonly.load_config W = Ret cfg
       /\ rq_auth rq = Some (Some (Readonly.username cfg), Some (Readonly.password cfg))
       /\ rq_verify rq = Readonly.verify_ssl cfg.
Proof.
  intros (cfg & path & params & Hcfg & ->). split; [ now repeat split | ].
  exists cfg. now repeat split.
Qed.

Lemma dualbase_only_gets W cfg path params :
  Dualbase.load_config W = Ret cfg ->
  added_by (fun tr : trace => tr) (every_request (dualbase_get W))
    (Dualbase.epm_get_dualbase W cfg path params).
Proof.
  intros Hcfg.
  assert (Hget : forall p,
             added_by (fun tr : trace => tr) (every_request (dualbase_get W))
               (Dualbase._http_get W (Dualbase.base_url cfg ++ p) cfg params 60)).
  { intros p tr r tr' E. apply DualbaseFacts.http_get_trace in E.
    exists [EvRequest (Dualbase.get_request (Dualbase.base_url cfg ++ p) cfg params 60)].
    split; [ exact E | ]. repeat constructor. now exists cfg, p, params. }
  unfold Dualbase.epm_get_dualbase. cbv zeta.
  apply only_bind; [ apply Hget | intros r1 ].
  destruct (truthy (get r1 "ok")); [ now apply added_ret | ].
  destruct (eq_int _ _); [ | now apply added_ret ].
  apply only_bind; [ apply Hget | intros r2 ].
  destruct (truthy (get r2 "ok")); now apply added_ret.
Qed.

Lemma readonly_only_gets W cfg path params :
  Readonly.load_config W = Ret cfg ->
  added_by (fun tr : trace => tr) (every_request (readonly_get W))
    (Readonly.epm_get W cfg path params 60).
Proof.
  intros Hcfg tr r tr' E.
  destruct (DualbaseFacts.readonly_get_cases W cfg path params 60 tr) as (r0 & E0 & _).
  rewrite E0 in E. inversion E; subst.
  eexists. split; [ reflexivity | ]. repeat constructor. now exists cfg, path, params.
Qed.

(** X11.  The two interop servers only read.  Whatever the service
    answers, every request that a tool of [epm_mcp_readonly_dualbase.py]
    or of [epm_mcp_readonly.py] sends is a GET without a body, to a URL
    that begins with the configured base or service URL, with the
    configured user and password; a tool whose configuration is
    incomplete sends nothing. *)
Theorem interop_servers_only_read (W : world) :
  (forall rq, dualbase_get W rq -> plain_get rq)
  /\ (forall rq, readonly_get W rq -> plain_get rq)
  /\ added_by (fun tr : trace => tr) (every_request (dualbase_get W))
       (Dualbase.epm_list_files W)
  /\ added_by (fun tr : trace => tr) (every_request (dualbase_get W))
       (Dualbase.epm_list_backups W)
  /\ added_by (fun tr : trace => tr) (every_request (dualbase_get W))
       (Dualbase.epm_get_daily_maintenance_time W)
  /\ (forall operation job_id,
         added_by (fun tr : trace => tr) (every_request (dualbase_get W))
           (Dualbase.epm_get_status W operation job_id))
  /\ added_by (fun tr : trace => tr) (every_request (readonly_get W))
       (Readonly.epm_list_files W)
  /\ added_by (fun tr : trace => tr) (every_request (readonly_get W))
       (Readonly.epm_list_backups W)
  /\ added_by (fun tr : trace => tr) (every_request (readonly_get W))
       (Readonly.epm_get_daily_maintenance_time W)
  /\ (forall operation job_id,
         added_by (fun tr : trace => tr) (every_request (readonly_get W))
           (Readonly.epm_get_status W operation job_id)).
Proof.
  split; [ intros rq H; apply (dualbase_get_plain W rq H) | ].
  split; [ intros rq H; apply (readonly_get_plain W rq H) | ].
  assert (Hd : forall path,
             added_by (fun tr : trace => tr) (every_request (dualbase_get W))
               (bind (lift (Dualbase.load_config W))
                  (fun cfg => Dualbase.epm_get_dualbase W cfg path None))).
  { intros path. apply added_with_config; [ constructor | intros cfg Hcfg ].
    now apply dualbase_only_gets. }
  assert (Hr : forall path,
             added_by (fun tr : trace => tr) (every_request (readonly_get W))
               (bind (lift (Readonly.load_config W))
                  (fun cfg => Readonly.epm_get W cfg path None 60))).
  { intros path. apply added_with_config; [ constructor | intros cfg Hcfg ].
    now apply readonly_only_gets. }
  do 3 (split; [ apply Hd | ]).
  split.
  { intros operation job_id. unfold Dualbase.epm_get_status.
    apply added_with_config; [ constructor | intros cfg Hcfg ].
    cbv zeta. destruct (Dualbase.bad_operation _); [ now apply added_ret | ].
    now apply dualbase_only_gets. }
  do 3 (split; [ apply Hr | ]).
  intros operation job_id. unfold Readonly.epm_get_status.
  apply added_with_config; [ constructor | intros cfg Hcfg ].
  cbv zeta. destruct (Readonly.bad_operation _); [ now apply added_ret | ].
  now apply readonly_only_gets.
Qed.

(** *** The job observer *)

Lemma observer_get_plain W rq :
  observer_get W rq ->
  plain_get rq
  /\ exists cfg,
       Observer.load_config W = Ret cfg
       /\ rq_auth rq = Some (Some (Observer.username cfg), Some (Observer.password cfg))
       /\ rq_verify rq = Observer.verify_ssl cfg.
Proof.
  intros (cfg & path & params & Hcfg & ->). split; [ now repeat split | ].
  exists cfg. now repeat split.
Qed.

Lemma pbcs_get_only_gets W cfg path params :
  Observer.load_config W = Ret cfg ->
  added_by (fun tr : trace => tr) (every_request (observer_get W))
    (Observer.pbcs_get W cfg path params 60).
Proof.
  intros Hcfg tr r tr' E. apply ObserverFacts.pbcs_get_trace in E.
  eexists. split; [ exact E | ]. repeat constructor. now exists cfg, path, params.
Qed.

(** Splits a computation into pieces that add observer GETs only. *)
Ltac only_steps :=
  repeat first
    [ apply added_ret; constructor
    | apply added_lift; constructor
    | apply only_time | apply only_sleep
    | apply pbcs_get_only_gets; assumption
    | assumption
    | apply only_bind; [ | intros ? ]
    | match goal with
      | |- added_by _ _ (if ?b then _ else _) => destruct b
      | |- added_by _ _ (match ?x with _ => _ end) => destruct x
      end ].

Lemma observer_status_only_gets W job_id application api_version :
  added_by (fun tr : trace => tr) (every_request (observer_get W))
    (Observer.planning_get_job_status W job_id application api_version).
Proof.
  unfold Observer.planning_get_job_status.
  apply added_with_config; [ constructor | intros cfg Hcfg ].
  cbv zeta. only_steps.
Qed.

Lemma observer_details_only_gets W job_id offset limit application api_version :
  added_by (fun tr : trace => tr) (every_request (observer_get W))
    (Observer.planning_get_job_details W job_id offset limit application api_version).
Proof.
  unfold Observer.planning_get_job_details.
  apply added_with_config; [ constructor | intros cfg Hcfg ].
  cbv zeta. only_steps.
Qed.

Lemma watch_loop_only_gets W fuel job_id poll timeout application api_version
  start polls :
  added_by (fun tr : trace => tr) (every_request (observer_get W))
    (Observer.watch_loop W fuel job_id poll timeout application api_version
       start polls).
Proof.
  revert polls. induction fuel as [ | fuel IH ]; intros polls.
  - apply added_ret. constructor.
  - cbn [Observer.watch_loop].
    apply only_bind; [ apply observer_status_only_gets | intros st ].
    destruct (negb (truthy (get st "ok"))); [ apply added_ret; constructor | ].
    apply only_bind; [ apply only_time | intros t ].
    cbv zeta.
    apply only_bind; [ apply added_lift; constructor | intros done ].
    destruct done; [ apply added_ret; constructor | ].
    apply only_bind; [ apply only_time | intros now ].
    destruct (timed_out now start timeout); [ apply added_ret; constructor | ].
    apply only_bind; [ apply only_sleep | intros _ ].
    apply IH.
Qed.

(** X12.  The job observer only reads, and so does its watch for every
    number of polls: every request of the version, job definition,
    status and details tools and of [planning_watch_job] is a GET
    without a body, to a URL that begins with the normalised base URL,
    with the configured user and password. *)
Theorem observer_only_reads (W : world) :
  (forall rq, observer_get W rq -> plain_get rq)
  /\ added_by (fun tr : trace => tr) (every_request (observer_get W))
       (Observer.planning_discover_versions W)
  /\ (forall application api_version,
         added_by (fun tr : trace => tr) (every_request (observer_get W))
           (Observer.planning_list_job_definitions W application api_version))
  /\ (forall job_id application api_version,
         added_by (fun tr : trace => tr) (every_request (observer_get W))
           (Observer.planning_get_job_status W job_id application api_version))
  /\ (forall job_id offset limit application api_version,
         added_by (fun tr : trace => tr) (every_request (observer_get W))
           (Observer.planning_get_job_details W job_id offset limit application
              api_version))
  /\ (forall fuel job_id poll timeout include_details offset limit application
             api_version,
         added_by (fun tr : trace => tr) (every_request (observer_get W))
           (Observer.planning_watch_job W fuel job_id poll timeout include_details
              offset limit application api_version)).
Proof.
  split; [ intros rq H; apply (observer_get_plain W rq H) | ].
  split.
  { unfold Observer.planning_discover_versions.
    apply added_with_config; [ constructor | intros cfg Hcfg ]. only_steps. }
  split.
  { intros. unfold Observer.planning_list_job_definitions.
    apply added_with_config; [ constructor | intros cfg Hcfg ].
    cbv zeta. only_steps. }
  split; [ intros; apply observer_status_only_gets | ].
  split; [ intros; apply observer_details_only_gets | ].
  intros. unfold Observer.planning_watch_job.
  apply only_bind; [ apply only_time | intros start ].
  apply only_bind; [ apply watch_loop_only_gets | intros [ [ result | polls last ] | ] ].
  - apply added_ret. constructor.
  - apply only_bind; [ | intros details; apply added_ret; constructor ].
    destruct include_details; [ apply observer_details_only_gets | ].
    apply added_ret. constructor.
  - apply added_ret. constructor.
Qed.

Lemma interop_servers_only_read_witness :
  exists added,
    snd (Dualbase.epm_list_files world_epmcloud []) = [] ++ added
    /\ every_request plain_get added
    /\ length (requests_of added) = 2%nat.
Proof.
  destruct (Dualbase.epm_list_files world_epmcloud []) as [ r tr' ] eqn:E.
  destruct (interop_servers_only_read world_epmcloud) as (Hplain & _ & Hfiles & _).
  destruct (Hfiles [] r tr' E) as (added & Hadd & Hall).
  exists added. split; [ exact Hadd | ]. split.
  - apply Forall_forall. intros ev Hev.
    pose proof (proj1 (Forall_forall _ _) Hall ev Hev) as H.
    destruct ev; [ now apply Hplain | exact I | exact I ].
  - cbn [app] in Hadd. rewrite <- Hadd.
    apply (f_equal snd) in E. cbn [snd] in E. rewrite <- E. reflexivity.
Defined.

Lemma observer_only_reads_witness :
  exists added,
    snd (Observer.planning_watch_job (world_job_done (VDict [])) 3 "42" 10 600 true
           0 200 None None []) = [] ++ added
    /\ every_request plain_get added
    /\ length (requests_of added) = 2%nat.
Proof.
  destruct (Observer.planning_watch_job (world_job_done (VDict [])) 3 "42" 10 600
              true 0 200 None None []) as [ r tr' ] eqn:E.
  destruct (observer_only_reads (world_job_done (VDict [])))
    as (Hplain & _ & _ & _ & _ & Hwatch).
  destruct (Hwatch _ _ _ _ _ _ _ _ _ [] r tr' E) as (added & Hadd & Hall).
  exists added. split; [ exact Hadd | ]. split.
  - apply Forall_forall. intros ev Hev.
    pose proof (proj1 (Forall_forall _ _) Hall ev Hev) as H.
    destruct ev; [ now apply Hplain | exact I | exact I ].
  - cbn [app] in Hadd. rewrite <- Hadd.
    apply (f_equal snd) in E. cbn [snd] in E. rewrite <- E. reflexivity.
Defined.

(** *** The job runner *)

Import Copilot.

Lemma added_on_log {A : Type} (P : trace -> Prop) (m : M trace A) :
  added_by (fun tr : trace => tr) P m -> added_by log P (on_log m).
Proof.
  intros H s r s' E. unfold on_log in E.
  destruct (m (log s)) as [ r0 tr ] eqn:Em. inversion E; subst.
  exact (H _ _ _ Em).
Qed.

Lemma added_read_cache (P : trace -> Prop) : P [] -> added_by log P read_cache.
Proof.
  intros H s r s' E. unfold read_cache in E. inversion E; subst.
  exists []. now rewrite app_nil_r.
Qed.

Lemma added_write_cache (P : trace -> Prop) c : P [] -> added_by log P (write_cache c).
Proof.
  intros H s r s' E. unfold write_cache in E. inversion E; subst.
  exists []. now rewrite app_nil_r.
Qed.

(** Splits a computation of the job runner into pieces that add
    requests satisfying one predicate. *)
Ltac log_steps :=
  repeat first
    [ apply added_ret; constructor
    | apply added_raise; constructor
    | apply added_lift; constructor
    | apply added_read_cache; constructor
    | apply added_write_cache; constructor
    | apply added_on_log; apply only_time
    | apply added_on_log; apply only_sleep
    | assumption
    | apply only_bind; [ | intros ? ]
    | match goal with
      | |- added_by _ _ (if ?b then _ else _) => destruct b
      | |- added_by _ _ (match ?x with _ => _ end) => destruct x
      | |- added_by _ _ (let (_, _) := ?x in _) => destruct x
      end ].

Lemma oauth_only_token_requests W cfg (Q : request -> Prop) :
  Q (token_request cfg) ->
  added_by log (every_request Q) (get_oauth_token W cfg).
Proof.
  intros HQ.
  assert (Hsend : added_by log (every_request Q) (on_log (send W (token_request cfg))))
    by (apply added_on_log; now apply only_send).
  unfold get_oauth_token, TokenCache_get, TokenCache_set. log_steps.
Qed.

Lemma pbcs_request_traffic W cfg method path params json_body t (Q : request -> Prop) :
  Q (token_request cfg) ->
  (forall bearer,
      Q (rest_request cfg method (base_url cfg ++ path) bearer params json_body t)) ->
  added_by log (every_request Q) (pbcs_request W cfg method path params json_body t).
Proof.
  intros Htok Hrest.
  pose proof (oauth_only_token_requests W cfg Q Htok) as Hoauth.
  assert (Hsend : forall bearer,
             added_by log (every_request Q)
               (on_log (send W (rest_request cfg method (base_url cfg ++ path) bearer
                                  params json_body t))))
    by (intros bearer; apply added_on_log; now apply only_send).
  unfold pbcs_request. cbv zeta.
  destruct (String.eqb (auth_mode cfg) "basic").
  - apply only_bind; [ apply Hsend | intros r ]. log_steps.
  - apply only_bind; [ exact Hoauth | intros [ ok tok ] ].
    destruct (negb ok); [ apply added_ret; constructor | ].
    apply only_bind; [ apply Hsend | intros r ]. log_steps.
Qed.

(** At most one of the requests that [pbcs_request] sends goes to the
    Planning service; the others ask for a token. *)
Lemma pbcs_request_once W cfg method path params json_body t :
  added_by log
    (fun added =>
       exists tokens rest,
         added = tokens ++ rest
         /\ every_request (eq (token_request cfg)) tokens
         /\ (rest = []
             \/ exists bearer,
                  rest = [EvRequest (rest_request cfg method (base_url cfg ++ path)
                                       bearer params json_body t)]))
    (pbcs_request W cfg method path params json_body t).
Proof.
  pose proof (oauth_only_token_requests W cfg (eq (token_request cfg)) eq_refl) as Hoauth.
  assert (Hcall : forall bearer (k : reply -> M state value),
             (forall r, added_by log (fun added => added = []) (k r)) ->
             added_by log
               (fun added =>
                  added = []
                  \/ exists bearer,
                       added = [EvRequest (rest_request cfg method (base_url cfg ++ path)
                                             bearer params json_body t)])
               (bind (on_log (send W (rest_request cfg method (base_url cfg ++ path)
                                        bearer params json_body t))) k)).
  { intros bearer k Hk.
    apply (added_bind log
             (fun added => added = [EvRequest (rest_request cfg method
                                                 (base_url cfg ++ path) bearer params
                                                 json_body t)])
             (fun added => added = [])).
    - intros s r s' E. rewrite CopilotFacts.on_log_send in E. inversion E; subst.
      eexists. split; reflexivity.
    - exact Hk.
    - reflexivity.
    - intros x y -> ->. right. now exists bearer. }
  assert (Hk : forall r : reply,
             added_by log (fun added => added = [])
               (match r with
                | Failed msg =>
                    ret (VDict [("ok", VBool false); ("error", VStr "NETWORK_ERROR");
                                ("message", VStr msg)])
                | Response r =>
                    if 300 <=? resp_status_code r
                    then bind (lift (error_message (payload_of r) r))
                           (fun message =>
                              ret (VDict [("ok", VBool false);
                                          ("error", VStr "HTTP_ERROR");
                                          ("status_code", VInt (resp_status_code r));
                                          ("message", message);
                                          ("response", redact (payload_of r))]))
                    else ret (VDict [("ok", VBool true);
                                     ("status_code", VInt (resp_status_code r));
                                     ("response", redact (payload_of r))])
                end)).
  { intros [ msg | rp ]; [ now apply added_ret | ].
    destruct (300 <=? resp_status_code rp); [ | now apply added_ret ].
    apply (added_bind log (fun added => added = []) (fun added => added = []));
      [ now apply added_lift | intros; now apply added_ret | reflexivity | ].
    now intros x y -> ->. }
  unfold pbcs_request. cbv zeta.
  destruct (String.eqb (auth_mode cfg) "basic").
  - eapply added_weaken; [ | apply (Hcall None _ Hk) ].
    intros x Hx. exists [], x. split; [ reflexivity | ]. split; [ constructor | exact Hx ].
  - apply (added_bind log (every_request (eq (token_request cfg)))
             (fun added =>
                added = []
                \/ exists bearer,
                     added = [EvRequest (rest_request cfg method (base_url cfg ++ path)
                                           bearer params json_body t)])).
    + exact Hoauth.
    + intros [ ok tok ]. destruct (negb ok).
      * apply added_ret. now left.
      * apply (Hcall _ _ Hk).
    + now left.
    + intros x y Hx Hy. now exists x, y.
Qed.

Lemma token_request_posts_no_job cfg : posts_job (token_request cfg) = false.
Proof.
  unfold posts_job, token_request. cbn [rq_data].
  now destruct (present (oauth_scope cfg)).
Qed.

Lemma copilot_read_posts_no_job W rq : copilot_read W rq -> posts_job rq = false.
Proof.
  intros (cfg & _ & [ -> | (path & bearer & params & ->) ]).
  - apply token_request_posts_no_job.
  - reflexivity.
Qed.

Lemma submissions_app (x y : trace) :
  submissions (x ++ y) = submissions x ++ submissions y.
Proof. unfold submissions. now rewrite ObserverFacts.requests_of_app, filter_app. Qed.

Lemma submissions_of_reads W (x : trace) :
  every_request (copilot_read W) x -> submissions x = [].
Proof.
  unfold submissions. induction 1 as [ | ev r Hev _ IH ]; [ reflexivity | ].
  destruct ev as [ rq | | ]; cbn [requests_of flat_map app]; try exact IH.
  change (filter posts_job (rq :: requests_of r) = []). cbn [filter].
  now rewrite (copilot_read_posts_no_job W rq Hev).
Qed.

Lemma copilot_get_reads W cfg path params :
  load_config W = Ret cfg ->
  added_by log (every_request (copilot_read W))
    (pbcs_request W cfg "GET" path params None 60).
Proof.
  intros Hcfg. apply pbcs_request_traffic.
  - exists cfg. split; [ exact Hcfg | now left ].
  - intros bearer. exists cfg. split; [ exact Hcfg | right ].
    now exists path, bearer, params.
Qed.

Lemma copilot_status_reads W job_id application api_version key :
  added_by log (every_request (copilot_read W))
    (planning_get_job_status W job_id application api_version key).
Proof.
  unfold planning_get_job_status.
  apply added_with_config; [ constructor | intros cfg Hcfg ].
  destruct (enforce_client_key cfg key); [ apply added_ret; constructor | ].
  cbv zeta. apply only_bind; [ now apply copilot_get_reads | intros res ].
  log_steps.
Qed.

Lemma copilot_details_reads W job_id offset limit application api_version key :
  added_by log (every_request (copilot_read W))
    (planning_get_job_details W job_id offset limit application api_version key).
Proof.
  unfold planning_get_job_details.
  apply added_with_config; [ constructor | intros cfg Hcfg ].
  destruct (enforce_client_key cfg key); [ apply added_ret; constructor | ].
  cbv zeta. apply only_bind; [ now apply copilot_get_reads | intros res ].
  log_steps.
Qed.

Lemma wait_loop_reads W fuel job_id poll timeout application api_version key
  start polls :
  added_by log (every_request (copilot_read W))
    (wait_loop W fuel job_id poll timeout application api_version key start polls).
Proof.
  revert polls. induction fuel as [ | fuel IH ]; intros polls.
  - apply added_ret. constructor.
  - cbn [wait_loop].
    apply only_bind; [ apply copilot_status_reads | intros st ].
    destruct (negb (truthy (get st "ok"))); [ apply added_ret; constructor | ].
    apply only_bind; [ apply added_on_log, only_time | intros t ].
    cbv zeta.
    apply only_bind; [ apply added_lift; constructor | intros done ].
    destruct done; [ apply added_ret; constructor | ].
    apply only_bind; [ apply added_on_log, only_time | intros now ].
    destruct (timed_out now start timeout); [ apply added_ret; constructor | ].
    apply only_bind; [ apply added_on_log, only_sleep | intros _ ].
    apply IH.
Qed.

Lemma one_submission_nil W job_type job_name : one_submission W job_type job_name [].
Proof. split; [ constructor | apply Nat.le_0_l ]. Qed.

Lemma one_submission_then_reads W job_type job_name (x y : trace) :
  one_submission W job_type job_name x ->
  every_request (copilot_read W) y ->
  one_submission W job_type job_name (x ++ y).
Proof.
  intros (Hx & Hn) Hy. split.
  - apply Forall_app. split; [ exact Hx | ].
    eapply Forall_impl; [ | exact Hy ]. intros [ rq | | ]; [ now left | easy | easy ].
  - now rewrite submissions_app, (submissions_of_reads W y Hy), app_nil_r.
Qed.

Lemma execute_submits_once W job_type job_name parameters application api_version key :
  added_by log (one_submission W job_type job_name)
    (planning_execute_job W job_type job_name parameters application api_version key).
Proof.
  unfold planning_execute_job.
  apply added_with_config; [ apply one_submission_nil | intros cfg Hcfg ].
  destruct (enforce_client_key cfg key); [ apply added_ret, one_submission_nil | ].
  destruct (allowlist_check cfg job_type job_name);
    [ apply added_ret, one_submission_nil | ].
  cbv zeta.
  apply (added_bind log (one_submission W job_type job_name)
           (every_request (copilot_read W))).
  - eapply added_weaken; [ | apply pbcs_request_once ].
    intros added (tokens & rest & -> & Htok & Hrest).
    assert (Hreads : every_request (copilot_read W) tokens).
    { eapply Forall_impl; [ | exact Htok ].
      intros [ rq | | ]; [ | easy | easy ].
      intros <-. exists cfg. split; [ exact Hcfg | now left ]. }
    split.
    + apply Forall_app. split.
      * eapply Forall_impl; [ | exact Hreads ].
        intros [ rq | | ]; [ now left | easy | easy ].
      * destruct Hrest as [ -> | (bearer & ->) ]; [ constructor | ].
        apply Forall_cons; [ | apply Forall_nil ]. right.
        exists cfg, (jobs_path (or_str api_version (Copilot.api_version cfg))
                       (or_str application (Copilot.application cfg))), bearer,
          (if truthy parameters then [("parameters", parameters)] else []).
        now split.
    + rewrite submissions_app, (submissions_of_reads W tokens Hreads).
      destruct Hrest as [ -> | (bearer & ->) ]; [ apply Nat.le_0_l | ].
      cbn [app]. unfold submissions. cbn [requests_of flat_map app filter].
      destruct (posts_job _); cbn [length]; lia.
  - intros res. log_steps.
  - constructor.
  - apply one_submission_then_reads.
Qed.

(** X13.  What the job runner sends.  The version, job definition,
    status and details tools send nothing but token requests and GETs
    without a body under the base URL; none of these submits a job.
    [planning_execute_job] and [planning_run_job_and_wait], for every
    number of polls and every answer of the service, send besides these
    at most one request that submits a job, and it is a POST to the
    Planning service that names the job type and the job name of the
    call: a submission is never repeated. *)
Theorem copilot_submits_at_most_once (W : world) (key : option string) :
  (forall rq, copilot_read W rq -> posts_job rq = false)
  /\ added_by log (every_request (copilot_read W)) (planning_discover_versions W key)
  /\ (forall application api_version,
         added_by log (every_request (copilot_read W))
           (planning_list_job_definitions W application api_version key))
  /\ (forall job_id application api_version,
         added_by log (every_request (copilot_read W))
           (planning_get_job_status W job_id application api_version key))
  /\ (forall job_id offset limit application api_version,
         added_by log (every_request (copilot_read W))
           (planning_get_job_details W job_id offset limit application
              api_version key))
  /\ (forall job_type job_name parameters application api_version,
         added_by log (one_submission W job_type job_name)
           (planning_execute_job W job_type job_name parameters application
              api_version key))
  /\ (forall fuel job_type job_name parameters poll timeout application api_version
             offset limit,
         added_by log (one_submission W job_type job_name)
           (planning_run_job_and_wait W fuel job_type job_name parameters poll
              timeout application api_version offset limit key)).
Proof.
  split; [ apply copilot_read_posts_no_job | ].
  split.
  { unfold planning_discover_versions.
    apply added_with_config; [ constructor | intros cfg Hcfg ].
    destruct (enforce_client_key cfg key); [ apply added_ret; constructor | ].
    now apply copilot_get_reads. }
  split.
  { intros. unfold planning_list_job_definitions.
    apply added_with_config; [ constructor | intros cfg Hcfg ].
    destruct (enforce_client_key cfg key); [ apply added_ret; constructor | ].
    cbv zeta. apply only_bind; [ now apply copilot_get_reads | intros res ].
    log_steps. }
  split; [ intros; apply copilot_status_reads | ].
  split; [ intros; apply copilot_details_reads | ].
  split; [ intros; apply execute_submits_once | ].
  intros. unfold planning_run_job_and_wait.
  apply (added_bind log (one_submission W job_type job_name)
           (every_request (copilot_read W)));
    [ apply execute_submits_once | | constructor | apply one_submission_then_reads ].
  intros exec_res.
  destruct (negb (truthy (get exec_res "ok"))); [ apply added_ret; constructor | ].
  cbv zeta.
  destruct (negb (truthy (get exec_res "jobId"))); [ apply added_ret; constructor | ].
  apply only_bind; [ apply added_on_log, only_time | intros start ].
  apply only_bind; [ apply wait_loop_reads | intros [ [ result | polls last ] | ] ].
  - apply added_ret. constructor.
  - apply only_bind; [ apply copilot_details_reads | intros details ].
    cbv zeta. log_steps.
  - apply added_ret. constructor.
Qed.

Lemma copilot_submits_at_most_once_witness :
  exists added,
    log (snd (planning_run_job_and_wait (world_planning (VDict [("jobId", VStr "42")]))
                3 "REFRESH_CUBE" "RefreshPlan1" VNone 10 600 None None 0 200 None
                fresh_state))
    = log fresh_state ++ added
    /\ length (submissions added) = 1%nat
    /\ length (requests_of added) = 4%nat.
Proof.
  destruct (planning_run_job_and_wait (world_planning (VDict [("jobId", VStr "42")]))
              3 "REFRESH_CUBE" "RefreshPlan1" VNone 10 600 None None 0 200 None
              fresh_state) as [ r s' ] eqn:E.
  destruct (copilot_submits_at_most_once
              (world_planning (VDict [("jobId", VStr "42")])) None)
    as (_ & _ & _ & _ & _ & _ & Hrun).
  destruct (Hrun _ _ _ _ _ _ _ _ _ _ fresh_state r s' E) as (added & Hadd & _ & Hone).
  exists added. split; [ exact Hadd | ].
  cbn [log fresh_state app] in Hadd. cbn [snd]. rewrite <- Hadd.
  apply (f_equal (fun x => log (snd x))) in E. cbn [snd] in E. rewrite <- E.
  split; reflexivity.
Defined.

End TrafficFacts.

(* ================================================================== *)
(** ** The watch of the job observer *)
(* ================================================================== *)

Module WatchFacts.
Import Observer.

Lemma status_trace W cfg job_id application api_version tr r tr' :
  load_config W = Ret cfg ->
  planning_get_job_status W job_id application api_version tr = (r, tr') ->
  exists rq, tr' = tr ++ [EvRequest rq] /\ rq_params rq = None.
Proof.
  intros Hcfg. unfold planning_get_job_status. rewrite bind_lift, Hcfg. cbv zeta.
  match goal with
  | |- context [ pbcs_get W cfg ?p ?q ?t ] =>
      destruct (pbcs_get W cfg p q t tr) as [[res | e] tr2] eqn:Hget;
        pose proof (ObserverFacts.pbcs_get_trace _ _ _ _ _ _ _ _ Hget) as Ht
  end.
  - rewrite (bind_ret_eq _ _ _ _ _ Hget).
    assert (Hsame : forall (m : M trace value), snd (m tr2) = tr2 -> m tr2 = (r, tr') ->
                    exists rq, tr' = tr ++ [EvRequest rq] /\ rq_params rq = None).
    { intros m Hs Hm. rewrite Hm in Hs. simpl in Hs. subst tr'.
      eexists. split; [ exact Ht | reflexivity ]. }
    apply Hsame.
    destruct (negb (truthy (get res "ok"))); [ reflexivity | ].
    unfold bind, lift, ret.
    destruct (first_of _ _); [ | reflexivity ].
    destruct (dget _ "percentComplete"); [ | reflexivity ].
    destruct (dget _ "startTime"); [ | reflexivity ].
    destruct (dget _ "endTime"); reflexivity.
  - rewrite (bind_raise_eq _ _ _ _ _ Hget). intros H; inversion H; subst.
    eexists. split; reflexivity.
Qed.

(** What one run of the polling loop leaves behind: [k] status requests
    and [k - 1] sleeps of the same length, and [k] more polls on
    record. *)
Lemma watch_loop_accounting W fuel job_id poll timeout application api_version
  start polls tr e tr' :
  watch_loop W fuel job_id poll timeout application api_version start polls tr
  = (Ret (Some e), tr') ->
  exists added k,
    tr' = tr ++ added
    /\ length (requests_of added) = S k
    /\ sleeps_of added = repeat (Z.max 1 poll) k
    /\ match e with
       | Broke polls' last => length polls' = (length polls + S k)%nat
       | Returned result =>
           (exists st, result = POLL_FAILED job_id st)
           \/ (exists st polls',
                  result = TIMEOUT job_id timeout st polls'
                  /\ length polls' = (length polls + S k)%nat)
       end.
Proof.
  revert polls tr. induction fuel as [ | fuel IH ]; intros polls tr; [ discriminate | ].
  cbn [watch_loop].
  destruct (planning_get_job_status W job_id application api_version tr)
    as [ [ st | ex ] tr1 ] eqn:Hst.
  2: { rewrite (bind_raise_eq _ _ _ _ _ Hst). discriminate. }
  rewrite (bind_ret_eq _ _ _ _ _ Hst).
  destruct (ObserverFacts.status_returns_configured _ _ _ _ _ _ _ Hst) as (cfg & Hcfg).
  destruct (status_trace _ _ _ _ _ _ _ _ Hcfg Hst) as (rq & -> & _).
  destruct (negb (truthy (get st "ok"))).
  { intros H. inversion H; subst. exists [EvRequest rq], 0%nat.
    repeat split. left. now exists st. }
  unfold bind at 1, time_time at 1. cbv beta iota zeta.
  rewrite bind_lift.
  destruct (terminal (get st "status")) as [ [ | ] | ex ]; [ | | discriminate ].
  { intros H. inversion H; subst. exists [EvRequest rq; EvTime], 0%nat.
    rewrite <- app_assoc. repeat split. rewrite length_app. cbn [length]. lia. }
  unfold bind at 1, time_time at 1. cbv beta iota zeta.
  destruct (timed_out _ start timeout).
  { intros H. inversion H; subst. exists [EvRequest rq; EvTime; EvTime], 0%nat.
    rewrite <- !app_assoc. repeat split. right.
    eexists _, _. split; [ reflexivity | ]. rewrite length_app. cbn [length]. lia. }
  unfold bind at 1, time_sleep at 1. cbv beta iota zeta.
  intros H. destruct (IH _ _ H) as (added & k & -> & Hreq & Hsl & He).
  exists ([EvRequest rq; EvTime; EvTime; EvSleep (Z.max 1 poll)] ++ added), (S k).
  rewrite <- !app_assoc. cbn [app].
  split; [ reflexivity | ].
  split; [ cbn [requests_of flat_map app length]; fold (requests_of added);
           now rewrite Hreq | ].
  split; [ cbn [sleeps_of flat_map app]; fold (sleeps_of added); now rewrite Hsl | ].
  rewrite length_app in He. cbn [length] in He.
  destruct e as [ result | polls' last ].
  - destruct He as [ He | (st' & polls' & -> & He) ]; [ now left | right ].
    eexists _, _. split; [ reflexivity | lia ].
  - lia.
Qed.

(** X14.  The bookkeeping of [planning_watch_job].  A report, and a
    [TIMEOUT] result, list one poll per status request that was sent;
    [pollCount] is the number of these polls; between two polls, and
    nowhere else, the watch sleeps [max(1, poll_interval_seconds)]
    seconds; and a report costs one request more exactly when the
    details were asked for. *)
Theorem watch_accounting W fuel job_id poll timeout include_details offset limit
  application api_version tr r tr' :
  planning_watch_job W fuel job_id poll timeout include_details offset limit
    application api_version tr
  = (Ret (Some r), tr') ->
  exists added,
    tr' = tr ++ added
    /\ Forall (eq (Z.max 1 poll)) (sleeps_of added)
    /\ (truthy (get r "ok") = true ->
        exists polls,
          get (get r "job") "polls" = VList polls
          /\ get (get r "job") "pollCount" = VInt (Z.of_nat (length polls))
          /\ length (requests_of added)
             = (length polls + if include_details then 1 else 0)%nat
          /\ S (length (sleeps_of added)) = length polls)
    /\ (get r "error" = VStr "TIMEOUT" ->
        exists polls,
          get r "polls" = VList polls
          /\ length (requests_of added) = length polls
          /\ S (length (sleeps_of added)) = length polls).
Proof.
  unfold planning_watch_job.
  unfold bind at 1, time_time at 1. cbv beta iota zeta.
  destruct (watch_loop W fuel job_id poll timeout application api_version
              (clock W tr) [] (tr ++ [EvTime])) as [ [ [ e | ] | ex ] tr1 ] eqn:Hloop.
  3: { rewrite (bind_raise_eq _ _ _ _ _ Hloop). discriminate. }
  2: { rewrite (bind_ret_eq _ _ _ _ _ Hloop). discriminate. }
  rewrite (bind_ret_eq _ _ _ _ _ Hloop).
  destruct (watch_loop_accounting _ _ _ _ _ _ _ _ _ _ _ _ Hloop)
    as (added & k & -> & Hreq & Hsl & He).
  assert (Hall : Forall (eq (Z.max 1 poll)) (sleeps_of added)).
  { rewrite Hsl. apply Forall_forall. intros x Hx. now apply repeat_spec in Hx. }
  destruct e as [ result | polls last ].
  - intros H. inversion H; subst. exists (EvTime :: added).
    rewrite <- app_assoc. split; [ reflexivity | ]. split; [ exact Hall | ].
    destruct He as [ (st & ->) | (st & polls' & -> & He) ].
    + split; [ discriminate | discriminate ].
    + split; [ discriminate | intros _ ].
      exists polls'. split; [ reflexivity | ].
      cbn [requests_of sleeps_of flat_map app].
      fold (requests_of added). fold (sleeps_of added).
      rewrite Hreq, Hsl, repeat_length. cbn [length] in He. lia.
  - cbn [length] in He.
    destruct include_details.
    + destruct (planning_get_job_details W job_id offset limit application api_version
                  ((tr ++ [EvTime]) ++ added)) as [ [ details | ex ] tr2 ] eqn:Hd.
      2: { rewrite (bind_raise_eq _ _ _ _ _ Hd). discriminate. }
      rewrite (bind_ret_eq _ _ _ _ _ Hd).
      assert (Hcfg : exists cfg, load_config W = Ret cfg).
      { unfold planning_get_job_details in Hd. rewrite bind_lift in Hd.
        destruct (load_config W) as [ cfg | ]; [ now exists cfg | discriminate Hd ]. }
      destruct Hcfg as (cfg & Hcfg).
      destruct (ObserverFacts.details_trace _ _ _ _ _ _ _ _ _ _ Hcfg Hd) as (rq & -> & _).
      intros H. inversion H; subst.
      exists (EvTime :: added ++ [EvRequest rq]).
      split; [ now rewrite <- !app_assoc | ].
      change (EvTime :: added ++ [EvRequest rq])
        with ([EvTime] ++ added ++ [EvRequest rq]).
      rewrite !ObserverFacts.sleeps_of_app, !ObserverFacts.requests_of_app.
      cbn [requests_of sleeps_of flat_map app]. rewrite app_nil_r.
      split; [ exact Hall | ]. split; [ intros _ | discriminate ].
      exists polls. split; [ reflexivity | ]. split; [ reflexivity | ].
      rewrite length_app, Hreq, Hsl, repeat_length. cbn [length]. lia.
    + rewrite bind_ret. intros H. inversion H; subst.
      exists (EvTime :: added).
      split; [ now rewrite <- app_assoc | ].
      split; [ exact Hall | ]. split; [ intros _ | discriminate ].
      exists polls. split; [ reflexivity | ]. split; [ reflexivity | ].
      cbn [requests_of sleeps_of flat_map app].
      fold (requests_of added). fold (sleeps_of added).
      rewrite Hreq, Hsl, repeat_length. lia.
Qed.

Lemma watch_accounting_witness :
  exists r added,
    planning_watch_job world_slow_job 5 "42" 10 600 true 0 200 None None []
    = (Ret (Some r), [] ++ added)
    /\ get (get r "job") "pollCount" = VInt 3
    /\ length (requests_of added) = 4%nat
    /\ sleeps_of added = [10; 10].
Proof.
  destruct (planning_watch_job world_slow_job 5 "42" 10 600 true 0 200 None None [])
    as [ [ [ r | ] | ex ] tr' ] eqn:E; try discriminate E.
  destruct (watch_accounting _ _ _ _ _ _ _ _ _ _ _ _ _ E)
    as (added & -> & _ & Hok & _).
  exists r, added. split; [ reflexivity | ].
  assert (Hr : truthy (get r "ok") = true /\ sleeps_of added = [10; 10]).
  { cbn [app] in E.
    let v := eval vm_compute in
      (planning_watch_job world_slow_job 5 "42" 10 600 true 0 200 None None []) in
    assert (Hv : planning_watch_job world_slow_job 5 "42" 10 600 true 0 200 None None []
                 = v) by (vm_compute; reflexivity).
    rewrite Hv in E. injection E as <- <-. split; reflexivity. }
  destruct Hr as (Hr & Hs).
  destruct (Hok Hr) as (polls & _ & Hcount & Hreq & Hlen).
  rewrite Hs in Hlen. cbn [length] in Hlen. rewrite <- Hlen in Hcount, Hreq.
  split; [ exact Hcount | ]. split; [ exact Hreq | exact Hs ].
Defined.

(** *** The watch comes back *)

Lemma clock_step W tr ev :
  clock_advances W ->
  match ev with EvSleep _ => False | _ => True end ->
  (clock W tr <= clock W (tr ++ [ev]))%Q.
Proof.
  intros Hc Hev. pose proof (Hc tr ev) as H.
  destruct ev; [ | | contradiction ]; change (inject_Z 0) with 0%Q in H; lra.
Qed.

Lemma timed_out_true now start timeout :
  (inject_Z timeout <= now - start)%Q -> timed_out now start timeout = true.
Proof. intros H. unfold timed_out. now apply Qle_bool_iff. Qed.

Lemma watch_loop_returns W n job_id poll timeout application api_version
  start polls tr (elapsed : Z) :
  clock_advances W ->
  (start + inject_Z elapsed <= clock W tr)%Q ->
  timeout <= Z.of_nat n * Z.max 1 poll + elapsed ->
  fst (watch_loop W (S n) job_id poll timeout application api_version start polls tr)
  <> Ret None.
Proof.
  intros Hc. revert polls tr elapsed.
  induction n as [ | n IH ]; intros polls tr elapsed Hstart Hbound.
  - cbn [watch_loop].
    destruct (planning_get_job_status W job_id application api_version tr)
      as [ [ st | ex ] tr1 ] eqn:Hst.
    2: { rewrite (bind_raise_eq _ _ _ _ _ Hst). discriminate. }
    rewrite (bind_ret_eq _ _ _ _ _ Hst).
    destruct (ObserverFacts.status_returns_configured _ _ _ _ _ _ _ Hst) as (cfg & Hcfg).
    destruct (status_trace _ _ _ _ _ _ _ _ Hcfg Hst) as (rq & -> & _).
    destruct (negb (truthy (get st "ok"))); [ discriminate | ].
    unfold bind at 1, time_time at 1. cbv beta iota zeta.
    rewrite bind_lift.
    destruct (terminal (get st "status")) as [ [ | ] | ex ]; [ discriminate | | discriminate ].
    unfold bind at 1, time_time at 1. cbv beta iota zeta.
    rewrite timed_out_true; [ discriminate | ].
    pose proof (clock_step W tr (EvRequest rq) Hc I) as H1.
    pose proof (clock_step W (tr ++ [EvRequest rq]) EvTime Hc I) as H2.
    assert (H3 : (inject_Z timeout <= inject_Z elapsed)%Q)
      by (rewrite <- Zle_Qle; lia).
    lra.
  - cbn [watch_loop].
    destruct (planning_get_job_status W job_id application api_version tr)
      as [ [ st | ex ] tr1 ] eqn:Hst.
    2: { rewrite (bind_raise_eq _ _ _ _ _ Hst). discriminate. }
    rewrite (bind_ret_eq _ _ _ _ _ Hst).
    destruct (ObserverFacts.status_returns_configured _ _ _ _ _ _ _ Hst) as (cfg & Hcfg).
    destruct (status_trace _ _ _ _ _ _ _ _ Hcfg Hst) as (rq & -> & _).
    destruct (negb (truthy (get st "ok"))); [ discriminate | ].
    unfold bind at 1, time_time at 1. cbv beta iota zeta.
    rewrite bind_lift.
    destruct (terminal (get st "status")) as [ [ | ] | ex ]; [ discriminate | | discriminate ].
    unfold bind at 1, time_time at 1. cbv beta iota zeta.
    destruct (timed_out _ start timeout); [ discriminate | ].
    unfold bind at 1, time_sleep at 1. cbv beta iota zeta.
    apply (IH _ _ (elapsed + Z.max 1 poll)).
    + pose proof (clock_step W tr (EvRequest rq) Hc I) as H1.
      pose proof (clock_step W (tr ++ [EvRequest rq]) EvTime Hc I) as H2.
      pose proof (clock_step W ((tr ++ [EvRequest rq]) ++ [EvTime]) EvTime Hc I) as H3.
      pose proof (Hc (((tr ++ [EvRequest rq]) ++ [EvTime]) ++ [EvTime])
                    (EvSleep (Z.max 1 poll))) as H4.
      cbv beta iota in H4. rewrite inject_Z_plus. lra.
    + lia.
Qed.

(** X15.  The watch comes back.  If the clock never runs backwards and
    a sleep of [n] seconds takes at least [n] seconds, then
    [planning_watch_job] returns or raises after at most
    [ceil(timeout_seconds / max(1, poll_interval_seconds)) + 1] polls,
    whatever the service answers: with that many iterations allowed the
    loop does not run out of them. *)
Theorem watch_returns W n job_id poll timeout include_details offset limit
  application api_version tr :
  clock_advances W ->
  timeout <= Z.of_nat n * Z.max 1 poll ->
  fst (planning_watch_job W (S n) job_id poll timeout include_details offset limit
         application api_version tr)
  <> Ret None.
Proof.
  intros Hc Hbound. unfold planning_watch_job.
  unfold bind at 1, time_time at 1. cbv beta iota zeta.
  pose proof (watch_loop_returns W n job_id poll timeout application api_version
                (clock W tr) [] (tr ++ [EvTime]) 0 Hc) as Hloop.
  destruct (watch_loop W (S n) job_id poll timeout application api_version
              (clock W tr) [] (tr ++ [EvTime])) as [ [ [ e | ] | ex ] tr1 ] eqn:E.
  - rewrite (bind_ret_eq _ _ _ _ _ E). destruct e as [ result | polls last ].
    + discriminate.
    + destruct include_details.
      * destruct (planning_get_job_details W job_id offset limit application
                    api_version tr1) as [ [ details | ex ] tr2 ] eqn:Hd.
        -- rewrite (bind_ret_eq _ _ _ _ _ Hd). discriminate.
        -- rewrite (bind_raise_eq _ _ _ _ _ Hd). discriminate.
      * rewrite bind_ret. discriminate.
  - exfalso. apply Hloop; [ | lia | reflexivity ].
    pose proof (clock_step W tr EvTime Hc I) as H1.
    change (inject_Z 0) with 0%Q. lra.
  - rewrite (bind_raise_eq _ _ _ _ _ E). discriminate.
Qed.

Lemma slow_job_clock_advances : clock_advances world_slow_job.
Proof.
  intros tr ev. cbn [clock world_slow_job].
  rewrite ObserverFacts.sleeps_of_app.
  assert (Hsum : forall a b, fold_right Z.add 0 (a ++ b)
                             = fold_right Z.add 0 a + fold_right Z.add 0 b).
  { intros a b. induction a as [ | x a IH ]; cbn [app fold_right]; lia. }
  rewrite Hsum, inject_Z_plus.
  destruct ev; cbn [sleeps_of flat_map app fold_right];
    rewrite ?Z.add_0_r; apply Qle_refl.
Qed.

Lemma watch_returns_witness :
  fst (planning_watch_job world_running_job 3 "42" 10 20 false 0 200 None None [])
  <> Ret None.
Proof.
  apply (watch_returns world_running_job 2 "42" 10 20 false 0 200 None None []).
  - intros tr ev. exact (slow_job_clock_advances tr ev).
  - lia.
Defined.

End WatchFacts.

(* ================================================================== *)
(** ** The wait of the job runner *)
(* ================================================================== *)

Module RunFacts.
Import Copilot TrafficFacts.

Lemma no_sleep_app (x y : trace) : no_sleep x -> no_sleep y -> no_sleep (x ++ y).
Proof.
  unfold no_sleep. intros Hx Hy. now rewrite ObserverFacts.sleeps_of_app, Hx, Hy.
Qed.

Lemma calm_bind {A B : Type} (m : M state A) (f : A -> M state B) :
  added_by log no_sleep m ->
  (forall a, added_by log no_sleep (f a)) ->
  added_by log no_sleep (bind m f).
Proof.
  intros Hm Hf.
  apply (added_bind log no_sleep no_sleep); try assumption;
    [ reflexivity | apply no_sleep_app ].
Qed.

Lemma calm_time W : added_by log no_sleep (on_log (time_time W)).
Proof.
  intros s r s' E. rewrite CopilotFacts.on_log_time in E. inversion E; subst.
  now exists [EvTime].
Qed.

Lemma calm_send W rq : added_by log no_sleep (on_log (send W rq)).
Proof.
  intros s r s' E. rewrite CopilotFacts.on_log_send in E. inversion E; subst.
  now exists [EvRequest rq].
Qed.

(** Splits a computation of the job runner into pieces that do not
    sleep. *)
Ltac calm_steps :=
  repeat first
    [ apply added_ret; reflexivity
    | apply added_raise; reflexivity
    | apply added_lift; reflexivity
    | apply added_read_cache; reflexivity
    | apply added_write_cache; reflexivity
    | apply calm_time | apply calm_send
    | assumption
    | apply calm_bind; [ | intros ? ]
    | match goal with
      | |- added_by _ _ (if ?b then _ else _) => destruct b
      | |- added_by _ _ (match ?x with _ => _ end) => destruct x
      | |- added_by _ _ (let (_, _) := ?x in _) => destruct x
      end ].

Lemma oauth_calm W cfg : added_by log no_sleep (get_oauth_token W cfg).
Proof. unfold get_oauth_token, TokenCache_get, TokenCache_set. calm_steps. Qed.

Lemma pbcs_request_calm W cfg method path params json_body t :
  added_by log no_sleep (pbcs_request W cfg method path params json_body t).
Proof.
  pose proof (oauth_calm W cfg). unfold pbcs_request. cbv zeta. calm_steps.
Qed.

Lemma status_calm W job_id application api_version key :
  added_by log no_sleep (planning_get_job_status W job_id application api_version key).
Proof.
  unfold planning_get_job_status.
  apply calm_bind; [ apply added_lift; reflexivity | intros cfg ].
  destruct (enforce_client_key cfg key); [ apply added_ret; reflexivity | ].
  cbv zeta. apply calm_bind; [ apply pbcs_request_calm | intros res ].
  calm_steps.
Qed.

Lemma clock_mono W tr added :
  clock_advances W -> no_sleep added -> (clock W tr <= clock W (tr ++ added))%Q.
Proof.
  intros Hc. induction added as [ | ev added IH ] using rev_ind; intros Hn.
  - rewrite app_nil_r. apply Qle_refl.
  - unfold no_sleep in Hn. rewrite ObserverFacts.sleeps_of_app in Hn.
    apply app_eq_nil in Hn. destruct Hn as (Hn & Hev).
    rewrite app_assoc.
    apply (Qle_trans _ (clock W (tr ++ added))); [ now apply IH | ].
    apply WatchFacts.clock_step; [ exact Hc | ].
    destruct ev; [ exact I | exact I | discriminate Hev ].
Qed.

Lemma on_log_sleep n s :
  on_log (time_sleep n) s
  = (Ret tt, {| log := log s ++ [EvSleep n]; cache := cache s |}).
Proof. reflexivity. Qed.

Lemma wait_loop_returns W n job_id poll timeout application api_version key
  start polls s (elapsed : Z) :
  clock_advances W ->
  (start + inject_Z elapsed <= clock W (log s))%Q ->
  timeout <= Z.of_nat n * Z.max 1 poll + elapsed ->
  fst (wait_loop W (S n) job_id poll timeout application api_version key start polls s)
  <> Ret None.
Proof.
  intros Hc. revert polls s elapsed.
  induction n as [ | n IH ]; intros polls s elapsed Hstart Hbound; cbn [wait_loop];
    (destruct (planning_get_job_status W job_id application api_version key s)
       as [ [ st | ex ] s1 ] eqn:Hst;
     [ rewrite (bind_ret_eq _ _ _ _ _ Hst)
     | rewrite (bind_raise_eq _ _ _ _ _ Hst); discriminate ]);
    destruct (status_calm _ _ _ _ _ _ _ _ Hst) as (added & Hlog & Hcalm);
    pose proof (clock_mono W (log s) added Hc Hcalm) as H0;
    rewrite <- Hlog in H0;
    (destruct (negb (truthy (get st "ok"))); [ discriminate | ]);
    rewrite (bind_ret_eq _ _ _ _ _ (CopilotFacts.on_log_time W s1));
    cbv zeta; rewrite bind_lift;
    (destruct (terminal (get st "status")) as [ [ | ] | ex ];
     [ discriminate | | discriminate ]);
    rewrite (bind_ret_eq _ _ _ _ _
               (CopilotFacts.on_log_time W
                  {| log := log s1 ++ [EvTime]; cache := cache s1 |}));
    cbn [log cache];
    pose proof (WatchFacts.clock_step W (log s1) EvTime Hc I) as H1.
  - rewrite WatchFacts.timed_out_true; [ discriminate | ].
    assert (H3 : (inject_Z timeout <= inject_Z elapsed)%Q)
      by (rewrite <- Zle_Qle; lia).
    lra.
  - destruct (timed_out _ start timeout); [ discriminate | ].
    rewrite (bind_ret_eq _ _ _ _ _ (on_log_sleep _ _)). cbn [log cache].
    apply (IH _ _ (elapsed + Z.max 1 poll)); cbn [log].
    + pose proof (WatchFacts.clock_step W (log s1 ++ [EvTime]) EvTime Hc I) as H2.
      pose proof (Hc ((log s1 ++ [EvTime]) ++ [EvTime]) (EvSleep (Z.max 1 poll))) as H4.
      cbv beta iota in H4. rewrite inject_Z_plus. lra.
    + lia.
Qed.

(** X16.  The wait of the job runner comes back.  Under a clock that
    never runs backwards and on which a sleep of [n] seconds takes at
    least [n] seconds, [planning_run_job_and_wait] returns or raises
    after at most [ceil(timeout_seconds / max(1, poll_interval_seconds))
    + 1] polls, in basic and in OAuth mode and whatever the service and
    the token issuer answer. *)
Theorem run_and_wait_returns W n job_type job_name parameters poll timeout
  application api_version offset limit key s :
  clock_advances W ->
  timeout <= Z.of_nat n * Z.max 1 poll ->
  fst (planning_run_job_and_wait W (S n) job_type job_name parameters poll timeout
         application api_version offset limit key s)
  <> Ret None.
Proof.
  intros Hc Hbound. unfold planning_run_job_and_wait.
  destruct (planning_execute_job W job_type job_name parameters application
              api_version key s) as [ [ exec_res | ex ] s1 ] eqn:He;
    [ rewrite (bind_ret_eq _ _ _ _ _ He)
    | rewrite (bind_raise_eq _ _ _ _ _ He); discriminate ].
  destruct (negb (truthy (get exec_res "ok"))); [ discriminate | ].
  cbv zeta. destruct (negb (truthy (get exec_res "jobId"))); [ discriminate | ].
  rewrite (bind_ret_eq _ _ _ _ _ (CopilotFacts.on_log_time W s1)).
  pose proof (wait_loop_returns W n (get exec_res "jobId") poll timeout application
                api_version key (clock W (log s1)) []
                {| log := log s1 ++ [EvTime]; cache := cache s1 |} 0 Hc) as Hloop.
  destruct (wait_loop W (S n) (get exec_res "jobId") poll timeout application
              api_version key (clock W (log s1)) []
              {| log := log s1 ++ [EvTime]; cache := cache s1 |})
    as [ [ [ e | ] | ex ] s2 ] eqn:E.
  - rewrite (bind_ret_eq _ _ _ _ _ E). destruct e as [ result | polls last ].
    + discriminate.
    + destruct (planning_get_job_details W (get exec_res "jobId") offset limit
                  application api_version key s2) as [ [ details | ex ] s3 ] eqn:Hd;
        [ rewrite (bind_ret_eq _ _ _ _ _ Hd)
        | rewrite (bind_raise_eq _ _ _ _ _ Hd); discriminate ].
      cbv zeta. rewrite bind_lift.
      destruct (select _ _); [ | discriminate ].
      rewrite bind_lift. destruct (select _ _); discriminate.
  - exfalso. apply Hloop; [ | lia | reflexivity ].
    cbn [log]. pose proof (WatchFacts.clock_step W (log s1) EvTime Hc I) as H1.
    change (inject_Z 0) with 0%Q. lra.
  - rewrite (bind_raise_eq _ _ _ _ _ E). discriminate.
Qed.

Lemma run_and_wait_returns_witness :
  fst (planning_run_job_and_wait world_stuck_job 3 "REFRESH_CUBE" "RefreshPlan1"
         VNone 10 20 None None 0 200 None fresh_state)
  <> Ret None.
Proof.
  apply (run_and_wait_returns world_stuck_job 2).
  - intros tr ev. exact (WatchFacts.slow_job_clock_advances tr ev).
  - lia.
Defined.

(** *** The report of a run *)

Lemma wait_loop_returned W fuel job_id poll timeout application api_version key
  start polls s result s' :
  wait_loop W fuel job_id poll timeout application api_version key start polls s
  = (Ret (Some (Returned result)), s') ->
  truthy (get result "ok") = false.
Proof.
  revert polls s. induction fuel as [ | fuel IH ]; intros polls s; [ discriminate | ].
  cbn [wait_loop].
  destruct (planning_get_job_status W job_id application api_version key s)
    as [ [ st | ex ] s1 ] eqn:Hst;
    [ rewrite (bind_ret_eq _ _ _ _ _ Hst)
    | rewrite (bind_raise_eq _ _ _ _ _ Hst); discriminate ].
  destruct (negb (truthy (get st "ok"))).
  { intros H. now inversion H. }
  rewrite (bind_ret_eq _ _ _ _ _ (CopilotFacts.on_log_time W s1)).
  cbv zeta. rewrite bind_lift.
  destruct (terminal (get st "status")) as [ [ | ] | ex ];
    [ discriminate | | discriminate ].
  rewrite (bind_ret_eq _ _ _ _ _ (CopilotFacts.on_log_time W _)).
  destruct (timed_out _ start timeout).
  { intros H. now inversion H. }
  rewrite (bind_ret_eq _ _ _ _ _ (on_log_sleep _ _)). apply IH.
Qed.

(** What the list comprehension over the severities keeps. *)
Lemma select_spec (keep : string -> bool) (items xs : list value) :
  select keep items = Ret xs ->
  (length xs <= length items)%nat
  /\ Forall (fun x => In x items
                      /\ exists sev, severity_upper x = Ret sev /\ keep sev = true) xs
  /\ (forall x sev, In x items -> severity_upper x = Ret sev -> keep sev = true ->
                    In x xs).
Proof.
  revert xs. induction items as [ | x r IH ]; intros xs E.
  - injection E as <-.
    split; [ apply Nat.le_refl | split; [ constructor | intros x sev [] ] ].
  - cbn [select] in E. unfold rbind in E.
    destruct (severity_upper x) as [ sev | ] eqn:Es; [ | discriminate E ].
    destruct (select keep r) as [ ys | ] eqn:Er; [ | discriminate E ].
    destruct (IH ys eq_refl) as (Hlen & Hall & Hin).
    assert (Hall' : Forall (fun y => In y (x :: r)
                                     /\ exists sev, severity_upper y = Ret sev
                                                    /\ keep sev = true) ys).
    { eapply Forall_impl; [ | exact Hall ]. intros y (Hy & Hsev). split; [ now right | exact Hsev ]. }
    injection E as <-. destruct (keep sev) eqn:Ek.
    + split; [ cbn [length]; lia | ]. split.
      * constructor; [ | exact Hall' ]. split; [ now left | now exists sev ].
      * intros y sev' [ <- | Hy ] Hs Hk; [ now left | right; now apply (Hin y sev') ].
    + split; [ cbn [length]; lia | ]. split; [ exact Hall' | ].
      intros y sev' [ <- | Hy ] Hs Hk; [ congruence | now apply (Hin y sev') ].
Qed.

(** X18.  The report of [planning_run_job_and_wait].  An ok result is
    the report of a job that was submitted, got an id and was seen in a
    terminal status.  Its summary lists at most 25 errors, at most 25
    warnings and the first 25 detail items; every listed error is a
    detail item whose severity is ["ERROR"] in some case, every listed
    warning one whose severity is ["WARN"] or ["WARNING"], in the order
    of the details; and when the details call failed the three lists
    are empty and the failure is kept under [raw]. *)
Theorem run_report_summary W fuel job_type job_name parameters poll timeout
  application api_version offset limit key s r s' :
  planning_run_job_and_wait W fuel job_type job_name parameters poll timeout
    application api_version offset limit key s
  = (Ret (Some r), s') ->
  truthy (get r "ok") = true ->
  exists details errors warnings,
    get (get r "raw") "details" = details
    /\ get (get r "summary") "errors" = VList (firstn 25 errors)
    /\ get (get r "summary") "warnings" = VList (firstn 25 warnings)
    /\ get (get r "summary") "detailsSample" = VList (firstn 25 (items_of details))
    /\ (length (firstn 25 errors) <= 25)%nat
    /\ (length (firstn 25 warnings) <= 25)%nat
    /\ Forall (fun x => In x (items_of details) /\ severity_upper x = Ret "ERROR")
         errors
    /\ Forall (fun x => In x (items_of details)
                        /\ (severity_upper x = Ret "WARN"
                            \/ severity_upper x = Ret "WARNING")) warnings
    /\ (truthy (get details "ok") = false ->
        errors = [] /\ warnings = [] /\ items_of details = [])
    /\ truthy (get (get (get r "raw") "execute") "jobId") = true
    /\ terminal (get (get (get r "raw") "finalStatus") "status") = Ret true.
Proof.
  unfold planning_run_job_and_wait.
  destruct (planning_execute_job W job_type job_name parameters application
              api_version key s) as [ [ exec_res | ex ] s1 ] eqn:He;
    [ rewrite (bind_ret_eq _ _ _ _ _ He)
    | rewrite (bind_raise_eq _ _ _ _ _ He); discriminate ].
  destruct (truthy (get exec_res "ok")) eqn:Hok; cbn [negb].
  2: { intros H Hr. inversion H; subst. congruence. }
  cbv zeta. destruct (truthy (get exec_res "jobId")) eqn:Hid; cbn [negb].
  2: { intros H Hr. inversion H; subst. discriminate Hr. }
  rewrite (bind_ret_eq _ _ _ _ _ (CopilotFacts.on_log_time W s1)).
  destruct (wait_loop W fuel (get exec_res "jobId") poll timeout application
              api_version key (clock W (log s1)) []
              {| log := log s1 ++ [EvTime]; cache := cache s1 |})
    as [ [ [ e0 | ] | ex ] s2 ] eqn:Hloop.
  3: { rewrite (bind_raise_eq _ _ _ _ _ Hloop). discriminate. }
  2: { rewrite (bind_ret_eq _ _ _ _ _ Hloop). discriminate. }
  rewrite (bind_ret_eq _ _ _ _ _ Hloop).
  destruct e0 as [ result | polls last ].
  { intros H Hr. inversion H; subst.
    rewrite (wait_loop_returned _ _ _ _ _ _ _ _ _ _ _ _ _ Hloop) in Hr. discriminate Hr. }
  destruct (CopilotFacts.wait_loop_broke _ _ _ _ _ _ _ _ _ _ _ _ _ _ Hloop)
    as (Hterm & _ & _).
  destruct (planning_get_job_details W (get exec_res "jobId") offset limit application
              api_version key s2) as [ [ details | ex ] s3 ] eqn:Hd;
    [ rewrite (bind_ret_eq _ _ _ _ _ Hd)
    | rewrite (bind_raise_eq _ _ _ _ _ Hd); discriminate ].
  cbv zeta. rewrite bind_lift.
  destruct (select (String.eqb "ERROR") (items_of details)) as [ errors | ] eqn:Ee;
    [ | discriminate ].
  rewrite bind_lift.
  destruct (select (fun sev => String.eqb sev "WARN" || String.eqb sev "WARNING")
              (items_of details)) as [ warns | ] eqn:Ew; [ | discriminate ].
  intros H _. inversion H; subst. clear H.
  destruct (select_spec _ _ _ Ee) as (_ & Herr & _).
  destruct (select_spec _ _ _ Ew) as (_ & Hwarn & _).
  exists details, errors, warns.
  do 4 (split; [ reflexivity | ]).
  do 2 (split; [ apply firstn_le_length | ]).
  split.
  { eapply Forall_impl; [ | exact Herr ]. intros x (Hx & sev & Hs & Hk).
    split; [ exact Hx | ]. apply String.eqb_eq in Hk. now rewrite Hs, <- Hk. }
  split.
  { eapply Forall_impl; [ | exact Hwarn ]. intros x (Hx & sev & Hs & Hk).
    split; [ exact Hx | ]. apply orb_true_iff in Hk.
    destruct Hk as [ Hk | Hk ]; apply String.eqb_eq in Hk; rewrite Hs, Hk; auto. }
  split.
  { intros Hnot. unfold items_of in *. rewrite Hnot in *.
    injection Ee as <-. injection Ew as <-. now repeat split. }
  split; [ exact Hid | exact Hterm ].
Qed.

Lemma run_report_summary_witness :
  exists r s',
    planning_run_job_and_wait world_chatty 2 "IMPORT_DATA" "LoadActuals" VNone 10 600
      None None 0 200 None fresh_state
    = (Ret (Some r), s')
    /\ get (get r "summary") "errors"
       = VList [VDict [("severity", VStr "Error"); ("type", VNone); ("row", VNone);
                       ("message", VStr "row rejected")]]
    /\ get (get r "summary") "warnings" = VList [].
Proof.
  destruct (planning_run_job_and_wait world_chatty 2 "IMPORT_DATA" "LoadActuals" VNone
              10 600 None None 0 200 None fresh_state)
    as [ [ [ r | ] | ex ] s' ] eqn:E; try discriminate E.
  exists r, s'. split; [ reflexivity | ].
  assert (Hok : truthy (get r "ok") = true) by (injection E as <- _; reflexivity).
  destruct (run_report_summary _ _ _ _ _ _ _ _ _ _ _ _ _ _ _ E Hok)
    as (details & errors & warnings & _ & He & Hw & _).
  injection E as <- _. split; reflexivity.
Defined.

End RunFacts.

(* ================================================================== *)
(** ** The conversation of the tool-use loop *)
(* ================================================================== *)

Module ConversationFacts.
Import Orchestrator.

Lemma conversation_snoc (ms : list value) (m : value) :
  conversation ms ->
  get m "role" = VStr (if Nat.even (length ms) then "user" else "assistant") ->
  conversation (ms ++ [m]).
Proof.
  intros Hms Hm i x Hx.
  destruct (Nat.lt_ge_cases i (length ms)) as [ Hi | Hi ].
  - rewrite nth_error_app1 in Hx by exact Hi. now apply Hms.
  - rewrite nth_error_app2 in Hx by exact Hi.
    destruct (i - length ms)%nat as [ | k ] eqn:Ek.
    + injection Hx as <-. replace i with (length ms) by lia. exact Hm.
    + destruct k; discriminate Hx.
Qed.

Lemma odd_even_false (n : nat) : Nat.odd n = true -> Nat.even n = false.
Proof. intros H. rewrite <- Nat.negb_odd, H. reflexivity. Qed.

Lemma even_odd_false (n : nat) : Nat.even n = true -> Nat.odd n = false.
Proof. intros H. unfold Nat.odd. now rewrite H. Qed.

Section Loop.
Variable A : agent.
Variable targ : option (list value).
Variable loop : nat -> list block -> M session (option string).
Hypothesis loop_O : forall content s, loop O content s = (Ret None, s).
Hypothesis loop_last :
  forall fuel content s,
    tool_uses_of content = [] ->
    snd (loop (S fuel) content s)
    = {| calls := calls s;
         messages := messages s ++ [assistant_turn (_blocks_to_dicts content)] |}.
Hypothesis loop_step :
  forall fuel content s,
    tool_uses_of content <> [] ->
    exists results,
      loop (S fuel) content s
      = bind (create A targ) (loop fuel)
          {| calls := calls s ++ tool_calls (tool_uses_of content);
             messages := messages s
                         ++ [assistant_turn (_blocks_to_dicts content);
                             user_turn results] |}.

Lemma loop_alternates fuel content s r s' :
  conversation (messages s) ->
  Nat.odd (length (messages s)) = true ->
  loop fuel content s = (r, s') ->
  exists added turns,
    calls s' = calls s ++ added
    /\ Forall well_formed_call added
    /\ messages s' = messages s ++ turns
    /\ conversation (messages s')
    /\ (forall text, r = Ret (Some text) -> Nat.even (length (messages s')) = true).
Proof.
  revert content s. induction fuel as [ | fuel IH ]; intros content s Hconv Hodd E.
  - rewrite loop_O in E. inversion E; subst. exists [], [].
    rewrite !app_nil_r. repeat split; [ constructor | exact Hconv | discriminate ].
  - destruct (OrchestratorFacts.tool_uses_dec content) as [ Hnone | Hsome ].
    + pose proof (loop_last fuel content s Hnone) as Hs. rewrite E in Hs.
      cbn [snd] in Hs. subst s'. cbn [calls messages].
      exists [], [assistant_turn (_blocks_to_dicts content)].
      rewrite app_nil_r. repeat split; [ constructor | | ].
      * apply conversation_snoc; [ exact Hconv | ].
        now rewrite (odd_even_false _ Hodd).
      * intros _ _. rewrite length_app, Nat.add_comm. cbn [length Nat.add].
        now rewrite Nat.even_succ.
    + destruct (loop_step fuel content s Hsome) as (results & Hstep).
      rewrite Hstep in E. clear Hstep. unfold bind, create in E.
      cbn [calls messages] in E.
      set (ms := messages s ++ [assistant_turn (_blocks_to_dicts content);
                                user_turn results]) in *.
      assert (Hms : conversation ms).
      { unfold ms.
        change [assistant_turn (_blocks_to_dicts content); user_turn results]
          with ([assistant_turn (_blocks_to_dicts content)] ++ [user_turn results]).
        rewrite app_assoc. apply conversation_snoc.
        - apply conversation_snoc; [ exact Hconv | ].
          now rewrite (odd_even_false _ Hodd).
        - rewrite length_app, Nat.add_comm. cbn [length Nat.add].
          now rewrite Nat.even_succ, Hodd. }
      assert (Hlen : Nat.odd (length ms) = true).
      { unfold ms. rewrite length_app, Nat.add_comm. cbn [length Nat.add].
        now rewrite Nat.odd_succ, Nat.even_succ. }
      destruct (completion A _ ms targ) as [ msg | resp ].
      * inversion E; subst. cbn [calls messages].
        exists (tool_calls (tool_uses_of content) ++ [EvCreate ms targ]),
          [assistant_turn (_blocks_to_dicts content); user_turn results].
        rewrite app_assoc. repeat split; [ | exact Hms | discriminate ].
        apply Forall_app. split.
        -- apply Forall_forall. intros c Hc. apply in_map_iff in Hc.
           now destruct Hc as (tu & <- & _).
        -- now repeat constructor.
      * destruct (IH resp
                    {| calls := (calls s ++ tool_calls (tool_uses_of content))
                                ++ [EvCreate ms targ];
                       messages := ms |} Hms Hlen E) as (added & turns & Hc & Hall & Hm & Hcv & Hev).
        cbn [calls messages] in Hc, Hm.
        exists ((tool_calls (tool_uses_of content) ++ [EvCreate ms targ]) ++ added),
          ([assistant_turn (_blocks_to_dicts content); user_turn results] ++ turns).
        split; [ rewrite Hc; now rewrite !app_assoc | ].
        split.
        { apply Forall_app. split; [ | exact Hall ].
          apply Forall_app. split.
          - apply Forall_forall. intros c Hc'. apply in_map_iff in Hc'.
            now destruct Hc' as (tu & <- & _).
          - now repeat constructor. }
        split; [ rewrite Hm; unfold ms; now rewrite !app_assoc | ].
        split; [ exact Hcv | exact Hev ].
Qed.

End Loop.

(** X19.  The conversation stays well formed.  If the turns of the
    history alternate between the user and the assistant when a
    question is asked, then, however the run ends, every completion
    request of the run is made on a history whose turns alternate and
    whose last turn is the user's, the history only grows, and its turns
    still alternate afterwards; when the run returns a text the last
    turn is the assistant's.  This holds for one question of the command
    line loop and for [ClaudeToolRunner.run]. *)
Theorem conversation_stays_well_formed (A : agent) (fuel : nat) (tools : list value) :
  (forall user_q s r s',
      conversation (messages s) ->
      Nat.even (length (messages s)) = true ->
      Cli.ask A fuel tools user_q s = (r, s') ->
      exists added turns,
        calls s' = calls s ++ added
        /\ Forall well_formed_call added
        /\ messages s' = messages s ++ turns
        /\ conversation (messages s')
        /\ (forall text, r = Ret (Some text) -> Nat.even (length (messages s')) = true))
  /\ (forall s r s',
         conversation (messages s) ->
         Nat.odd (length (messages s)) = true ->
         Gui.run A fuel tools s = (r, s') ->
         exists added turns,
           calls s' = calls s ++ added
           /\ Forall well_formed_call added
           /\ messages s' = messages s ++ turns
           /\ conversation (messages s')
           /\ (forall text, r = Ret (Some text) -> Nat.even (length (messages s')) = true)).
Proof.
  assert (Hcli : forall n content s r s',
             conversation (messages s) -> Nat.odd (length (messages s)) = true ->
             Cli.tool_use_loop A n tools content s = (r, s') ->
             exists added turns,
               calls s' = calls s ++ added
               /\ Forall well_formed_call added
               /\ messages s' = messages s ++ turns
               /\ conversation (messages s')
               /\ (forall text, r = Ret (Some text) ->
                                Nat.even (length (messages s')) = true)).
  { intros n content s r s'.
    apply (loop_alternates A (Some tools) (fun n => Cli.tool_use_loop A n tools)).
    - reflexivity.
    - intros k c s0 Hc.
      now rewrite (OrchestratorFacts.cli_turn_without_tools A k tools c s0 Hc).
    - intros k c s0 Hc.
      destruct (OrchestratorFacts.cli_turn_with_tools A k tools c s0 Hc)
        as (results & _ & _ & H).
      now exists results. }
  assert (Hgui : forall n content s r s',
             conversation (messages s) -> Nat.odd (length (messages s)) = true ->
             Gui.run_loop A n tools content s = (r, s') ->
             exists added turns,
               calls s' = calls s ++ added
               /\ Forall well_formed_call added
               /\ messages s' = messages s ++ turns
               /\ conversation (messages s')
               /\ (forall text, r = Ret (Some text) ->
                                Nat.even (length (messages s')) = true)).
  { intros n content s r s'.
    apply (loop_alternates A (Gui.tools_arg tools) (fun n => Gui.run_loop A n tools)).
    - reflexivity.
    - intros k c s0 Hc.
      now rewrite (OrchestratorFacts.gui_turn_without_tools A k tools c s0 Hc).
    - intros k c s0 Hc.
      destruct (OrchestratorFacts.gui_turn_with_tools A k tools c s0 Hc)
        as (results & _ & _ & H).
      now exists results. }
  split.
  - intros user_q s r s' Hconv Heven E. unfold Cli.ask in E.
    unfold bind at 1, append_message at 1 in E. cbv beta iota in E.
    unfold bind, create in E. cbn [calls messages] in E.
    set (ms := messages s ++ [VDict [("role", VStr "user"); ("content", VStr user_q)]])
      in *.
    assert (Hms : conversation ms).
    { unfold ms. apply conversation_snoc; [ exact Hconv | ]. now rewrite Heven. }
    assert (Hlen : Nat.odd (length ms) = true).
    { unfold ms. rewrite length_app, Nat.add_comm. cbn [length Nat.add].
      now rewrite Nat.odd_succ. }
    destruct (completion A _ ms (Some tools)) as [ msg | resp ].
    + inversion E; subst. cbn [calls messages].
      exists [EvCreate ms (Some tools)],
        [VDict [("role", VStr "user"); ("content", VStr user_q)]].
      repeat split; [ now repeat constructor | exact Hms | discriminate ].
    + destruct (Hcli _ _ {| calls := calls s ++ [EvCreate ms (Some tools)];
                            messages := ms |} _ _ Hms Hlen E)
        as (added & turns & Hc & Hall & Hm & Hcv & Hev).
      cbn [calls messages] in Hc, Hm.
      exists (EvCreate ms (Some tools) :: added),
        (VDict [("role", VStr "user"); ("content", VStr user_q)] :: turns).
      repeat split; try assumption.
      * now rewrite Hc, <- app_assoc.
      * constructor; [ now split | exact Hall ].
      * rewrite Hm. unfold ms. now rewrite <- app_assoc.
  - intros s r s' Hconv Hodd E. unfold Gui.run in E.
    unfold bind, create in E.
    destruct (completion A _ (messages s) (Gui.tools_arg tools)) as [ msg | resp ].
    + inversion E; subst. cbn [calls messages].
      exists [EvCreate (messages s) (Gui.tools_arg tools)], [].
      rewrite app_nil_r.
      repeat split; [ now repeat constructor | exact Hconv | discriminate ].
    + destruct (Hgui _ _ {| calls := calls s ++ [EvCreate (messages s) (Gui.tools_arg tools)];
                            messages := messages s |} _ _ Hconv Hodd E)
        as (added & turns & Hc & Hall & Hm & Hcv & Hev).
      cbn [calls messages] in Hc, Hm.
      exists (EvCreate (messages s) (Gui.tools_arg tools) :: added), turns.
      repeat split; try assumption.
      * now rewrite Hc, <- app_assoc.
      * constructor; [ now split | exact Hall ].
Qed.

Lemma conversation_stays_well_formed_witness :
  exists added turns,
    calls (snd (Cli.ask sample_agent 4 [] "list backups and files"
                  {| calls := []; messages := [] |}))
    = [] ++ added
    /\ Forall well_formed_call added
    /\ messages (snd (Cli.ask sample_agent 4 [] "list backups and files"
                        {| calls := []; messages := [] |}))
       = [] ++ turns
    /\ length turns = 4%nat.
Proof.
  destruct (Cli.ask sample_agent 4 [] "list backups and files"
              {| calls := []; messages := [] |}) as [ r s' ] eqn:E.
  destruct (proj1 (conversation_stays_well_formed sample_agent 4 [])
              "list backups and files" {| calls := []; messages := [] |} r s')
    as (added & turns & Hc & Hall & Hm & _).
  - intros i m H. destruct i; discriminate H.
  - reflexivity.
  - exact E.
  - exists added, turns. cbn [snd]. split; [ exact Hc | ]. split; [ exact Hall | ].
    split; [ exact Hm | ].
    cbn [messages app] in Hm. rewrite <- Hm.
    apply (f_equal (fun x => length (messages (snd x)))) in E. cbn [snd] in E.
    rewrite <- E. reflexivity.
Defined.

(** X20.  The tool catalog.  [MCPThreadBridge.list_tools] and [main]
    offer the model one schema per tool that the server lists, in the
    same order and under the same name; the description is a string
    even when the tool has none; the input schema is never missing or
    empty: it is the tool's [inputSchema], else its [input_schema], else
    the schema of an object without properties.  The GUI passes no
    [tools] argument exactly when the server lists no tool. *)
Theorem tool_catalog (tools : list mcp_tool) :
  map (fun d => get d "name") (tool_schemas tools) = map (fun t => VStr (t_name t)) tools
  /\ Forall2 (fun t d =>
                truthy (get d "input_schema") = true
                /\ (truthy (t_inputSchema t) = true ->
                    get d "input_schema" = t_inputSchema t)
                /\ (truthy (t_inputSchema t) = false ->
                    truthy (t_input_schema t) = true ->
                    get d "input_schema" = t_input_schema t)
                /\ (truthy (t_description t) = true ->
                    get d "description" = t_description t)
                /\ (truthy (t_description t) = false ->
                    get d "description" = VStr EmptyString))
       tools (tool_schemas tools)
  /\ (Gui.tools_arg (tool_schemas tools) = None <-> tools = []).
Proof.
  split; [ | split ].
  - unfold tool_schemas. rewrite map_map. reflexivity.
  - unfold tool_schemas. induction tools as [ | t r IH ]; [ constructor | ].
    cbn [map]. constructor; [ | exact IH ].
    unfold tool_schema. cbv zeta.
    change (get (VDict ?kv) "input_schema") with
      (py_or (t_inputSchema t)
         (py_or (t_input_schema t)
            (VDict [("type", VStr "object"); ("properties", VDict [])]))).
    unfold py_or.
    destruct (truthy (t_inputSchema t)) eqn:E1, (truthy (t_input_schema t)) eqn:E2,
      (truthy (t_description t)) eqn:E3;
      cbn [get lookup String.eqb Ascii.eqb Bool.eqb]; rewrite ?E1, ?E2, ?E3;
      repeat split; intros; try reflexivity; try discriminate; try assumption.
  - destruct tools; cbn; split; intros H; try reflexivity; discriminate H.
Qed.

Lemma tool_catalog_witness :
  map (fun d => get d "input_schema")
    (tool_schemas [ {| t_name := "epm_list_files"; t_description := VNone;
                       t_inputSchema := VDict []; t_input_schema := VNone |} ])
  = [VDict [("type", VStr "object"); ("properties", VDict [])]].
Proof.
  pose proof (tool_catalog [ {| t_name := "epm_list_files"; t_description := VNone;
                                t_inputSchema := VDict [];
                                t_input_schema := VNone |} ]) as (_ & H & _).
  inversion H as [ | t d ts ds (Hs & _) _ ]; subst. reflexivity.
Defined.

End ConversationFacts.

(* ================================================================== *)
(** ** Redaction of the report of a run *)
(* ================================================================== *)

Module ReportFacts.
Import Copilot ScreenFacts.

Lemma copilot_details_failed W job_id offset limit application api_version key :
  returns (fun r => truthy (get r "ok") = false -> masked r = masked (get r "message"))
    (planning_get_job_details W job_id offset limit application api_version key).
Proof.
  unfold planning_get_job_details.
  apply (returns_bind (fun _ => True)); [ apply returns_any | intros cfg _ ].
  destruct (enforce_client_key cfg key) as [ deny | ] eqn:Ek.
  { apply returns_ret. intros _.
    now destruct (GateFacts.enforce_client_key_some cfg key deny Ek) as (-> & _). }
  cbv zeta.
  apply (returns_bind screened); [ apply pbcs_request_screened | intros res (_ & _ & Hm) ].
  destruct (truthy (get res "ok")) eqn:E; cbn [negb];
    [ | now apply returns_ret ].
  repeat (apply (returns_bind (fun _ => True)); [ apply returns_any | intros ? _ ]).
  apply returns_ret. intros H. discriminate H.
Qed.

Lemma wait_loop_masked W fuel job_id poll timeout application api_version key
  start polls :
  masked job_id = true ->
  Forall (fun x => masked x = true) polls ->
  returns (fun e =>
             match e with
             | None => True
             | Some (Returned result) => truthy (get result "ok") = false
             | Some (Broke polls' last) =>
                 Forall (fun x => masked x = true) polls' /\ masked last = true
             end)
    (wait_loop W fuel job_id poll timeout application api_version key start polls).
Proof.
  intros Hid. revert polls. induction fuel as [ | fuel IH ]; intros polls Hpolls.
  - now apply returns_ret.
  - cbn [wait_loop].
    apply (returns_bind clean_when_ok); [ now apply copilot_status_clean | ].
    intros st Hclean.
    destruct (truthy (get st "ok")) eqn:Hok; cbn [negb]; [ | now apply returns_ret ].
    pose proof (Hclean Hok) as Hst.
    apply (returns_bind (fun _ => True)); [ apply returns_any | intros t _ ].
    cbv zeta.
    assert (Hpolls' : Forall (fun x => masked x = true) (polls ++ [poll_record t st])).
    { apply Forall_app. split; [ exact Hpolls | ].
      constructor; [ now apply masked_poll_record | constructor ]. }
    apply (returns_bind (fun _ => True)); [ apply returns_any | intros done _ ].
    destruct done; [ now apply returns_ret | ].
    apply (returns_bind (fun _ => True)); [ apply returns_any | intros now _ ].
    destruct (timed_out now start timeout); [ now apply returns_ret | ].
    apply (returns_bind (fun _ => True)); [ apply returns_any | intros _ _ ].
    now apply IH.
Qed.

Lemma items_of_masked (details : value) :
  clean_when_ok details -> Forall (fun x => masked x = true) (items_of details).
Proof.
  intros Hclean. unfold items_of.
  destruct (truthy (get details "ok")) eqn:Hok; [ | constructor ].
  pose proof (masked_get details "items" (Hclean Hok) eq_refl) as H.
  destruct (get details "items"); try constructor. now apply masked_list.
Qed.

Lemma select_masked (keep : string -> bool) (items xs : list value) :
  Forall (fun x => masked x = true) items ->
  select keep items = Ret xs ->
  Forall (fun x => masked x = true) xs.
Proof.
  intros Hitems E. destruct (RunFacts.select_spec keep items xs E) as (_ & Hall & _).
  apply Forall_forall. intros x Hx.
  destruct (proj1 (Forall_forall _ _) Hall x Hx) as (Hin & _).
  exact (proj1 (Forall_forall _ _) Hitems x Hin).
Qed.

Lemma firstn_masked (n : nat) (xs : list value) :
  Forall (fun x => masked x = true) xs ->
  masked (VList (firstn n xs)) = true.
Proof.
  intros H. apply masked_list, Forall_forall. intros x Hx.
  apply (proj1 (Forall_forall _ _) H x).
  rewrite <- (firstn_skipn n xs). apply in_or_app. now left.
Qed.

(** X22.  Where the report of a run can leak.  Whatever the service and
    the token issuer answer, an ok result of
    [planning_run_job_and_wait] holds an unmasked sensitive key only
    inside the [message] of a failed details call, kept under
    [raw.details]: the submission result, the polls, the final status
    and the three lists of the summary are masked. *)
Theorem run_report_leaks_only_details_message W fuel job_type job_name parameters
  poll timeout application api_version offset limit key :
  returns (fun o =>
             match o with
             | Some r =>
                 truthy (get r "ok") = true ->
                 masked r = masked (get (get (get r "raw") "details") "message")
                 /\ masked (get r "job") = true
                 /\ masked (get r "summary") = true
                 /\ masked (get (get r "raw") "execute") = true
                 /\ masked (get (get r "raw") "finalStatus") = true
             | None => True
             end)
    (planning_run_job_and_wait W fuel job_type job_name parameters poll timeout
       application api_version offset limit key).
Proof.
  unfold planning_run_job_and_wait.
  apply (returns_bind clean_when_ok); [ apply copilot_execute_clean | ].
  intros exec_res Hexec.
  destruct (truthy (get exec_res "ok")) eqn:Hok; cbn [negb].
  2: { apply returns_ret. intros H. congruence. }
  pose proof (Hexec Hok) as Hex.
  cbv zeta.
  assert (Hid : masked (get exec_res "jobId") = true) by now apply masked_get.
  destruct (negb (truthy (get exec_res "jobId"))).
  { apply returns_ret. intros H. discriminate H. }
  apply (returns_bind (fun _ => True)); [ apply returns_any | intros start _ ].
  eapply returns_bind; [ apply wait_loop_masked; [ exact Hid | constructor ] | ].
  intros [ [ result | polls last ] | ] He.
  - apply returns_ret. intros H. congruence.
  - destruct He as (Hpolls & Hlast).
    apply (returns_bind (fun details => clean_when_ok details
                                        /\ masked details
                                           = masked (get details "message"))).
    { intros s0 details s1 E. split.
      - exact (copilot_details_clean _ _ _ _ _ _ _ Hid _ _ _ E).
      - apply leaks_only_message.
        + exact (copilot_details_clean _ _ _ _ _ _ _ Hid _ _ _ E).
        + exact (copilot_details_failed _ _ _ _ _ _ _ _ _ _ E). }
    intros details (Hclean & Hleak). cbv zeta.
    pose proof (items_of_masked details Hclean) as Hitems.
    apply (returns_bind (fun l => Forall (fun x => masked x = true) l)).
    { apply returns_lift. intros errors E. exact (select_masked _ _ _ Hitems E). }
    intros errors Herrors.
    apply (returns_bind (fun l => Forall (fun x => masked x = true) l)).
    { apply returns_lift. intros warns E. exact (select_masked _ _ _ Hitems E). }
    intros warns Hwarns.
    apply returns_ret. intros _. unfold run_report.
    apply masked_list in Hpolls.
    pose proof (firstn_masked 25 errors Herrors) as H1.
    pose proof (firstn_masked 25 warns Hwarns) as H2.
    pose proof (firstn_masked 25 (items_of details) Hitems) as H3.
    assert (Hjob : masked (VDict [("jobId", get exec_res "jobId");
                                  ("jobType", VStr job_type);
                                  ("jobName", VStr job_name);
                                  ("finalStatus", get (py_or last (VDict [])) "status");
                                  ("pollCount", VInt (Z.of_nat (length polls)));
                                  ("polls", VList polls)]) = true)
      by masked_dict.
    assert (Hsum : masked (VDict [("errors", VList (firstn 25 errors));
                                  ("warnings", VList (firstn 25 warns));
                                  ("detailsSample", VList (firstn 25 (items_of details)))])
                   = true)
      by masked_dict.
    cbn [get lookup String.eqb Ascii.eqb Bool.eqb].
    split; [ | now repeat split ].
    rewrite <- Hleak.
    change (masked (VDict [("ok", VBool true);
                           ("job", ?j); ("summary", ?m); ("raw", ?w)]))
      with (masked j && (masked m && (masked w && true))).
    rewrite Hjob, Hsum. cbn [andb masked forallb]. eval_sensitive.
    rewrite Hex, Hlast. cbn [andb]. now rewrite !andb_true_r.
  - now apply returns_ret.
Qed.

Lemma run_report_leaks_only_details_message_witness :
  exists r s',
    planning_run_job_and_wait world_chatty 2 "IMPORT_DATA" "LoadActuals" VNone 10 600
      None None 0 200 None fresh_state
    = (Ret (Some r), s')
    /\ get (get (get r "raw") "finalStatus") "raw" <> VNone
    /\ masked r = true.
Proof.
  destruct (planning_run_job_and_wait world_chatty 2 "IMPORT_DATA" "LoadActuals" VNone
              10 600 None None 0 200 None fresh_state)
    as [ [ [ r | ] | ex ] s' ] eqn:E; try discriminate E.
  exists r, s'. split; [ reflexivity | ].
  pose proof (run_report_leaks_only_details_message _ _ _ _ _ _ _ _ _ _ _ _ _ _ _ E)
    as H.
  cbv beta iota in H.
  assert (Hr : truthy (get r "ok") = true
               /\ get (get (get r "raw") "finalStatus") "raw" <> VNone
               /\ masked (get (get (get r "raw") "details") "message") = true).
  { injection E as <- _. split; [ reflexivity | ]. split; [ discriminate | reflexivity ]. }
  destruct Hr as (Hok & Hraw & Hmsg). split; [ exact Hraw | ].
  destruct (H Hok) as (Hm & _). now rewrite Hm.
Defined.

End ReportFacts.
